(** * ACRE forensics core: atomizer, attribution, verification, pipeline

    A shallow embedding of the forensic email-thread reconstruction core
    (forensics/atomizer.py, forensics/attribution.py,
    forensics/verification.py, forensics/pipeline.py and the part of
    forensics/remote_worker_api.py the pipeline calls), followed by the
    properties of that code.

    Python values are modelled as the code has them: a dict with string
    keys is a [gmap string _], a str is a [string] of 8-bit code points
    (the Basic Latin and Latin-1 blocks), an int is a [Z], a function that
    can raise returns a [result].  Library calls whose code is outside the
    repository (the sentence segmenter, the HTML parser, sha256, the JSON
    codec, diff-match-patch, the remote services) are Section variables. *)

From Stdlib Require Import ZArith Lia Bool Ascii String List.
From stdpp Require Import base option list gmap strings pretty sorting.
Import ListNotations.

Set Warnings "-register-all".

Local Open Scope string_scope.
Local Open Scope list_scope.

(** ** Exceptions and fallible computations *)

Inductive exn : Type :=
  | LookupError
  | TypeError
  | KeyError (key : string)
  | AttributeError
  | JSONDecodeError
  | ConnectionError
  | HTTPError (status : nat).

(** A call either raises or returns. *)
Inductive result (A : Type) : Type :=
  | Raise (e : exn)
  | Return (a : A).
Arguments Raise {A} e.
Arguments Return {A} a.

Definition bind {A B : Type} (m : result A) (k : A -> result B) : result B :=
  match m with
  | Raise e => Raise e
  | Return a => k a
  end.

Notation "x <- m ;; k" := (bind m (fun x => k))
  (at level 100, m at next level, right associativity).

(** ** Python [str] methods *)

Module Str.

Definition code (c : ascii) : nat := nat_of_ascii c.

(** [str.isspace] on one character: the code points below 256 that
    Python treats as whitespace. *)
Definition isspace (c : ascii) : bool :=
  let n := code c in
  (((9 <=? n) && (n <=? 13)) || ((28 <=? n) && (n <=? 32))
   || (n =? 133) || (n =? 160))%nat.

(** [str.lower] on one character: A-Z and the Latin-1 capitals
    (U+00C0..U+00DE without the multiplication sign) move up by 32. *)
Definition lower_char (c : ascii) : ascii :=
  let n := code c in
  if (((65 <=? n) && (n <=? 90))
      || ((192 <=? n) && (n <=? 222) && negb (n =? 215)))%nat
  then ascii_of_nat (n + 32)
  else c.

Fixpoint lower (s : string) : string :=
  match s with
  | EmptyString => EmptyString
  | String c s' => String (lower_char c) (lower s')
  end.

(** [s.lstrip(chars)], [s.rstrip(chars)], [s.strip(chars)] with the set
    of characters given as a predicate. *)
Fixpoint lstrip_by (p : ascii -> bool) (s : string) : string :=
  match s with
  | EmptyString => EmptyString
  | String c s' => if p c then lstrip_by p s' else s
  end.

Fixpoint rstrip_by (p : ascii -> bool) (s : string) : string :=
  match s with
  | EmptyString => EmptyString
  | String c s' =>
      match rstrip_by p s' with
      | EmptyString => if p c then EmptyString else String c EmptyString
      | r => String c r
      end
  end.

Definition strip_by (p : ascii -> bool) (s : string) : string :=
  rstrip_by p (lstrip_by p s).

(** [s.strip()] *)
Definition strip : string -> string := strip_by isspace.

(** membership of a character in a [chars] argument *)
Fixpoint mem (c : ascii) (chars : string) : bool :=
  match chars with
  | EmptyString => false
  | String d chars' => Ascii.eqb c d || mem c chars'
  end.

(** [s.lstrip(chars)] *)
Definition lstrip_chars (chars : string) : string -> string :=
  lstrip_by (fun c => mem c chars).

(** [s.startswith(p)] *)
Definition startswith (p s : string) : bool := String.prefix p s.

(** [sub in s] *)
Fixpoint contains (sub s : string) : bool :=
  String.prefix sub s
  || match s with
     | EmptyString => false
     | String _ s' => contains sub s'
     end.

(** [s.count(c)] for a needle of one character. *)
Fixpoint count (c : ascii) (s : string) : nat :=
  match s with
  | EmptyString => 0
  | String d s' => (if Ascii.eqb d c then 1 else 0) + count c s'
  end.

(** [s.split()]: the maximal runs of non-whitespace characters. *)
Fixpoint split (s : string) : list string :=
  match s with
  | EmptyString => []
  | String c s' =>
      if isspace c then split s'
      else
        match s' with
        | EmptyString => [String c EmptyString]
        | String c' _ =>
            if isspace c' then String c EmptyString :: split s'
            else
              match split s' with
              | w :: ws => String c w :: ws
              | [] => [String c EmptyString]
              end
        end
  end.

(** [sep.join(l)] *)
Definition join (sep : string) (l : list string) : string :=
  String.concat sep l.

(** truthiness of a str *)
Definition nonempty (s : string) : bool :=
  match s with
  | EmptyString => false
  | String _ _ => true
  end.

End Str.

(** ** Python values and the parsed HTML tree *)

(** The values this code handles: what [json.loads] builds and what the
    atom dicts hold ([None], bool, int, str, list, dict). *)
Inductive value : Type :=
  | VNone
  | VBool (b : bool)
  | VInt (n : Z)
  | VStr (s : string)
  | VList (items : list value)
  | VDict (fields : list (string * value)).

(** A Python dict with str keys that the code builds and updates; an atom
    (a "MessageTranscript dict") is one of these. *)
Abbreviation pydict := (gmap string value).
Abbreviation Atom := (gmap string value).

(** [d.get(k, default)] and [d[k]] *)
Definition dict_get (d : pydict) (k : string) (dflt : value) : value :=
  default dflt (d !! k).

Definition getitem (d : pydict) (k : string) : result value :=
  match d !! k with
  | Some v => Return v
  | None => Raise (KeyError k)
  end.

(** An optional str as a value: [None] stays [None]. *)
Definition of_opt (o : option string) : value :=
  match o with
  | Some s => VStr s
  | None => VNone
  end.

(** f-string formatting of an optional str. *)
Definition fmt_opt (o : option string) : string :=
  match o with
  | Some s => s
  | None => "None"
  end.

(** truthiness *)
Definition truthy_opt (o : option string) : bool :=
  match o with
  | Some s => Str.nonempty s
  | None => false
  end.

Definition truthy (v : value) : bool :=
  match v with
  | VNone => false
  | VBool b => b
  | VInt n => negb (n =? 0)%Z
  | VStr s => Str.nonempty s
  | VList items => match items with [] => false | _ => true end
  | VDict fields => match fields with [] => false | _ => true end
  end.

(** [x == k] for a str [k] *)
Definition eq_str (x : value) (k : string) : bool :=
  match x with
  | VStr s => String.eqb s k
  | _ => false
  end.

(** [x == 0] *)
Definition eq_zero (v : value) : bool :=
  match v with
  | VInt n => (n =? 0)%Z
  | VBool b => negb b
  | _ => false
  end.

(** [d[k]] on a dict that [json.loads] built: the last pair of a repeated
    key wins. *)
Fixpoint obj_lookup (k : string) (fields : list (string * value)) : option value :=
  match fields with
  | [] => None
  | (k', v) :: rest =>
      match obj_lookup k rest with
      | Some v' => Some v'
      | None => if String.eqb k' k then Some v else None
      end
  end.

(** [k in x] for a str [k] *)
Definition py_in (k : string) (x : value) : result bool :=
  match x with
  | VDict fields =>
      Return match obj_lookup k fields with Some _ => true | None => false end
  | VList items => Return (existsb (fun i => eq_str i k) items)
  | VStr s => Return (Str.contains k s)
  | VNone | VBool _ | VInt _ => Raise TypeError
  end.

(** [x[k]] for a str [k] *)
Definition py_getitem (x : value) (k : string) : result value :=
  match x with
  | VDict fields =>
      match obj_lookup k fields with
      | Some v => Return v
      | None => Raise (KeyError k)
      end
  | _ => Raise TypeError
  end.

(** [x.get(k, dflt)] for a key [k] that is a value *)
Definition py_get (x : value) (k : value) (dflt : value) : result value :=
  match x with
  | VDict fields =>
      match k with
      | VStr s => Return (default dflt (obj_lookup s fields))
      | VList _ | VDict _ => Raise TypeError
      | _ => Return dflt
      end
  | _ => Raise AttributeError
  end.

(** Equality of two hashable values, as a dict compares its keys. *)
Definition key_eqb (a b : value) : bool :=
  match a, b with
  | VNone, VNone => true
  | VStr s, VStr t => String.eqb s t
  | VInt n, VInt m => (n =? m)%Z
  | VBool x, VBool y => Bool.eqb x y
  | VInt n, VBool y | VBool y, VInt n => (n =? (if y then 1 else 0))%Z
  | _, _ => false
  end.

(** A bs4 attribute value: a str, or a list of str for the multi-valued
    attributes. *)
Inductive attr_value : Type :=
  | AttrStr (s : string)
  | AttrList (l : list string).

(** A node of the tree BeautifulSoup builds: a [Tag] with its name,
    attribute dict and children, or a [NavigableString]. *)
Inductive node : Type :=
  | Tag (name : string) (attrs : gmap string attr_value) (children : list node)
  | NavigableString (text : string).

(** The accumulated style dict of the tree walker. *)
Abbreviation style := (gmap string string).

(** ** The regular expression of the colour declaration

    [re.search] for the pattern [color\s*:\s*(G+)], where G is any
    character but the semicolon and the double quote: group 1 of the
    leftmost match.  After the colon the greedy [\s*] takes the whole whitespace
    run; when no G character follows,
    the engine backtracks by one and the group is the last whitespace
    character of the run. *)
Module Re.

Fixpoint take_while (p : ascii -> bool) (s : string) : string :=
  match s with
  | EmptyString => EmptyString
  | String c s' => if p c then String c (take_while p s') else EmptyString
  end.

Fixpoint drop (n : nat) (s : string) : string :=
  match n, s with
  | O, _ => s
  | S n', String _ s' => drop n' s'
  | S _, EmptyString => EmptyString
  end.

Fixpoint last_char (s : string) : option ascii :=
  match s with
  | EmptyString => None
  | String c EmptyString => Some c
  | String _ s' => last_char s'
  end.

Definition in_group (c : ascii) : bool :=
  negb (Ascii.eqb c ";" || Ascii.eqb c "034").

Definition match_color_at (s : string) : option string :=
  if String.prefix "color" s then
    match Str.lstrip_by Str.isspace (drop 5 s) with
    | String ":" r =>
        match take_while in_group (Str.lstrip_by Str.isspace r) with
        | EmptyString =>
            match last_char (take_while Str.isspace r) with
            | Some c => Some (String c EmptyString)
            | None => None
            end
        | g => Some g
        end
    | _ => None
    end
  else None.

Fixpoint search_color (s : string) : option string :=
  match match_color_at s with
  | Some g => Some g
  | None =>
      match s with
      | EmptyString => None
      | String _ s' => search_color s'
      end
  end.

End Re.

(** [soup.find(name)]: the first descendant tag of that name, in document
    order. *)
Fixpoint find_from (name : string) (n : node) : option node :=
  match n with
  | Tag nm _ children =>
      if String.eqb nm name then Some n
      else
        (fix first (cs : list node) : option node :=
           match cs with
           | [] => None
           | c :: cs' =>
               match find_from name c with
               | Some r => Some r
               | None => first cs'
               end
           end) children
  | NavigableString _ => None
  end.

Definition find (name : string) (n : node) : option node :=
  match n with
  | Tag _ _ children =>
      (fix first (cs : list node) : option node :=
         match cs with
         | [] => None
         | c :: cs' =>
             match find_from name c with
             | Some r => Some r
             | None => first cs'
             end
         end) children
  | NavigableString _ => None
  end.

(** [sort_keys=True]: the items of a dict ordered by key. *)
Definition key_le {A : Type} (x y : string * A) : Prop := String.le x.1 y.1.

#[local] Instance key_le_dec {A : Type} : RelDecision (@key_le A).
Proof. intros x y. unfold key_le. apply _. Defined.

Definition sort_keys (d : style) : list (string * value) :=
  (fun kv => (kv.1, VStr kv.2)) <$> merge_sort key_le (map_to_list d).

(** ** The Worker API and the pipeline's data

    forensics/remote_worker_api.py talks to the Worker over HTTP.  What
    one HTTP exchange can give back: *)
Inductive http_reply : Type :=
  | NoReply                                    (* [requests] raised: no connection, timeout *)
  | Reply (status_code : nat) (body : option value).
                                               (* the body as [resp.json()] parses it; [None]: not JSON *)

(** [RemoteWorkerClient._request], after the exchange: 401 and 403 are
    answered with an empty dict, any other error status is raised by
    [raise_for_status], a body that is not JSON is raised by
    [resp.json()]. *)
Definition _request (reply : http_reply) : result value :=
  match reply with
  | NoReply => Raise ConnectionError
  | Reply status_code body =>
      if ((status_code =? 401) || (status_code =? 403))%nat then
        Return (VDict [])
      else if ((400 <=? status_code) && (status_code <? 600))%nat then
        Raise (HTTPError status_code)
      else
        match body with
        | Some doc => Return doc
        | None => Raise JSONDecodeError
        end
  end.

(** The message record of step 1.5 ([db_message]). *)
Record db_message : Type := DbMessage {
  m_messageId : option string;
  m_engagement_id : string;
  m_threadId : option string;
  m_fromAddress : option string;
  m_toAddress : option string;
  m_subject : option string;
  m_bodyPlain : option string;
  m_bodyHtml : option string;
  m_sentDate : option string;
  m_headers : gmap string string
}.

(** The requests the pipeline sends, by client method. *)
Inductive request : Type :=
  | POST_log (type step_name : string)
      (* log_event: /internal/log *)
  | POST_message_create (message_data : db_message)
      (* create_message: /internal/db/message/create *)
  | POST_transcripts_batch (transcripts : list pydict)
      (* batch_create_transcripts: /internal/db/transcripts/batch *)
  | POST_update_analysis (message_id : option string)
      (attribution_stats : list (value * Z)) (deception_score : Z)
      (session_id : string)
      (* store_analysis: /internal/db/message/update-analysis *)
  | POST_agent_run (agent_name action : string) (transcripts : list pydict)
      (agent_id : string).
      (* run_agent: /internal/agent/run *)

(** What a run of [process_message] does to the outside, in order. *)
Inductive event : Type :=
  | Requested (req : request) (reply : http_reply)
  | Emitted (event_type : string)          (* monitor.broadcast *)
  | GmailFetch (message_id : option string)
  | Called (method : string).              (* a call of a component of the core *)

(** The message payload: the values of its keys messageId, threadId,
    headers, body and htmlBody after [.get] with its default. *)
Record payload : Type := Payload {
  messageId : option string;
  threadId : option string;
  headers : gmap string string;
  body : option string;
  htmlBody : option string
}.

(** The three variables the Gmail block of [process_message] may assign. *)
Record content : Type := Content {
  c_headers : gmap string string;
  body_plain : option string;
  body_html : option string
}.

(** How the Gmail block ended: [msg] parsed or not, or the exception its
    [except] clause caught. *)
Inductive gmail_outcome : Type :=
  | Fetched (parsed : bool)
  | FetchFailed (e : exn).

(** The fields of [ACREPipeline] that [process_message] reads. *)
Record ACREPipeline : Type := Pipeline {
  engagement_id : string;
  session_id : string;
  gcp_service_account : option string;
  monitor : bool
}.

(** ** The interfaces of the library dependencies *)

(** [hashlib.sha256(s.encode("utf-8")).hexdigest()] *)
Class Hashing : Type := {
  sha256_hex : string -> string
}.

(** [nltk.sent_tokenize]; it raises when the Punkt model is missing. *)
Class Segmenter : Type := {
  sent_tokenize : string -> result (list string)
}.

(** [BeautifulSoup(markup, "lxml")], the root of the parsed tree, and
    [str(l)] for a list of str. *)
Class HtmlParser : Type := {
  BeautifulSoup : option string -> result node;
  str_of_list : list string -> string
}.

(** [json.dumps] and the parser behind [json.loads] on a str. *)
Class JsonCodec : Type := {
  json_dumps : value -> string;
  json_parse : string -> option value
}.

(** diff-match-patch: [diff_main], [diff_cleanupSemantic],
    [diff_prettyHtml]. *)
Class DiffMatchPatch : Type := {
  diffs : Type;
  diff_main : string -> string -> diffs;
  diff_cleanupSemantic : diffs -> diffs;
  diff_prettyHtml : diffs -> string
}.

(** The outside of the process: the Worker behind the HTTP API, and the
    Gmail block of [process_message] (collector and MIME parser), which
    leaves the three content variables in some state. *)
Class Outside : Type := {
  World : Type;
  worker : World -> request -> http_reply * World;
  gmail : World -> option string -> content -> content * gmail_outcome * World
}.

(** ** The code *)

Section Core.

Context {hashing : Hashing} {segmenter : Segmenter} {parser : HtmlParser}
        {codec : JsonCodec} {dmp : DiffMatchPatch} {outside : Outside}.

(** *** forensics/atomizer.py *)

(** The list [atoms] and the counter [sequence_index] that [traverse]
    updates through its closure. *)
Record walk : Type := Walk {
  atoms : list Atom;
  sequence_index : nat
}.

Definition is_bold_tag (name : string) : bool :=
  String.eqb name "b" || String.eqb name "strong".

(** [str(node.get("style", "")).lower()] *)
Definition style_attr_of (attrs : gmap string attr_value) : string :=
  Str.lower
    match attrs !! "style" with
    | Some (AttrStr s) => s
    | Some (AttrList l) => str_of_list l
    | None => ""
    end.

(** Lines 53-85 of [traverse]: the style of a tag, from the style of
    its parent. *)
Definition tag_style (name : string) (attrs : gmap string attr_value)
    (current_style_stack : style) : style :=
  let node_style := current_style_stack in
  let style_attr := style_attr_of attrs in
  let node_style :=
    if Str.nonempty style_attr then
      let node_style :=
        if Str.contains "color" style_attr then
          match Re.search_color style_attr with
          | Some g => <["color" := Str.strip g]> node_style
          | None => node_style
          end
        else node_style in
      let node_style :=
        if Str.contains "font-weight" style_attr || is_bold_tag name then
          if Str.contains "bold" style_attr || is_bold_tag name
          then <["font_weight" := "bold"]> node_style
          else node_style
        else node_style in
      if Str.contains "text-transform" style_attr
         && Str.contains "uppercase" style_attr
      then <["text_transform" := "uppercase"]> node_style
      else node_style
    else node_style in
  let node_style :=
    if is_bold_tag name then <["font_weight" := "bold"]> node_style
    else node_style in
  if String.eqb name "font" then
    match attrs !! "color" with
    | Some (AttrList (color_attr :: _)) =>
        <["color" := Str.lower color_attr]> node_style
    | Some (AttrStr color_attr) =>
        <["color" := Str.lower color_attr]> node_style
    | _ => node_style
    end
  else node_style.

(** The dict built at lines 111-123. *)
Definition html_atom (message_id : option string) (sent_text : string)
    (sequence_index new_depth : nat) (node_style : style) : Atom :=
  let atom_hash := sha256_hex (Str.lower sent_text) in
  let clean_style := filter (fun kv => Str.nonempty kv.2 = true) node_style in
  let visual_json := json_dumps (VDict (sort_keys clean_style)) in
  list_to_map
    [ ("id", VStr (sha256_hex (fmt_opt message_id ++ "_" ++ pretty sequence_index)));
      ("messageId", of_opt message_id);
      ("content", VStr sent_text);
      ("normalizedHash", VStr atom_hash);
      ("sequenceIndex", VInt (Z.of_nat sequence_index));
      ("quoteDepth", VInt (Z.of_nat new_depth));
      ("visualStyle", VStr visual_json);
      ("attributedTo", VNone);
      ("attributionMethod", VNone) ].

(** The loop over the sentences of one text node (lines 98-125). *)
Fixpoint emit_sentences (message_id : option string) (new_depth : nat)
    (node_style : style) (sentences : list string) (w : walk) : walk :=
  match sentences with
  | [] => w
  | sent_text :: rest =>
      let sent_text := Str.strip sent_text in
      if negb (Str.nonempty sent_text) then
        emit_sentences message_id new_depth node_style rest w
      else
        let atom :=
          html_atom message_id sent_text (sequence_index w) new_depth node_style in
        emit_sentences message_id new_depth node_style rest
          (Walk (atoms w ++ [atom]) (S (sequence_index w)))
  end.

Fixpoint traverse (message_id : option string) (n : node)
    (current_depth : nat) (current_style_stack : style) (w : walk)
    : result walk :=
  match n with
  | Tag name attrs children =>
      let new_depth :=
        if String.eqb name "blockquote" then S current_depth
        else current_depth in
      let node_style := tag_style name attrs current_style_stack in
      (fix each (cs : list node) (w : walk) : result walk :=
         match cs with
         | [] => Return w
         | child :: cs' =>
             w' <- traverse message_id child new_depth node_style w ;;
             each cs' w'
         end) children w
  | NavigableString text =>
      let node_style := current_style_stack in
      let new_depth := current_depth in
      let text := Str.strip text in
      if negb (Str.nonempty text) then Return w
      else
        sentences <- sent_tokenize text ;;
        Return (emit_sentences message_id new_depth node_style sentences w)
  end.

(** The [for child in node.children] loop, by name. *)
Fixpoint traverse_children (message_id : option string) (cs : list node)
    (new_depth : nat) (node_style : style) (w : walk) : result walk :=
  match cs with
  | [] => Return w
  | child :: cs' =>
      w' <- traverse message_id child new_depth node_style w ;;
      traverse_children message_id cs' new_depth node_style w'
  end.

(** The dict built at lines 148-157; it has no attributionMethod key. *)
Definition plain_atom (message_id : option string) (sent_text : string)
    (i depth : nat) (sender_email : option string) : Atom :=
  list_to_map
    [ ("id", VStr (sha256_hex (fmt_opt message_id ++ "_" ++ pretty i)));
      ("messageId", of_opt message_id);
      ("content", VStr sent_text);
      ("normalizedHash", VStr (sha256_hex (Str.lower sent_text)));
      ("sequenceIndex", VInt (Z.of_nat i));
      ("quoteDepth", VInt (Z.of_nat depth));
      ("visualStyle", VStr "{}");
      ("attributedTo", if (depth =? 0)%nat then of_opt sender_email else VNone) ].

(** The loop [for i, sent_text in enumerate(sentences)], from index [i]. *)
Fixpoint plain_loop (message_id : option string)
    (sender_email : option string) (i : nat) (sentences : list string)
    (atoms : list Atom) : list Atom :=
  match sentences with
  | [] => atoms
  | sent_text :: rest =>
      let sent_text := Str.strip sent_text in
      if negb (Str.nonempty sent_text) then
        plain_loop message_id sender_email (S i) rest atoms
      else
        let '(depth, sent_text) :=
          if Str.startswith ">" sent_text
          then (Str.count ">" sent_text,
                Str.strip (Str.lstrip_chars "> " sent_text))
          else (0, sent_text) in
        plain_loop message_id sender_email (S i) rest
          (atoms ++ [plain_atom message_id sent_text i depth sender_email])
  end.

Definition _atomize_plain (message_id : option string) (text : string)
    (sender_email : option string) : result (list Atom) :=
  sentences <- sent_tokenize text ;;
  Return (plain_loop message_id sender_email 0 sentences []).

Definition atomize (message_id : option string)
    (html_content plain_content sender_email : option string)
    : result (list Atom) :=
  if negb (truthy_opt html_content) && truthy_opt plain_content then
    _atomize_plain message_id (default "" plain_content) sender_email
  else
    soup <- BeautifulSoup html_content ;;
    let body := default soup (find "body" soup) in
    w <- traverse message_id body 0 ∅ (Walk [] 0) ;;
    Return (atoms w).

(** *** forensics/attribution.py *)

(** [json.loads(x)] *)
Definition json_loads (x : value) : result value :=
  match x with
  | VStr s =>
      match json_parse s with
      | Some doc => Return doc
      | None => Raise JSONDecodeError
      end
  | _ => Raise TypeError
  end.

(** [k in x and k2 in x[k]] *)
Definition has_containing (x : value) (k k2 : string) : result bool :=
  b <- py_in k x ;;
  if b : bool then v <- py_getitem x k ;; py_in k2 v else Return false.

(** [k in x and x[k] == s] *)
Definition has_equal (x : value) (k s : string) : result bool :=
  b <- py_in k x ;;
  if b : bool then v <- py_getitem x k ;; Return (eq_str v s)
  else Return false.

(** Lines 215-226: the three tests run one after the other. *)
Definition is_aggressive_style (visual_style : value) : result bool :=
  if truthy visual_style then
    red <- has_containing visual_style "color" "red" ;;
    bold <- has_equal visual_style "font_weight" "bold" ;;
    upper <- has_equal visual_style "text_transform" "uppercase" ;;
    Return (red || bold || upper)
  else Return false.

(** The body of the loop of [attribute_atoms], on one atom. *)
Definition attribute_atom (atom : Atom) (sender_email : option string)
    : result Atom :=
  let quote_depth := dict_get atom "quoteDepth" (VInt 0) in
  let visual_style_str := dict_get atom "visualStyle" (VStr "{}") in
  visual_style <- json_loads visual_style_str ;;
  if eq_zero quote_depth then
    Return (<["isAlteredQuote" := VBool false]>
            (<["attributionMethod" := VStr "HEADER_DEPTH_0"]>
             (<["attributedTo" := of_opt sender_email]> atom)))
  else
    aggressive <- is_aggressive_style visual_style ;;
    if aggressive : bool then
      Return (<["attributionMethod" := VStr "STYLE_INFERENCE_INTERJECTION"]>
              (<["attributedTo" := of_opt sender_email]> atom))
    else
      Return (<["attributionMethod" := VStr "QUOTE_DEPTH"]>
              (<["attributedTo" := VStr "Quoted_Party"]> atom)).

(** The loop mutates the list it is given: [attribute_loop] returns the
    list as the loop leaves it, with the exception that stopped it, if
    one did. *)
Fixpoint attribute_loop (atoms : list Atom) (sender_email : option string)
    : list Atom * option exn :=
  match atoms with
  | [] => ([], None)
  | atom :: rest =>
      match attribute_atom atom sender_email with
      | Raise e => (atom :: rest, Some e)
      | Return atom' =>
          let '(rest', r) := attribute_loop rest sender_email in
          (atom' :: rest', r)
      end
  end.

Definition attribute_atoms (atoms : list Atom) (sender_email : option string)
    : result (list Atom) :=
  match attribute_loop atoms sender_email with
  | (atoms', None) => Return atoms'
  | (_, Some e) => Raise e
  end.

(** *** forensics/verification.py *)

Definition normalize_content (text : string) : string :=
  if negb (Str.nonempty text) then ""
  else Str.join " " (Str.split (Str.lower text)).

Definition compute_hash (text : string) : string :=
  let norm := normalize_content text in
  sha256_hex norm.

Definition verify_quote (quote_text original_source_text : string)
    : bool * option string :=
  let quote_hash := compute_hash quote_text in
  let original_hash := compute_hash original_source_text in
  if String.eqb quote_hash original_hash then (true, None)
  else
    let diffs := diff_main original_source_text quote_text in
    let diffs := diff_cleanupSemantic diffs in
    let html := diff_prettyHtml diffs in
    (false, Some html).

Definition diff_texts (text1 text2 : string) : string :=
  let diffs := diff_main text1 text2 in
  let diffs := diff_cleanupSemantic diffs in
  diff_prettyHtml diffs.

(** *** forensics/remote_worker_api.py, agents/base.py, agents/classifier.py *)

(** A step of the pipeline: from the state of the outside, it raises or
    returns, leaves the outside in a new state, and has performed a
    list of events. *)
Definition Pipe (A : Type) : Type := World -> result A * World * list event.

Definition ret {A : Type} (a : A) : Pipe A := fun w => (Return a, w, []).

Definition raise {A : Type} (e : exn) : Pipe A := fun w => (Raise e, w, []).

Definition lift {A : Type} (r : result A) : Pipe A := fun w => (r, w, []).

Definition pbind {A B : Type} (m : Pipe A) (k : A -> Pipe B) : Pipe B :=
  fun w =>
    match m w with
    | (Raise e, w', evs) => (Raise e, w', evs)
    | (Return a, w', evs) =>
        let '(r, w'', evs') := k a w' in (r, w'', evs ++ evs')
    end.

Local Notation "x <~ m ;; k" := (pbind m (fun x => k))
  (at level 100, m at next level, right associativity).

(** [try: m] with the exception handed to the [except] clause. *)
Definition attempt {A : Type} (m : Pipe A) : Pipe (result A) :=
  fun w => let '(r, w', evs) := m w in (Return r, w', evs).

Definition record (ev : event) : Pipe unit := fun w => (Return tt, w, [ev]).

(** One HTTP exchange with the Worker. *)
Definition exchange (req : request) : Pipe http_reply :=
  fun w =>
    let '(reply, w') := worker w req in
    (Return reply, w', [Requested req reply]).

Definition _post (req : request) : Pipe value :=
  reply <~ exchange req ;;
  lift (_request reply).

(** [log_event] posts with its own [try/except: pass]. *)
Definition log_event (type step_name : string) : Pipe unit :=
  _ <~ exchange (POST_log type step_name) ;;
  ret tt.

Definition store_analysis (message_id : option string)
    (analysis_json : list (value * Z)) (deception_score : Z)
    (session_id : string) : Pipe value :=
  _post (POST_update_analysis message_id analysis_json deception_score session_id).

Definition create_message (message_data : db_message) : Pipe value :=
  _post (POST_message_create message_data).

Definition batch_create_transcripts (transcripts : list pydict) : Pipe value :=
  _post (POST_transcripts_batch transcripts).

Definition run_agent (agent_name action : string) (transcripts : list pydict)
    (agent_id : string) : Pipe value :=
  resp <~ _post (POST_agent_run agent_name action transcripts agent_id) ;;
  lift (py_get resp (VStr "result") VNone).

(** [WorkerLogger.info], [.error], [.warning] *)
Definition info (step_name : string) : Pipe unit := log_event "INFO" step_name.
Definition error (step_name : string) : Pipe unit := log_event "ERROR" step_name.
Definition warning (step_name : string) : Pipe unit := log_event "WARN" step_name.

(** [BaseAgentClient._invoke] for the classifier agent. *)
Definition _invoke (engagement_id action : string) (transcripts : list pydict)
    : Pipe value :=
  _ <~ log_event "INFO" ("classifier." ++ action) ;;
  r <~ attempt
         (response <~ run_agent "CLASSIFIER_AGENT" action transcripts engagement_id ;;
          _ <~ log_event "INFO" ("classifier." ++ action) ;;
          ret response) ;;
  match r with
  | Return response => ret response
  | Raise e =>
      _ <~ log_event "ERROR" ("classifier." ++ action) ;;
      raise e
  end.

Definition classify_batch (engagement_id : string) (transcripts : list pydict)
    : Pipe value :=
  _ <~ record (Called "classifier.classify_batch") ;;
  _invoke engagement_id "classifyBatch" transcripts.

(** *** forensics/pipeline.py *)

(** [_emit]: the monitor's [broadcast] handles the exceptions of its own
    body (forensics/api.py). *)
Definition _emit (self : ACREPipeline) (event_type : string) : Pipe unit :=
  if monitor self then record (Emitted event_type) else ret tt.

(** Lines 178-221. *)
Definition fetch_from_gmail (message_id : option string) (c : content)
    : Pipe content :=
  outcome <~ (fun w =>
                let '(c', outcome, w') := gmail w message_id c in
                (Return (c', outcome), w', [GmailFetch message_id])) ;;
  match outcome with
  | (c', Fetched parsed) =>
      _ <~ (if parsed : bool then ret tt else warning "process_message") ;;
      _ <~ info "process_message" ;;
      ret c'
  | (c', FetchFailed e) =>
      _ <~ error "process_message" ;;
      ret c'
  end.

Fixpoint map_result {A B : Type} (f : A -> result B) (l : list A)
    : result (list B) :=
  match l with
  | [] => Return []
  | a :: l' =>
      b <- f a ;;
      bs <- map_result f l' ;;
      Return (b :: bs)
  end.

(** One entry of [classifier_input] (line 270). *)
Definition classifier_entry (a : Atom) : result pydict :=
  id <- getitem a "id" ;;
  content <- getitem a "content" ;;
  Return (list_to_map [("id", id); ("content", content)]).

(** The loop of lines 273-275 on the list it mutates: the list as the
    loop leaves it, and the exception that stopped it, if one did. *)
Fixpoint label_loop (classification_results : value) (atoms : list Atom)
    : list Atom * option exn :=
  match atoms with
  | [] => ([], None)
  | atom :: rest =>
      match (id <- getitem atom "id" ;;
             py_get classification_results id (VList [])) with
      | Raise e => (atom :: rest, Some e)
      | Return labels =>
          let '(rest', r) := label_loop classification_results rest in
          (<["labels" := labels]> atom :: rest', r)
      end
  end.

(** Lines 278-280: [.values()] is only reached for a truthy result. *)
Definition labels_summary (classification_results : value) : result unit :=
  if truthy classification_results then
    match classification_results with
    | VDict _ => Return tt
    | _ => Raise AttributeError
    end
  else Return tt.

(** Step 4, the [try] block and its [except] clause; the result is the
    list of atoms as the block leaves it. *)
Definition classify (self : ACREPipeline) (attributed_atoms : list Atom)
    : Pipe (list Atom) :=
  match map_result classifier_entry attributed_atoms with
  | Raise e =>
      _ <~ error "process_message" ;;
      ret attributed_atoms
  | Return classifier_input =>
      r <~ attempt (classify_batch (engagement_id self) classifier_input) ;;
      match r with
      | Raise e =>
          _ <~ error "process_message" ;;
          ret attributed_atoms
      | Return classification_results =>
          match label_loop classification_results attributed_atoms with
          | (atoms', Some e) =>
              _ <~ error "process_message" ;;
              ret atoms'
          | (atoms', None) =>
              match labels_summary classification_results with
              | Raise e =>
                  _ <~ error "process_message" ;;
                  ret atoms'
              | Return _ =>
                  _ <~ _emit self "decision_made" ;;
                  ret atoms'
              end
          end
      end
  end.

(** One entry of [transcripts_payload] (lines 292-303). *)
Definition transcript_of (atom : Atom) : result pydict :=
  id <- getitem atom "id" ;;
  messageId <- getitem atom "messageId" ;;
  content <- getitem atom "content" ;;
  normalizedHash <- getitem atom "normalizedHash" ;;
  sequenceIndex <- getitem atom "sequenceIndex" ;;
  quoteDepth <- getitem atom "quoteDepth" ;;
  visualStyle <- getitem atom "visualStyle" ;;
  attributedTo <- getitem atom "attributedTo" ;;
  attributionMethod <- getitem atom "attributionMethod" ;;
  Return (list_to_map
    [ ("id", id); ("messageId", messageId); ("content", content);
      ("normalizedHash", normalizedHash); ("sequenceIndex", sequenceIndex);
      ("quoteDepth", quoteDepth); ("visualStyle", visualStyle);
      ("attributedTo", attributedTo);
      ("attributionMethod", attributionMethod);
      ("tags", dict_get atom "labels" (VList [])) ]).

(** [stats[auth] = stats.get(auth, 0) + 1] *)
Fixpoint stats_incr (auth : value) (stats : list (value * Z))
    : list (value * Z) :=
  match stats with
  | [] => [(auth, 1%Z)]
  | (k, n) :: rest =>
      if key_eqb k auth then (k, (n + 1)%Z) :: rest
      else (k, n) :: stats_incr auth rest
  end.

Definition hashable (v : value) : bool :=
  match v with
  | VList _ | VDict _ => false
  | _ => true
  end.

Fixpoint summarize_loop (atoms : list Atom) (stats : list (value * Z))
    : result (list (value * Z)) :=
  match atoms with
  | [] => Return stats
  | a :: rest =>
      let auth := dict_get a "attributedTo" (VStr "unknown") in
      if hashable auth then summarize_loop rest (stats_incr auth stats)
      else Raise TypeError
  end.

Definition _summarize_attribution (atoms : list Atom)
    : result (list (value * Z)) :=
  summarize_loop atoms [].

(** Lines 162-221: the start of [process_message], up to the content
    it works on. *)
Definition extract_content (self : ACREPipeline) (message_payload : payload)
    : Pipe content :=
  let message_id := messageId message_payload in
  _ <~ info "process_message" ;;
  _ <~ _emit self "step_start" ;;
  let c := Content (headers message_payload) (body message_payload)
             (htmlBody message_payload) in
  if negb (truthy_opt (body_plain c)) && truthy_opt (gcp_service_account self)
  then fetch_from_gmail message_id c
  else ret c.

(** Lines 225-241. *)
Definition make_db_message (self : ACREPipeline) (message_payload : payload)
    (c : content) : db_message :=
  {| m_messageId := messageId message_payload;
     m_engagement_id := engagement_id self;
     m_threadId := threadId message_payload;
     m_fromAddress := c_headers c !! "From";
     m_toAddress := c_headers c !! "To";
     m_subject := c_headers c !! "Subject";
     m_bodyPlain := body_plain c;
     m_bodyHtml := body_html c;
     m_sentDate := c_headers c !! "Date";
     m_headers := c_headers c |}.

(** Steps 5 and 6 (lines 288-325): the transcripts, then the analysis
    summary. *)
Definition save_and_store (self : ACREPipeline) (message_id : option string)
    (atoms attributed_atoms : list Atom) : Pipe pydict :=
  transcripts_payload <~ lift (map_result transcript_of attributed_atoms) ;;
  _ <~ info "process_message" ;;
  _ <~ batch_create_transcripts transcripts_payload ;;
  _ <~ info "process_message" ;;
  attribution_stats <~ lift (_summarize_attribution attributed_atoms) ;;
  _ <~ store_analysis message_id attribution_stats 0 (session_id self) ;;
  _ <~ info "process_message" ;;
  _ <~ _emit self "step_complete" ;;
  ret (list_to_map
         [ ("status", VStr "success");
           ("atoms", VInt (Z.of_nat (length atoms))) ]).

(** Steps 2 to 6 (lines 254-325). *)
Definition analyse (self : ACREPipeline) (message_id : option string)
    (c : content) : Pipe pydict :=
  _ <~ info "process_message" ;;
  _ <~ _emit self "step_start" ;;
  _ <~ record (Called "atomizer.atomize") ;;
  atoms <~ lift (atomize message_id (body_html c) (body_plain c)
                   (c_headers c !! "From")) ;;
  _ <~ _emit self "artifact_found" ;;
  _ <~ info "process_message" ;;
  _ <~ record (Called "attributor.attribute_atoms") ;;
  attributed_atoms <~ lift (attribute_atoms atoms (c_headers c !! "From")) ;;
  _ <~ info "process_message" ;;
  attributed_atoms <~ classify self attributed_atoms ;;
  save_and_store self message_id atoms attributed_atoms.

Definition process_message (self : ACREPipeline) (message_payload : payload)
    : Pipe pydict :=
  let message_id := messageId message_payload in
  c <~ extract_content self message_payload ;;
  let db_message := make_db_message self message_payload c in
  _ <~ info "process_message" ;;
  r <~ attempt (create_message db_message) ;;
  match r with
  | Raise e =>
      _ <~ info "process_message" ;;
      ret (list_to_map
             [ ("status", VStr "skipped"); ("reason", VStr "duplicate") ])
  | Return _ => analyse self message_id c
  end.

End Core.

(** ** Instances of the interfaces, for runs on concrete inputs *)

(** A digest that is its own preimage: a hash without collisions. *)
Definition plain_digest : Hashing := {| sha256_hex := fun s => s |}.

(** A segmenter that answers with a given list of sentences, one that
    takes the whole text as one sentence (what Punkt does on a text
    without sentence-ending punctuation), and one whose model is missing. *)
Definition sentences_are (l : list string) : Segmenter :=
  {| sent_tokenize := fun _ => Return l |}.

Definition one_sentence : Segmenter :=
  {| sent_tokenize := fun t => Return [t] |}.

Definition no_punkt : Segmenter :=
  {| sent_tokenize := fun _ => Raise LookupError |}.

(** A parser that answers with a given tree. *)
Definition parses_to (root : node) : HtmlParser :=
  {| BeautifulSoup := fun _ => Return root;
     str_of_list := fun _ => "" |}.

(** A codec that knows the text of the empty dict, and rejects any other
    text. *)
Definition empty_dict_codec : JsonCodec :=
  {| json_dumps := fun v => match v with VDict [] => "{}" | _ => "{...}" end;
     json_parse := fun s => if String.eqb s "{}" then Some (VDict []) else None |}.

(** A diff renderer that only names its two texts. *)
Definition naming_dmp : DiffMatchPatch :=
  {| diffs := string * string;
     diff_main := fun a b => (a, b);
     diff_cleanupSemantic := fun d => d;
     diff_prettyHtml := fun d => String.append d.1 (String.append " / " d.2) |}.

(** Modelled from the spec: the persistence collaborator behind the
    Worker API, "create_message(record) -> success | already_exists;
    batch_create_transcripts(list of atom-records) -> success|error;
    store_analysis_summary(message_id, summary) -> success|error".  The
    record of a message is created once per message id; a second
    creation is answered with an error status (409), which [_request]
    raises.  What the Worker answers to the other requests is left to a
    script: [None] stands for success with an empty body. *)
Record backend : Type := Backend {
  message_ids : list (option string);
  transcript_rows : list pydict;
  analysis_rows : list (option string * list (value * Z))
}.

Definition ok_reply : http_reply := Reply 200 (Some (VDict [])).

Definition succeeded (reply : http_reply) : bool :=
  match _request reply with
  | Return _ => true
  | Raise _ => false
  end.

Definition backend_worker (script : backend -> request -> option http_reply)
    (b : backend) (req : request) : http_reply * backend :=
  match req with
  | POST_message_create message_data =>
      if bool_decide (m_messageId message_data ∈ message_ids b)
      then (Reply 409 None, b)
      else (ok_reply,
            Backend (m_messageId message_data :: message_ids b)
              (transcript_rows b) (analysis_rows b))
  | POST_transcripts_batch transcripts =>
      let reply := default ok_reply (script b req) in
      (reply,
       if succeeded reply
       then Backend (message_ids b) (transcript_rows b ++ transcripts)
              (analysis_rows b)
       else b)
  | POST_update_analysis message_id attribution_stats _ _ =>
      let reply := default ok_reply (script b req) in
      (reply,
       if succeeded reply
       then Backend (message_ids b) (transcript_rows b)
              (analysis_rows b ++ [(message_id, attribution_stats)])
       else b)
  | POST_log _ _ | POST_agent_run _ _ _ _ =>
      (default ok_reply (script b req), b)
  end.

(** The outside with that backend; the Gmail block reads the state of the
    outside and leaves it as it is. *)
Definition backend_outside
    (script : backend -> request -> option http_reply)
    (gmail_block : backend -> option string -> content -> content * gmail_outcome)
    : Outside :=
  {| World := backend;
     worker := backend_worker script;
     gmail := fun b message_id c => (gmail_block b message_id c, b) |}.

Definition no_script : backend -> request -> option http_reply :=
  fun _ _ => None.

Definition no_gmail : backend -> option string -> content -> content * gmail_outcome :=
  fun _ _ c => (c, Fetched false).

Definition empty_backend : backend := Backend [] [] [].

(** An outside without state: the Worker answers each request by a fixed
    table, the Gmail block changes nothing. *)
Definition scripted_outside (answers : request -> http_reply) : Outside :=
  {| World := unit;
     worker := fun w req => (answers req, w);
     gmail := fun w _ c => (c, Fetched false, w) |}.

(** A Worker that cannot be reached when a message record is to be
    created, and answers every other request with success. *)
Definition create_unreachable (req : request) : http_reply :=
  match req with
  | POST_message_create _ => NoReply
  | _ => ok_reply
  end.

(** A Worker whose transcript write answers with a server error, and
    every other request with success. *)
Definition batch_fails (req : request) : http_reply :=
  match req with
  | POST_transcripts_batch _ => Reply 500 None
  | _ => ok_reply
  end.

(** ** Notions the properties are stated with *)

(** The normal form in words: every whitespace run replaced by one space
    (after lowercasing, before trimming). *)
Fixpoint collapse_whitespace (s : string) : string :=
  match s with
  | EmptyString => EmptyString
  | String c s' =>
      if Str.isspace c then
        match s' with
        | EmptyString => String " " EmptyString
        | String c' _ =>
            if Str.isspace c' then collapse_whitespace s'
            else String " " (collapse_whitespace s')
        end
      else String c (collapse_whitespace s')
  end.

Definition normalize_in_words (text : string) : string :=
  Str.strip (collapse_whitespace (Str.lower text)).

(** A text has no whitespace run and no whitespace character other than
    the space: each whitespace character is a space and the character
    after it, if any, is not whitespace. *)
Fixpoint single_spaced (s : string) : bool :=
  match s with
  | EmptyString => true
  | String c s' =>
      (if Str.isspace c then
         Ascii.eqb c " "
         && match s' with
            | EmptyString => true
            | String c' _ => negb (Str.isspace c')
            end
       else true)
      && single_spaced s'
  end.

(** The number of [>] characters a sentence begins with. *)
Fixpoint leading_markers (s : string) : nat :=
  match s with
  | String ">" s' => S (leading_markers s')
  | _ => 0
  end.

(** The document of a style dict: str keys, str values. *)
Definition style_doc (d : list (string * string)) : value :=
  VDict ((fun kv => (kv.1, VStr kv.2)) <$> d).

(** The three tests of the style, as the engine makes them: a colour
    whose text contains red, a bold weight, an uppercase transform. *)
Definition style_lookup (k : string) (d : list (string * string)) : option string :=
  match obj_lookup k ((fun kv => (kv.1, VStr kv.2)) <$> d) with
  | Some (VStr s) => Some s
  | _ => None
  end.

Definition shows_red (d : list (string * string)) : bool :=
  match style_lookup "color" d with
  | Some c => Str.contains "red" c
  | None => false
  end.

Definition shows_bold (d : list (string * string)) : bool :=
  bool_decide (style_lookup "font_weight" d = Some "bold").

Definition shows_uppercase (d : list (string * string)) : bool :=
  bool_decide (style_lookup "text_transform" d = Some "uppercase").

(** The values of the keys of an atom. *)
Definition has_str (a : Atom) (k s : string) : Prop := a !! k = Some (VStr s).
Definition has_int (a : Atom) (k : string) (n : Z) : Prop := a !! k = Some (VInt n).

(** The classes of events the properties speak of. *)
Definition is_create (ev : event) : bool :=
  match ev with
  | Requested (POST_message_create _) _ => true
  | _ => false
  end.

Definition is_batch_write (ev : event) : bool :=
  match ev with
  | Requested (POST_transcripts_batch _) _ => true
  | _ => false
  end.

Definition is_analysis_write (ev : event) : bool :=
  match ev with
  | Requested (POST_update_analysis _ _ _ _) _ => true
  | _ => false
  end.

Definition is_classification (ev : event) : bool :=
  match ev with
  | Requested (POST_agent_run _ _ _ _) _ => true
  | Called "classifier.classify_batch" => true
  | _ => false
  end.

Definition is_component_call (ev : event) : bool :=
  match ev with
  | Called _ => true
  | _ => false
  end.

(** Atomize, attribute, classify, the transcript write, the analysis
    write. *)
Definition is_processing (ev : event) : bool :=
  is_component_call ev || is_classification ev || is_batch_write ev
  || is_analysis_write ev.

Definition skipped_duplicate : pydict :=
  list_to_map [ ("status", VStr "skipped"); ("reason", VStr "duplicate") ].

(** The text begins with a character of the class [p]. *)
Definition begins_with (p : ascii -> bool) (s : string) : bool :=
  match s with
  | EmptyString => false
  | String c _ => p c
  end.

(** The atom, one quote level deeper. *)
Definition deepen (a : Atom) : Atom :=
  match a !! "quoteDepth" with
  | Some (VInt k) => <["quoteDepth" := VInt (k + 1)]> a
  | _ => a
  end.

(** Two walks, from [w] and from [w'], that raise the same exception or
    add the same atoms, the second one level deeper, and move the counter
    alike. *)
Definition deeper_run (r r' : result walk) (w w' : walk) : Prop :=
  match r, r' with
  | Return v, Return v' =>
      sequence_index v = sequence_index v'
      /\ exists new,
           atoms v = atoms w ++ new /\ atoms v' = atoms w' ++ (deepen <$> new)
  | Raise e, Raise e' => e = e'
  | _, _ => False
  end.

(** The depth and the content the plain-text path stores for a trimmed
    sentence. *)
Definition plain_depth (t : string) : nat :=
  if Str.startswith ">" t then Str.count ">" t else 0.

Definition plain_content (t : string) : string :=
  if Str.startswith ">" t then Str.strip (Str.lstrip_chars "> " t) else t.

(** The atoms of a list are stamped with the indices from [base] on. *)
Definition indexed_from (base : nat) (l : list Atom) : Prop :=
  forall j a, l !! j = Some a -> has_int a "sequenceIndex" (Z.of_nat (base + j)).

(** The content of an atom is trimmed and its stored hash is the digest of
    the lowercased content. *)
Definition hashed_trimmed `{Hashing} (a : Atom) : Prop :=
  exists content,
    has_str a "content" content
    /\ Str.strip content = content
    /\ has_str a "normalizedHash" (sha256_hex (Str.lower content)).

(** The sentinel of the quoted party that is still to be resolved; the
    code writes the literal. *)
Definition UNRESOLVED_QUOTED_PARTY : string := "Quoted_Party".

(** The visualStyle of the atom (the text of the empty dict when the key
    is missing) is the JSON text of the style dict [d]. *)
Definition parses_as `{JsonCodec} (atom : Atom) (d : list (string * string))
    : Prop :=
  json_loads (dict_get atom "visualStyle" (VStr "{}")) = Return (style_doc d).

(** A colour whose text contains red, a bold weight or an uppercase
    transform. *)
Definition aggressive (d : list (string * string)) : bool :=
  shows_red d || shows_bold d || shows_uppercase d.

Definition assigned (atom' : Atom) (author : value) (method : string) : Prop :=
  atom' !! "attributedTo" = Some author
  /\ has_str atom' "attributionMethod" method.

(** The policy table, for an atom and what the engine made of it. *)
Definition follows_policy (sender_email : option string)
    (d : list (string * string)) (atom atom' : Atom) : Prop :=
  let depth := dict_get atom "quoteDepth" (VInt 0) in
  (depth = VInt 0 -> assigned atom' (of_opt sender_email) "HEADER_DEPTH_0")
  /\ (forall n, depth = VInt n -> (0 < n)%Z -> aggressive d = true ->
        assigned atom' (of_opt sender_email) "STYLE_INFERENCE_INTERJECTION")
  /\ (forall n, depth = VInt n -> (0 < n)%Z -> aggressive d = false ->
        assigned atom' (VStr UNRESOLVED_QUOTED_PARTY) "QUOTE_DEPTH").

(** The exception a call raised, if it did. *)
Definition raised {A : Type} (r : result A) : option exn :=
  match r with
  | Raise e => Some e
  | Return _ => None
  end.

(** No message creation and none of atomize, attribute, classify, the
    transcript write and the analysis write. *)
Definition before_gate (ev : event) : Prop :=
  is_create ev = false /\ is_processing ev = false.

(** What a run that saw its message creation raise looks like: it
    returned "skipped", and after the creation it only wrote one log
    line. *)
Definition skip_outcome (r : result pydict) (evs : list event) : Prop :=
  forall message_data reply e,
    Requested (POST_message_create message_data) reply ∈ evs ->
    _request reply = Raise e ->
    r = Return skipped_duplicate
    /\ exists before log_reply,
         evs = before
               ++ [ Requested (POST_message_create message_data) reply;
                    Requested (POST_log "INFO" "process_message") log_reply ]
         /\ Forall before_gate before.

(** Neither a transcript write nor an analysis write. *)
Definition no_write (ev : event) : Prop :=
  is_batch_write ev = false /\ is_analysis_write ev = false.

(** What a run looks like from its two writes: a write whose call raised
    ended the run with that exception (and after a failed transcript
    write no analysis write was sent); each write was sent at most once;
    and a run that returned reports "success" or "skipped". *)
Definition persistence_outcome (r : result pydict) (evs : list event) : Prop :=
  (forall transcripts reply e,
      Requested (POST_transcripts_batch transcripts) reply ∈ evs ->
      _request reply = Raise e ->
      r = Raise e /\ Forall (fun ev => is_analysis_write ev = false) evs)
  /\ (forall message_id stats score session reply e,
        Requested (POST_update_analysis message_id stats score session) reply ∈ evs ->
        _request reply = Raise e ->
        r = Raise e)
  /\ length (List.filter is_batch_write evs) <= 1
  /\ length (List.filter is_analysis_write evs) <= 1
  /\ (forall status_dict,
        r = Return status_dict ->
        has_str status_dict "status" "success"
        \/ has_str status_dict "status" "skipped").

Section Notions.

Context {hashing : Hashing} {segmenter : Segmenter} {parser : HtmlParser}
        {codec : JsonCodec} {outside : Outside}.

(** The atoms a walk adds from index [base] on, at depth [d] or deeper:
    the [j]-th of them is the dict of a trimmed, non-empty sentence,
    stamped with index [base + j]. *)
Definition emitted (message_id : option string) (base d : nat)
    (new : list Atom) : Prop :=
  forall j a, new !! j = Some a ->
    exists sent_text depth sty,
      a = html_atom message_id sent_text (base + j) depth sty
      /\ d <= depth
      /\ Str.strip sent_text = sent_text
      /\ Str.nonempty sent_text = true.

(** What a walk leaves: the atoms it had, then the new ones, and the
    counter moved by their number. *)
Definition extends (message_id : option string) (d : nat) (w w' : walk)
    : Prop :=
  exists new,
    atoms w' = atoms w ++ new
    /\ sequence_index w' = sequence_index w + length new
    /\ emitted message_id (sequence_index w) d new.

(** The atoms the plain-text loop adds, without the accumulator. *)
Fixpoint plain_new (message_id sender_email : option string) (i : nat)
    (sentences : list string) : list Atom :=
  match sentences with
  | [] => []
  | s :: rest =>
      if Str.nonempty (Str.strip s) then
        plain_atom message_id (plain_content (Str.strip s)) i
          (plain_depth (Str.strip s)) sender_email
        :: plain_new message_id sender_email (S i) rest
      else plain_new message_id sender_email (S i) rest
  end.

(** Every event of every run of a step is in the class [P]. *)
Definition quiet {A : Type} (P : event -> Prop) (m : Pipe A) : Prop :=
  forall w, Forall P (m w).2.

(** Every run of a step ends in a result and a list of events that
    [Phi] relates. *)
Definition run_sat {A : Type} (Phi : result A -> list event -> Prop)
    (m : Pipe A) : Prop :=
  forall w, Phi (m w).1.1 (m w).2.

(** [Phi] holds of a run that raised after events of the class [P] only,
    and is kept when events of the class [P] come first. *)
Definition closed_under {A : Type} (P : event -> Prop)
    (Phi : result A -> list event -> Prop) : Prop :=
  (forall e evs, Forall P evs -> Phi (Raise e) evs)
  /\ (forall r pre evs, Forall P pre -> Phi r evs -> Phi r (pre ++ evs)).

(** The classes of events that let the log lines, the monitor events and
    the Gmail fetch through. *)
Definition lets_prelude (P : event -> Prop) : Prop :=
  (forall type step_name reply, P (Requested (POST_log type step_name) reply))
  /\ (forall event_type, P (Emitted event_type))
  /\ (forall message_id, P (GmailFetch message_id)).

(** Every run of a step takes the outside to a state related by [R]. *)
Definition keeps {A : Type} (R : World -> World -> Prop) (m : Pipe A) : Prop :=
  forall w, R w (m w).1.2.

End Notions.

(** The Worker never forgets a message record. *)
Definition remembers (b b' : backend) : Prop :=
  forall message_id, message_id ∈ message_ids b -> message_id ∈ message_ids b'.

(** A step that returns, leaves the backend as it is and stays before the
    gate. *)
Definition steady_on (script : backend -> request -> option http_reply)
    (gmail_block : backend -> option string -> content -> content * gmail_outcome)
    {A : Type} (m : @Pipe (backend_outside script gmail_block) A) : Prop :=
  forall b : backend,
    exists a evs, m b = (Return a, b, evs) /\ Forall before_gate evs.

(** ** Further notions and code

    The notions of the further properties, and the code they reach
    beyond the core: the console capture of
    forensics/remote_worker_api.py, [run_pipeline] and
    [run_regulatory_verification] of forensics/pipeline.py, and the
    monitor of forensics/api.py that [_emit] broadcasts to. *)

(** A tree without text: every text node is blank. *)
Fixpoint no_text (n : node) : bool :=
  match n with
  | Tag _ _ children => forallb no_text children
  | NavigableString text => negb (Str.nonempty (Str.strip text))
  end.

(** The accumulated style of a node has a colour whose text contains
    red, a bold weight or an uppercase transform. *)
Definition aggressive_style (node_style : style) : bool :=
  match node_style !! "color" with
  | Some c => Str.contains "red" c
  | None => false
  end
  || bool_decide (node_style !! "font_weight" = Some "bold")
  || bool_decide (node_style !! "text_transform" = Some "uppercase").

(** The style [st'] of a node, against the style [st] it started from:
    the keys of [st] are still there, no key but color, font_weight and
    text_transform has changed, and the last two have only been written
    with bold and uppercase. *)
Definition style_grows (st st' : style) : Prop :=
  (forall k v, st !! k = Some v -> exists v', st' !! k = Some v')
  /\ (forall k : string,
        k <> "color" -> k <> "font_weight" -> k <> "text_transform" ->
        st' !! k = st !! k)
  /\ (forall v,
        st' !! "font_weight" = Some v ->
        v = "bold" \/ st !! "font_weight" = Some v)
  /\ (forall v,
        st' !! "text_transform" = Some v ->
        v = "uppercase" \/ st !! "text_transform" = Some v).

(** A codec for runs on concrete inputs that reads back the style dicts
    it writes: a dict of str values is written with each character of a
    key behind a [k], each character of a value behind a [v] and a [;]
    after each pair, between braces, so that the empty dict is written
    as its JSON text.  It knows no other document. *)
Fixpoint write_chars (tag : ascii) (s : string) : string :=
  match s with
  | EmptyString => EmptyString
  | String c s' => String tag (String c (write_chars tag s'))
  end.

Fixpoint write_fields (fields : list (string * value)) : string :=
  match fields with
  | [] => "}"
  | (k, VStr v) :: rest =>
      String.append (write_chars "k" k)
        (String.append (write_chars "v" v) (String ";" (write_fields rest)))
  | _ :: _ => "?"
  end.

Fixpoint read_fields (s k v : string) (acc : list (string * value))
    : option value :=
  match s with
  | String "k" (String c rest) =>
      read_fields rest (String.append k (String c EmptyString)) v acc
  | String "v" (String c rest) =>
      read_fields rest k (String.append v (String c EmptyString)) acc
  | String ";" rest => read_fields rest "" "" (acc ++ [(k, VStr v)])
  | String "}" EmptyString => Some (VDict acc)
  | _ => None
  end.

Definition tagged_codec : JsonCodec :=
  {| json_dumps := fun doc =>
       match doc with
       | VDict fields => String "{" (write_fields fields)
       | _ => "null"
       end;
     json_parse := fun s =>
       match s with
       | String "{" rest => read_fields rest "" "" []
       | _ => None
       end |}.

(** A fetch of the raw message from Gmail. *)
Definition is_gmail_fetch (ev : event) : bool :=
  match ev with
  | GmailFetch _ => true
  | _ => false
  end.

(** The content [process_message] starts from, before any Gmail fetch. *)
Definition payload_content (message_payload : payload) : content :=
  Content (headers message_payload) (body message_payload)
    (htmlBody message_payload).

(** Lines 178: the payload has no body and a service account is
    configured. *)
Definition needs_fetch (self : ACREPipeline) (message_payload : payload) : bool :=
  negb (truthy_opt (body message_payload))
  && truthy_opt (gcp_service_account self).

(** The requests that write to the Worker's store: the creation of the
    message record, the transcript batch and the analysis summary. *)
Definition is_persistence (req : request) : bool :=
  match req with
  | POST_message_create _ | POST_transcripts_batch _
  | POST_update_analysis _ _ _ _ => true
  | POST_log _ _ | POST_agent_run _ _ _ _ => false
  end.

(** The keys [process_message] reads with a subscript when it builds a
    transcript (lines 293-301). *)
Definition transcript_keys : list string :=
  [ "id"; "messageId"; "content"; "normalizedHash"; "sequenceIndex";
    "quoteDepth"; "visualStyle"; "attributedTo"; "attributionMethod" ].

(** The atom [a'] is the atom [a], or [a] with its labels written. *)
Definition only_labels (a a' : Atom) : Prop :=
  a' = a \/ exists labels, a' = <["labels" := labels]> a.

(** The dict a successful run returns (line 325). *)
Definition success_status (n : nat) : pydict :=
  list_to_map [ ("status", VStr "success"); ("atoms", VInt (Z.of_nat n)) ].

(** A Worker that refuses every request as unauthorized. *)
Definition unauthorized (req : request) : http_reply := Reply 401 None.

(** ** forensics/remote_worker_api.py: [OutputDup]

    The stream wrapper that [WorkerLogger.enable_console_capture]
    installs: what it has handed to the original stream, what it has
    handed to [logger_func] (the logger's [info] or [error], which
    swallow their exceptions), and its buffer. *)
Record OutputDup : Type := {
  original_stream : list string;
  logged : list string;
  buffer : string
}.

Definition newline : ascii := "010"%char.

(** [s.split(sep)] for a separator of one character: the pieces between
    the separators, one more than there are separators. *)
Fixpoint split_on (sep : ascii) (s : string) : list string :=
  match s with
  | EmptyString => [EmptyString]
  | String c s' =>
      if Ascii.eqb c sep then EmptyString :: split_on sep s'
      else
        match split_on sep s' with
        | piece :: pieces => String c piece :: pieces
        | [] => [String c EmptyString]
        end
  end.

(** [OutputDup.write] *)
Definition write (self : OutputDup) (message : string) : OutputDup :=
  let stream := original_stream self ++ [message] in
  let buf := String.append (buffer self) message in
  if Str.contains (String newline EmptyString) buf then
    let lines := split_on newline buf in
    {| original_stream := stream;
       logged := logged self
                 ++ List.filter (fun line => Str.nonempty (Str.strip line))
                      (removelast lines);
       buffer := List.last lines EmptyString |}
  else
    {| original_stream := stream; logged := logged self; buffer := buf |}.

(** [OutputDup.flush] *)
Definition flush (self : OutputDup) : OutputDup :=
  if Str.nonempty (Str.strip (buffer self)) then
    {| original_stream := original_stream self;
       logged := logged self ++ [buffer self];
       buffer := EmptyString |}
  else self.

(** A text without a line break. *)
Definition one_line (s : string) : Prop :=
  Str.contains (String newline EmptyString) s = false.

(** ** forensics/pipeline.py: [run_pipeline]

    The dict that [GmailCollector._fetch_single_message_sync] returns for
    a message it could fetch and parse (forensics/gmail_collector.py,
    lines 146-156); it has no key id. *)
Record email_data : Type := EmailData {
  e_messageId : option string;
  e_threadId : option string;
  e_headers : gmap string string;
  e_fromAddress : option string;
  e_toAddress : option string;
  e_subject : option string;
  e_sentDate : option string;
  e_bodyPlain : string;
  e_bodyHtml : string
}.

(** The Gmail collector as [run_pipeline] uses it: its construction,
    which may raise, the listing of the message ids of a query, and the
    fetch of one message, [None] when the message could not be fetched or
    parsed.  The collector logs through the logger of the pipeline. *)
Class GmailCollector {outside : Outside} : Type := {
  collector : Type;
  new_collector : option string -> Pipe collector;
  list_message_ids : collector -> string -> Pipe (list string);
  _fetch_single_message_sync : collector -> string -> Pipe (option email_data)
}.

(** Lines 345-351: the Gmail query of a domain. *)
Definition query_of (gmail_domain : option string) : string :=
  if truthy_opt gmail_domain then
    let d := default "" gmail_domain in
    if Str.contains " " d || Str.contains ":" d then d
    else String.append "from:" (String.append d (String.append " OR to:" d))
  else "mrroofing.net".

(** Lines 390-399: the payload handed to [process_message]; the thread
    id falls back on the key id, which the dict does not have, only when
    the key threadId is missing, which it is not. *)
Definition payload_of (d : email_data) : payload :=
  {| messageId := e_messageId d;
     threadId := e_threadId d;
     headers := e_headers d;
     body := Some (e_bodyPlain d);
     htmlBody := Some (e_bodyHtml d) |}.

Section RunPipeline.

Context {hashing : Hashing} {segmenter : Segmenter} {parser : HtmlParser}
        {codec : JsonCodec} {outside : Outside} {gmail_collector : GmailCollector}.

(** Lines 403-431: the body of the loop, on the two counters. *)
Definition ingest (self : ACREPipeline) (d : email_data) (counts : nat * nat)
    : Pipe (nat * nat) :=
  let '(processed_count, skipped_count) := counts in
  pbind
    (attempt
       (pbind (_emit self "ingest_progress") (fun _ =>
        pbind (process_message self (payload_of d)) (fun res =>
        if eq_str (dict_get res "status" VNone) "skipped" then
          pbind (_emit self "ingest_skip") (fun _ =>
          ret (processed_count, S skipped_count))
        else ret (S processed_count, skipped_count)))))
    (fun r =>
       match r with
       | Return counts' => ret counts'
       | Raise e =>
           pbind (error "run_pipeline") (fun _ =>
           ret (processed_count, skipped_count))
       end).

(** [collector.fetch_messages] (gmail_collector.py, lines 98-109) with the
    body of the [async for] run on each message it yields. *)
Fixpoint fetch_messages (self : ACREPipeline) (c : collector)
    (message_ids : list string) (counts : nat * nat) : Pipe (nat * nat) :=
  match message_ids with
  | [] => ret counts
  | msg_id :: rest =>
      pbind (attempt (_fetch_single_message_sync c msg_id)) (fun r =>
        match r with
        | Raise e =>
            pbind (error "GmailCollector") (fun _ =>
            fetch_messages self c rest counts)
        | Return None => fetch_messages self c rest counts
        | Return (Some d) =>
            pbind (ingest self d counts) (fun counts' =>
            fetch_messages self c rest counts')
        end)
  end.

(** [run_pipeline], called with the engagement id the pipeline was built
    with. *)
Definition run_pipeline (self : ACREPipeline) (gmail_domain : option string)
    : Pipe value :=
  let query := query_of gmail_domain in
  pbind (info "run_pipeline") (fun _ =>
  pbind (attempt (new_collector (gcp_service_account self))) (fun r =>
    match r with
    | Raise e =>
        pbind (error "run_pipeline") (fun _ =>
        pbind (_emit self "error") (fun _ =>
        ret (VList [])))
    | Return c =>
        pbind (info "run_pipeline") (fun _ =>
        pbind (list_message_ids c query) (fun message_ids =>
        pbind (_emit self "pipeline_start") (fun _ =>
        pbind (fetch_messages self c message_ids (0, 0)) (fun counts =>
        pbind (_emit self "pipeline_complete") (fun _ =>
        ret (VDict [ ("processed", VInt (Z.of_nat counts.1));
                     ("skipped", VInt (Z.of_nat counts.2)) ]))))))
    end)).

End RunPipeline.

(** A collector over a mailbox that is fixed: it comes up, lists the ids
    of the mailbox for every query, and fetches each message of it. *)
Definition fixed_mailbox {outside : Outside}
    (mailbox : list (string * email_data)) : GmailCollector :=
  {| collector := unit;
     new_collector := fun _ => ret tt;
     list_message_ids := fun _ _ => ret (mailbox.*1);
     _fetch_single_message_sync := fun _ msg_id =>
       ret (snd <$> List.find (fun kv => String.eqb kv.1 msg_id) mailbox) |}.

(** ** forensics/api.py: [PipelineMonitor]

    The monitor that [_emit] broadcasts to.  Its stats: *)
Record monitor_stats : Type := MonitorStats {
  queued : Z;
  in_process : Z;
  completed : Z;
  threats : Z;
  recent_logs : list string
}.

(** [int(s)] for a str, [None] when it raises, and [str(x)] for a list or
    a dict. *)
Class Builtins : Type := {
  int_of_str : string -> option Z;
  repr : value -> string
}.

(** What sending a message to one connection does: it goes through, or
    [send_json] raises a RuntimeError (the connection is closed), or the
    sanitization or the send raises something else. *)
Inductive send_outcome : Type :=
  | Sent
  | SendRuntimeError
  | SendFailed.

Section Monitor.

Context {builtins : Builtins}.

(** [int(x)], [None] when it raises *)
Definition py_int (x : value) : option Z :=
  match x with
  | VInt n => Some n
  | VBool b => Some (if b then 1 else 0)%Z
  | VStr s => int_of_str s
  | VNone | VList _ | VDict _ => None
  end.

(** [str(x)] *)
Definition py_str (x : value) : string :=
  match x with
  | VStr s => s
  | VInt n => pretty n
  | VBool b => if b then "True" else "False"
  | VNone => "None"
  | VList _ | VDict _ => repr x
  end.

(** Lines 204-212 of [broadcast]: the counters, [None] when the block
    raises; nothing is assigned before an exception. *)
Definition count_message (stats : monitor_stats) (message : pydict)
    : option monitor_stats :=
  let msg_type := dict_get message "type" VNone in
  if eq_str msg_type "ingest_start" then
    match py_int (dict_get message "count" (VInt 0)) with
    | Some n =>
        Some (MonitorStats (queued stats + n) (in_process stats)
                (completed stats) (threats stats) (recent_logs stats))
    | None => None
    end
  else if eq_str msg_type "step_start" then
    Some (MonitorStats (queued stats) 1 (completed stats) (threats stats)
            (recent_logs stats))
  else if eq_str msg_type "step_complete"
          && eq_str (dict_get message "step" VNone) "Pipeline" then
    Some (MonitorStats (queued stats) 0 (completed stats + 1) (threats stats)
            (recent_logs stats))
  else if eq_str msg_type "decision_made" then
    match dict_get message "label" (VDict []) with
    | VDict fields =>
        if eq_str (default VNone (obj_lookup "intent" fields)) "Phishing"
        then Some (MonitorStats (queued stats) (in_process stats)
                     (completed stats) (threats stats + 1) (recent_logs stats))
        else Some stats
    | _ => None
    end
  else Some stats.

(** Lines 214-218: the log line, newest first, fifty at most. *)
Definition log_message (stats : monitor_stats) (message : pydict)
    : monitor_stats :=
  match message !! "log" with
  | Some log =>
      MonitorStats (queued stats) (in_process stats) (completed stats)
        (threats stats) (take 50 (py_str log :: recent_logs stats))
  | None => stats
  end.

(** Step 1 of [broadcast], with its [except] clause. *)
Definition update_stats (stats : monitor_stats) (message : pydict)
    : monitor_stats :=
  match count_message stats message with
  | Some stats' => log_message stats' message
  | None => stats
  end.

(** [disconnect]: the first occurrence of the connection is removed. *)
Fixpoint disconnect (websocket : nat) (active_connections : list nat)
    : list nat :=
  match active_connections with
  | [] => []
  | c :: rest =>
      if (c =? websocket)%nat then rest else c :: disconnect websocket rest
  end.

(** Step 2 of [broadcast]: the loop over a copy of the connections. *)
Fixpoint send_to_all (send : nat -> send_outcome) (snapshot : list nat)
    (active_connections : list nat) : list nat :=
  match snapshot with
  | [] => active_connections
  | connection :: rest =>
      match send connection with
      | SendRuntimeError =>
          send_to_all send rest (disconnect connection active_connections)
      | Sent | SendFailed => send_to_all send rest active_connections
      end
  end.

(** [broadcast] on the stats and the connections. *)
Definition broadcast (send : nat -> send_outcome)
    (monitor_state : monitor_stats * list nat) (message : pydict)
    : monitor_stats * list nat :=
  (update_stats monitor_state.1 message,
   send_to_all send monitor_state.2 monitor_state.2).

(** The message [_emit] builds (pipeline.py, line 88). *)
Definition emit_payload (event_type : string) (data : pydict) : pydict :=
  data ∪ <["timestamp" := VStr "now"]> {["type" := VStr event_type]}.

End Monitor.

(** [int] and [str] for runs on concrete inputs: no str is a number, and
    a list or a dict prints as three dots. *)
Definition no_numbers : Builtins :=
  {| int_of_str := fun _ => None; repr := fun _ => "..." |}.

(** ** forensics/pipeline.py: [run_regulatory_verification]

    The regular expression of the contractor licence: [lic], then an
    optional [ense], an optional dot, whitespace, an optional [#] or [no]
    with an optional dot, whitespace, and a group of six digits or more.
    No optional part can be skipped when it is there, and no whitespace
    left over, for the digits to follow; so the leftmost match is found
    by taking every part that is there. *)
Module ReLicense.

Definition is_digit (c : ascii) : bool :=
  ((48 <=? Str.code c) && (Str.code c <=? 57))%nat.

Definition match_at (s : string) : option string :=
  if String.prefix "lic" s then
    let r := Re.drop 3 s in
    let r := if String.prefix "ense" r then Re.drop 4 r else r in
    let r := match r with String "." r' => r' | _ => r end in
    let r := Str.lstrip_by Str.isspace r in
    let r :=
      match r with
      | String "#" r' => r'
      | String "n" (String "o" r') =>
          match r' with String "." r'' => r'' | _ => r' end
      | _ => r
      end in
    let r := Str.lstrip_by Str.isspace r in
    let digits := Re.take_while is_digit r in
    if (6 <=? String.length digits)%nat then Some digits else None
  else None.

Fixpoint search (s : string) : option string :=
  match match_at s with
  | Some g => Some g
  | None =>
      match s with
      | EmptyString => None
      | String _ s' => search s'
      end
  end.

End ReLicense.

(** The regulatory agents of agents/regulatory.py, each a call of the
    Worker's agent endpoint that returns the result of the answer, and
    [str(e)] for an exception. *)
Class RegulatoryAgents {outside : Outside} : Type := {
  lookup_contractor_history : string -> Pipe value;
  search_ca_code : string -> Pipe value;
  search_sf_code : string -> Pipe value;
  str_of_exception : exn -> string
}.

Section Regulatory.

Context {outside : Outside} {agents : RegulatoryAgents}.

(** [x or dflt] for an optional str *)
Definition or_else (x : option string) (dflt : string) : string :=
  if truthy_opt x then default "" x else dflt.

(** One agent call in its [try], with the entry it leaves in [results]. *)
Definition guarded (call : Pipe value) (entry : value -> value) : Pipe value :=
  pbind (attempt call) (fun r =>
    match r with
    | Return v => ret (entry v)
    | Raise e => ret (VDict [("error", VStr (str_of_exception e))])
    end).

Definition run_regulatory_verification (body subject : option string)
    : Pipe pydict :=
  let results : pydict := ∅ in
  let content :=
    String.append (or_else body "") (String.append " " (or_else subject "")) in
  let content_lower := Str.lower content in
  pbind
    match ReLicense.search content_lower with
    | Some license_number =>
        pbind (info "verify_context") (fun _ =>
        pbind (guarded (lookup_contractor_history license_number)
                 (fun history =>
                    VDict [("license", VStr license_number); ("result", history)]))
          (fun entry => ret (<["sf_dbi_contractor" := entry]> results)))
    | None => ret results
    end (fun results =>
  pbind
    (if Str.contains "permit" content_lower
        && (Str.contains "san francisco" content_lower
            || Str.contains "sf" content_lower)
     then
       pbind (info "verify_context") (fun _ =>
       ret (<["sf_dbi_permit_check" :=
               VStr "Triggered but address extraction not implemented yet."]>
              results))
     else ret results) (fun results =>
  pbind
    (if Str.contains "title 24" content_lower
        || Str.contains "california building code" content_lower
     then
       pbind (info "verify_context") (fun _ =>
       pbind (guarded (search_ca_code (or_else subject "General Code Inquiry"))
                (fun regs => regs))
         (fun entry => ret (<["ca_regs_search" := entry]> results)))
     else ret results) (fun results =>
  if Str.contains "sf code" content_lower
     || Str.contains "san francisco building code" content_lower
  then
    pbind (info "verify_context") (fun _ =>
    pbind (guarded (search_sf_code (or_else subject "General SF Code Inquiry"))
             (fun regs => regs))
      (fun entry => ret (<["sf_regs_search" := entry]> results)))
  else ret results))).

End Regulatory.

(** Agents that cannot be reached, for runs on concrete inputs. *)
Definition agents_down {outside : Outside} : RegulatoryAgents :=
  {| lookup_contractor_history := fun _ => raise ConnectionError;
     search_ca_code := fun _ => raise ConnectionError;
     search_sf_code := fun _ => raise ConnectionError;
     str_of_exception := fun _ => "unreachable" |}.

(** * Properties *)

(** ** Facts on the str methods *)

Lemma isspace_lower_char (c : ascii) :
  Str.isspace (Str.lower_char c) = Str.isspace c.
Proof. destruct c as [[] [] [] [] [] [] [] []]; reflexivity. Qed.

Lemma lower_char_is_space (c : ascii) :
  Ascii.eqb (Str.lower_char c) " " = Ascii.eqb c " ".
Proof. destruct c as [[] [] [] [] [] [] [] []]; reflexivity. Qed.

Lemma isspace_space : Str.isspace " " = true.
Proof. reflexivity. Qed.

Lemma lstrip_lower (s : string) :
  Str.lstrip_by Str.isspace (Str.lower s) = Str.lower (Str.lstrip_by Str.isspace s).
Proof.
  induction s as [|c s IH]; simpl; [reflexivity|].
  rewrite isspace_lower_char. destruct (Str.isspace c); [exact IH | reflexivity].
Qed.

Lemma lower_empty (s : string) : Str.lower s = "" -> s = "".
Proof. destruct s; [reflexivity | discriminate]. Qed.

Lemma rstrip_lower (s : string) :
  Str.rstrip_by Str.isspace (Str.lower s) = Str.lower (Str.rstrip_by Str.isspace s).
Proof.
  induction s as [|c s IH]; simpl; [reflexivity|].
  rewrite IH, isspace_lower_char.
  destruct (Str.rstrip_by Str.isspace s) as [|d r]; simpl;
    [destruct (Str.isspace c) |]; reflexivity.
Qed.

Lemma strip_lower (s : string) : Str.strip (Str.lower s) = Str.lower (Str.strip s).
Proof. unfold Str.strip, Str.strip_by. now rewrite lstrip_lower, rstrip_lower. Qed.

Lemma lstrip_begins (p : ascii -> bool) (s : string) :
  begins_with p (Str.lstrip_by p s) = false.
Proof.
  induction s as [|c s IH]; simpl; [reflexivity|].
  destruct (p c) eqn:E; [exact IH | simpl; exact E].
Qed.

Lemma lstrip_fixed (p : ascii -> bool) (s : string) :
  begins_with p s = false -> Str.lstrip_by p s = s.
Proof. destruct s as [|c s]; simpl; [reflexivity|]. now intros ->. Qed.

Lemma rstrip_begins (p : ascii -> bool) (s : string) :
  begins_with p s = false -> begins_with p (Str.rstrip_by p s) = false.
Proof.
  destruct s as [|c s]; simpl; [reflexivity|]. intros E.
  destruct (Str.rstrip_by p s); simpl; rewrite ?E; simpl; rewrite ?E; reflexivity.
Qed.

Lemma rstrip_idem (p : ascii -> bool) (s : string) :
  Str.rstrip_by p (Str.rstrip_by p s) = Str.rstrip_by p s.
Proof.
  induction s as [|c s IH]; simpl; [reflexivity|].
  destruct (Str.rstrip_by p s) as [|d r] eqn:E.
  - destruct (p c) eqn:Ec; simpl; [reflexivity | now rewrite Ec].
  - simpl in *. now rewrite IH.
Qed.

Lemma strip_by_idem (p : ascii -> bool) (s : string) :
  Str.strip_by p (Str.strip_by p s) = Str.strip_by p s.
Proof.
  unfold Str.strip_by.
  rewrite (lstrip_fixed p (Str.rstrip_by p _)).
  - apply rstrip_idem.
  - apply rstrip_begins, lstrip_begins.
Qed.

Lemma strip_idem (s : string) : Str.strip (Str.strip s) = Str.strip s.
Proof. apply strip_by_idem. Qed.

(** ** [" ".join(s.split())] is the trimmed, whitespace-collapsed text *)

Lemma join_cons_char (c : ascii) (w : string) (ws : list string) :
  Str.join " " (String c w :: ws) = String c (Str.join " " (w :: ws)).
Proof. unfold Str.join. destruct ws; reflexivity. Qed.

Lemma join_cons (w : string) (ws : list string) :
  Str.join " " (w :: ws) =
  match ws with
  | [] => w
  | _ => String.append w (String " " (Str.join " " ws))
  end.
Proof. unfold Str.join. destruct ws; reflexivity. Qed.

(** A text that begins with a character that is not whitespace has a
    first word. *)
Lemma split_nonempty (s : string) :
  Str.nonempty s = true -> begins_with Str.isspace s = false ->
  exists c w ws, Str.split s = String c w :: ws.
Proof.
  destruct s as [|c s]; [discriminate|]. simpl. intros _ E. rewrite E.
  destruct s as [|c' s]; [now eexists _, _, _|].
  destruct (Str.isspace c'); [now eexists _, _, _|].
  destruct (Str.split (String c' s)); now eexists _, _, _.
Qed.

Lemma split_lstrip (s : string) :
  Str.split (Str.lstrip_by Str.isspace s) = Str.split s.
Proof.
  induction s as [|c s IH]; [reflexivity|].
  cbn [Str.lstrip_by]. destruct (Str.isspace c) eqn:E.
  - rewrite IH. simpl. now rewrite E.
  - reflexivity.
Qed.

Lemma collapse_lstrip (s : string) :
  Str.lstrip_by Str.isspace (collapse_whitespace s)
  = collapse_whitespace (Str.lstrip_by Str.isspace s).
Proof.
  induction s as [|c s IH]; [reflexivity|].
  cbn [collapse_whitespace Str.lstrip_by]. destruct (Str.isspace c) eqn:E.
  - destruct s as [|c' s]; [reflexivity|].
    destruct (Str.isspace c') eqn:E'; [exact IH|].
    cbn [Str.lstrip_by]. rewrite isspace_space. exact IH.
  - cbn [Str.lstrip_by collapse_whitespace]. now rewrite !E.
Qed.

(** The right-trimmed collapsed text, by the words of the text. *)
Lemma rstrip_collapse (s : string) :
  Str.rstrip_by Str.isspace (collapse_whitespace s)
  = match Str.split s with
    | [] => ""
    | ws => if begins_with Str.isspace s
            then String " " (Str.join " " ws) else Str.join " " ws
    end.
Proof.
  induction s as [|c s IH]; [reflexivity|].
  cbn [collapse_whitespace Str.split begins_with].
  destruct (Str.isspace c) eqn:E.
  - destruct s as [|c' s]; [reflexivity|].
    destruct (Str.isspace c') eqn:E'.
    + rewrite IH. cbn [begins_with]. now rewrite E'.
    + cbn [Str.rstrip_by]. rewrite IH. cbn [begins_with]. rewrite E'.
      destruct (split_nonempty (String c' s) eq_refl E') as (d & w & ws & ->).
      rewrite join_cons_char. reflexivity.
  - cbn [Str.rstrip_by]. rewrite E, IH.
    destruct s as [|c' s]; [reflexivity|].
    cbn [begins_with]. destruct (Str.isspace c') eqn:E'.
    + destruct (Str.split (String c' s)) as [|w ws]; [reflexivity|].
      rewrite (join_cons (String c "")). reflexivity.
    + destruct (split_nonempty (String c' s) eq_refl E') as (d & w & ws & ->).
      rewrite !join_cons_char. reflexivity.
Qed.

Lemma join_split_collapse (s : string) :
  Str.join " " (Str.split s) = Str.strip (collapse_whitespace s).
Proof.
  unfold Str.strip, Str.strip_by.
  rewrite collapse_lstrip, rstrip_collapse, split_lstrip, lstrip_begins.
  destruct (Str.split s); reflexivity.
Qed.

(** ** Texts on which normalizing changes nothing but the case *)

Lemma single_spaced_tail (c : ascii) (s : string) :
  single_spaced (String c s) = true -> single_spaced s = true.
Proof. cbn [single_spaced]. intros E. now apply andb_true_iff in E. Qed.

Lemma single_spaced_cons (c : ascii) (s : string) :
  single_spaced (String c s)
  = (if Str.isspace c
     then Ascii.eqb c " " && negb (begins_with Str.isspace s) else true)
    && single_spaced s.
Proof. destruct s; reflexivity. Qed.

Lemma collapse_begins (s : string) :
  begins_with Str.isspace s = false ->
  begins_with Str.isspace (collapse_whitespace s) = false.
Proof.
  destruct s as [|c s]; [reflexivity|]. cbn [begins_with collapse_whitespace].
  intros E. rewrite E. exact E.
Qed.

Lemma single_spaced_collapse (s : string) :
  single_spaced (collapse_whitespace s) = true.
Proof.
  induction s as [|c s IH]; [reflexivity|]. cbn [collapse_whitespace].
  destruct (Str.isspace c) eqn:E.
  - destruct s as [|c' s]; [reflexivity|].
    destruct (Str.isspace c') eqn:E'; [exact IH|].
    cbn [single_spaced]. rewrite isspace_space, IH.
    pose proof (collapse_begins (String c' s) E') as Hb.
    destruct (collapse_whitespace (String c' s)); [reflexivity|].
    cbn [begins_with] in Hb. now rewrite Hb.
  - cbn [single_spaced]. now rewrite E, IH.
Qed.

Lemma single_spaced_lstrip (s : string) :
  single_spaced s = true -> single_spaced (Str.lstrip_by Str.isspace s) = true.
Proof.
  induction s as [|c s IH]; [reflexivity|]. intros Hs. cbn [Str.lstrip_by].
  destruct (Str.isspace c); [|exact Hs].
  apply IH. eapply single_spaced_tail, Hs.
Qed.

Lemma rstrip_head (p : ascii -> bool) (s : string) (d : ascii) (r : string) :
  Str.rstrip_by p s = String d r -> exists s', s = String d s'.
Proof.
  destruct s as [|c s]; [discriminate|]. cbn [Str.rstrip_by].
  destruct (Str.rstrip_by p s); [destruct (p c)|]; intros [= <- _]; eauto.
Qed.

Lemma single_spaced_rstrip (s : string) :
  single_spaced s = true -> single_spaced (Str.rstrip_by Str.isspace s) = true.
Proof.
  induction s as [|c s IH]; [reflexivity|]. intros Hs.
  pose proof (single_spaced_tail _ _ Hs) as Ht. specialize (IH Ht).
  cbn [Str.rstrip_by].
  destruct (Str.rstrip_by Str.isspace s) as [|d r] eqn:Er.
  - destruct (Str.isspace c) eqn:E; [reflexivity|].
    cbn [single_spaced]. now rewrite E.
  - destruct (rstrip_head _ _ _ _ Er) as [s' ->].
    rewrite single_spaced_cons in Hs |- *. rewrite IH, andb_true_r.
    now apply andb_true_iff in Hs.
Qed.

Lemma single_spaced_join_split (s : string) :
  single_spaced (Str.join " " (Str.split s)) = true.
Proof.
  rewrite join_split_collapse. unfold Str.strip, Str.strip_by.
  apply single_spaced_rstrip, single_spaced_lstrip, single_spaced_collapse.
Qed.

Lemma collapse_single_spaced (s : string) :
  single_spaced s = true -> collapse_whitespace s = s.
Proof.
  induction s as [|c s IH]; [reflexivity|]. intros Hs.
  pose proof (single_spaced_tail _ _ Hs) as Ht. specialize (IH Ht).
  cbn [single_spaced collapse_whitespace] in Hs |- *.
  destruct (Str.isspace c) eqn:E; [|now rewrite IH].
  apply andb_true_iff in Hs as [Hs _]. apply andb_true_iff in Hs as [Hc Hn].
  apply Ascii.eqb_eq in Hc as ->.
  destruct s as [|c' s]; [reflexivity|].
  apply negb_true_iff in Hn. rewrite Hn. now rewrite IH.
Qed.

Lemma single_spaced_lower (s : string) :
  single_spaced (Str.lower s) = single_spaced s.
Proof.
  induction s as [|c s IH]; [reflexivity|].
  cbn [Str.lower single_spaced]. rewrite IH, isspace_lower_char, lower_char_is_space.
  destruct s; [reflexivity|]. cbn [Str.lower]. now rewrite isspace_lower_char.
Qed.

(** On a trimmed text, joining the words gives the text back exactly when
    the text is single-spaced. *)
Lemma join_split_fixed (s : string) :
  Str.strip s = s ->
  Str.join " " (Str.split s) = s <-> single_spaced s = true.
Proof.
  intros Hs. split.
  - intros <-. apply single_spaced_join_split.
  - intros Ht. now rewrite join_split_collapse, collapse_single_spaced.
Qed.

(** ** The verification engine *)

Section Verification.

Context {hashing : Hashing} {dmp : DiffMatchPatch}.

Lemma normalize_content_in_words (text : string) :
  normalize_content text = normalize_in_words text.
Proof.
  unfold normalize_content, normalize_in_words.
  destruct text as [|c s]; [reflexivity|].
  cbn [Str.nonempty negb]. apply join_split_collapse.
Qed.

Lemma verify_quote_match (quote_text original_source_text : string) :
  compute_hash quote_text = compute_hash original_source_text ->
  verify_quote quote_text original_source_text = (true, None).
Proof.
  intros E. unfold verify_quote. rewrite E, String.eqb_refl. reflexivity.
Qed.

Lemma verify_quote_mismatch (quote_text original_source_text : string) :
  compute_hash quote_text <> compute_hash original_source_text ->
  verify_quote quote_text original_source_text
  = (false,
     Some (diff_prettyHtml
             (diff_cleanupSemantic (diff_main original_source_text quote_text)))).
Proof.
  intros E. unfold verify_quote.
  destruct (String.eqb_spec (compute_hash quote_text)
              (compute_hash original_source_text)); [contradiction|reflexivity].
Qed.

(** C4.  With a digest free of collisions, [verify_quote] answers
    [(True, None)] exactly when the two normalized texts are equal,
    where normalizing lowercases, collapses each whitespace run to one
    space and trims; so a text matches itself, the two variants of
    "The deadline is Friday." match, and on a mismatch the answer is
    [False] with the rendered diff of the original against the quote. *)
Theorem verify_quote_normalized_equality
    (collision_free : forall a b, sha256_hex a = sha256_hex b -> a = b) :
  (forall quote original,
      verify_quote quote original = (true, None)
      <-> normalize_content quote = normalize_content original)
  /\ (forall text, normalize_content text = normalize_in_words text)
  /\ (forall x, verify_quote x x = (true, None))
  /\ verify_quote "The deadline is Friday." "the   deadline is friday."
     = (true, None)
  /\ (forall quote original,
        normalize_content quote <> normalize_content original ->
        verify_quote quote original
        = (false,
           Some (diff_prettyHtml
                   (diff_cleanupSemantic (diff_main original quote))))).
Proof.
  repeat split.
  - intros E.
    destruct (String.eqb_spec (compute_hash quote) (compute_hash original))
      as [Eh|Nh].
    + now apply collision_free.
    + rewrite (verify_quote_mismatch _ _ Nh) in E. discriminate.
  - intros E. apply verify_quote_match. unfold compute_hash. now rewrite E.
  - apply normalize_content_in_words.
  - intros x. now apply verify_quote_match.
  - now apply verify_quote_match.
  - intros quote original N. apply verify_quote_mismatch.
    unfold compute_hash. intros E. now apply N, collision_free.
Qed.

End Verification.

Lemma verify_quote_normalized_equality_witness :
  (forall a b, @sha256_hex plain_digest a = @sha256_hex plain_digest b -> a = b)
  /\ @verify_quote plain_digest naming_dmp "The  Deadline" "the deadline"
     = (true, None)
  /\ @verify_quote plain_digest naming_dmp "The deadline" "the dead line"
     = (false, Some "the dead line / The deadline").
Proof.
  assert (C : forall a b, @sha256_hex plain_digest a = @sha256_hex plain_digest b -> a = b)
    by (intros a b E; exact E).
  pose proof (@verify_quote_normalized_equality plain_digest naming_dmp C)
    as (Hiff & _ & _ & _ & Hdiff).
  split; [exact C|]. split.
  - apply Hiff. reflexivity.
  - rewrite Hdiff; [reflexivity|]. vm_compute. discriminate.
Defined.

(** ** The tree walker *)

(** Induction on a tree, with the property on the children of a tag. *)
Lemma node_tree_ind (P : node -> Prop) :
  (forall name attrs children,
      Forall P children -> P (Tag name attrs children)) ->
  (forall text, P (NavigableString text)) ->
  forall n, P n.
Proof.
  intros Htag Htext.
  fix IH 1. intros [name attrs children | text]; [|apply Htext].
  apply Htag. induction children as [|c cs IHcs]; constructor; [apply IH | exact IHcs].
Qed.

Section Walker.

Context {hashing : Hashing} {segmenter : Segmenter} {parser : HtmlParser}
        {codec : JsonCodec}.

(** The loop over the children of a tag is [traverse_children]. *)
Lemma traverse_tag (message_id : option string) (name : string)
    (attrs : gmap string attr_value) (children : list node)
    (current_depth : nat) (current_style_stack : style) (w : walk) :
  traverse message_id (Tag name attrs children) current_depth
    current_style_stack w
  = traverse_children message_id children
      (if String.eqb name "blockquote" then S current_depth else current_depth)
      (tag_style name attrs current_style_stack) w.
Proof.
  cbn [traverse].
  generalize (if String.eqb name "blockquote" then S current_depth else current_depth).
  generalize (tag_style name attrs current_style_stack).
  intros sty d. revert w.
  induction children as [|c cs IH]; intros w; [reflexivity|].
  cbn [traverse_children]. unfold bind.
  destruct (traverse message_id c d sty w); [reflexivity | apply IH].
Qed.

Lemma traverse_text (message_id : option string) (text : string)
    (current_depth : nat) (current_style_stack : style) (w : walk) :
  traverse message_id (NavigableString text) current_depth
    current_style_stack w
  = if negb (Str.nonempty (Str.strip text)) then Return w
    else
      sentences <- sent_tokenize (Str.strip text) ;;
      Return (emit_sentences message_id current_depth current_style_stack
                sentences w).
Proof. reflexivity. Qed.

Lemma emitted_nil message_id base d : emitted message_id base d [].
Proof. intros j a Hj. discriminate. Qed.

Lemma emitted_app message_id base d new1 new2 :
  emitted message_id base d new1 ->
  emitted message_id (base + length new1) d new2 ->
  emitted message_id base d (new1 ++ new2).
Proof.
  intros H1 H2 j a Hj. apply lookup_app_Some in Hj as [Hj | [Hlen Hj]].
  - now apply H1.
  - destruct (H2 _ _ Hj) as (t & depth & sty & -> & ? & ? & ?).
    exists t, depth, sty. repeat split; try assumption.
    f_equal. lia.
Qed.

Lemma emitted_deeper message_id base d d' new :
  d' <= d -> emitted message_id base d new -> emitted message_id base d' new.
Proof.
  intros Hd Hn j a Hj. destruct (Hn _ _ Hj) as (t & depth & sty & ? & ? & ? & ?).
  exists t, depth, sty. repeat split; try assumption. lia.
Qed.

Lemma extends_refl message_id d w : extends message_id d w w.
Proof.
  exists []. rewrite app_nil_r. repeat split; [simpl; lia | apply emitted_nil].
Qed.

Lemma extends_trans message_id d w1 w2 w3 :
  extends message_id d w1 w2 -> extends message_id d w2 w3 ->
  extends message_id d w1 w3.
Proof.
  intros (n1 & Ha1 & Hi1 & He1) (n2 & Ha2 & Hi2 & He2).
  exists (n1 ++ n2). rewrite Ha2, Ha1, Hi2, Hi1, length_app, <- app_assoc.
  repeat split; [lia|]. apply emitted_app; [assumption|]. now rewrite <- Hi1.
Qed.

(** The sentences of one text node, at exactly the depth of the node. *)
Lemma emit_sentences_extends message_id d sty sentences w :
  exists new,
    atoms (emit_sentences message_id d sty sentences w) = atoms w ++ new
    /\ sequence_index (emit_sentences message_id d sty sentences w)
       = sequence_index w + length new
    /\ forall j a, new !! j = Some a ->
         exists sent_text,
           a = html_atom message_id sent_text (sequence_index w + j) d sty
           /\ Str.strip sent_text = sent_text
           /\ Str.nonempty sent_text = true.
Proof.
  revert w. induction sentences as [|s rest IH]; intros w.
  - exists []. rewrite app_nil_r. repeat split; [simpl; lia|]. intros j a Hj. discriminate.
  - cbn [emit_sentences].
    destruct (Str.nonempty (Str.strip s)) eqn:E; cbn [negb]; [|apply IH].
    destruct (IH (Walk (atoms w ++ [html_atom message_id (Str.strip s) (sequence_index w) d sty])
                    (S (sequence_index w)))) as (new & Ha & Hi & Hn).
    cbn [atoms sequence_index] in *.
    exists (html_atom message_id (Str.strip s) (sequence_index w) d sty :: new).
    rewrite Ha, Hi, <- app_assoc. repeat split; [simpl; lia|].
    intros [|j] a Hj.
    + injection Hj as <-. exists (Str.strip s).
      rewrite Nat.add_0_r, strip_idem. now repeat split.
    + destruct (Hn _ _ Hj) as (t & -> & ? & ?). exists t.
      repeat split; try assumption. f_equal. lia.
Qed.

Lemma extends_deeper message_id d d' w w' :
  d' <= d -> extends message_id d w w' -> extends message_id d' w w'.
Proof.
  intros Hd (new & ? & ? & ?). exists new. repeat split; try assumption.
  eapply emitted_deeper; eassumption.
Qed.

Lemma traverse_extends message_id n :
  forall d sty w w',
    traverse message_id n d sty w = Return w' -> extends message_id d w w'.
Proof.
  induction n as [name attrs children IH | text] using node_tree_ind;
    intros d sty w w'.
  - rewrite traverse_tag.
    set (d' := if String.eqb name "blockquote" then S d else d).
    assert (Hd : d <= d') by (unfold d'; destruct (String.eqb name "blockquote"); lia).
    generalize (tag_style name attrs sty). intros sty' Hw.
    apply (extends_deeper _ d'); [exact Hd|]. clear Hd.
    revert w Hw. induction IH as [|c cs Hc _ IHcs]; intros w Hw.
    + injection Hw as <-. apply extends_refl.
    + cbn [traverse_children] in Hw. unfold bind in Hw.
      destruct (traverse message_id c d' sty' w) as [e|w1] eqn:E; [discriminate|].
      eapply extends_trans; [eapply Hc, E | apply IHcs, Hw].
  - rewrite traverse_text.
    destruct (Str.nonempty (Str.strip text)); cbn [negb].
    + unfold bind. destruct (sent_tokenize (Str.strip text)) as [e|sentences]; [discriminate|].
      intros [= <-].
      destruct (emit_sentences_extends message_id d sty sentences w)
        as (new & Ha & Hi & Hn).
      exists new. repeat split; try assumption.
      intros j a Hj. destruct (Hn _ _ Hj) as (t & ? & ? & ?).
      exists t, d, sty. repeat split; try assumption. lia.
    + intros [= <-]. apply extends_refl.
Qed.

End Walker.

Section AtomFields.

Context {hashing : Hashing} {codec : JsonCodec}.

Lemma html_atom_sequenceIndex message_id sent_text i d sty :
  has_int (html_atom message_id sent_text i d sty) "sequenceIndex" (Z.of_nat i).
Proof. reflexivity. Qed.

Lemma html_atom_quoteDepth message_id sent_text i d sty :
  has_int (html_atom message_id sent_text i d sty) "quoteDepth" (Z.of_nat d).
Proof. reflexivity. Qed.

Lemma html_atom_content message_id sent_text i d sty :
  has_str (html_atom message_id sent_text i d sty) "content" sent_text.
Proof. reflexivity. Qed.

Lemma html_atom_normalizedHash message_id sent_text i d sty :
  has_str (html_atom message_id sent_text i d sty) "normalizedHash"
    (sha256_hex (Str.lower sent_text)).
Proof. reflexivity. Qed.

Lemma html_atom_deeper message_id sent_text i d sty :
  html_atom message_id sent_text i (S d) sty
  = <["quoteDepth" := VInt (Z.of_nat (S d))]> (html_atom message_id sent_text i d sty).
Proof. reflexivity. Qed.

End AtomFields.

Section Depth.

Context {hashing : Hashing} {segmenter : Segmenter} {parser : HtmlParser}
        {codec : JsonCodec}.

Lemma deepen_html_atom message_id sent_text i d sty :
  deepen (html_atom message_id sent_text i d sty)
  = html_atom message_id sent_text i (S d) sty.
Proof.
  unfold deepen. rewrite html_atom_quoteDepth, html_atom_deeper.
  now rewrite Nat2Z.inj_succ.
Qed.

Lemma emit_sentences_deeper message_id d sty sentences w w' :
  sequence_index w = sequence_index w' ->
  deeper_run (Return (emit_sentences message_id d sty sentences w))
    (Return (emit_sentences message_id (S d) sty sentences w')) w w'.
Proof.
  revert w w'. induction sentences as [|s rest IH]; intros w w' Hi.
  - split; [exact Hi|]. exists []. now rewrite !app_nil_r.
  - cbn [emit_sentences]. destruct (Str.nonempty (Str.strip s)); cbn [negb]; [|now apply IH].
    rewrite <- Hi.
    pose (a := html_atom message_id (Str.strip s) (sequence_index w) d sty).
    destruct (IH (Walk (atoms w ++ [a]) (S (sequence_index w)))
                 (Walk (atoms w' ++ [html_atom message_id (Str.strip s)
                                       (sequence_index w) (S d) sty])
                       (S (sequence_index w))) eq_refl)
      as (Hs & new & Ha & Ha').
    subst a. cbn [atoms] in Ha, Ha'.
    split; [exact Hs|].
    exists (html_atom message_id (Str.strip s) (sequence_index w) d sty :: new).
    split.
    + rewrite Ha, <- app_assoc. reflexivity.
    + rewrite Ha', <- app_assoc, fmap_cons, deepen_html_atom. reflexivity.
Qed.

Lemma deeper_run_refl w w' :
  sequence_index w = sequence_index w' -> deeper_run (Return w) (Return w') w w'.
Proof. intros Hi. split; [exact Hi|]. exists []. now rewrite !app_nil_r. Qed.

(** Walking a subtree one level deeper gives the same atoms, one level
    deeper. *)
Lemma traverse_deeper message_id n :
  forall d sty w w',
    sequence_index w = sequence_index w' ->
    deeper_run (traverse message_id n d sty w)
      (traverse message_id n (S d) sty w') w w'.
Proof.
  induction n as [name attrs children IH | text] using node_tree_ind;
    intros d sty w w' Hi.
  - rewrite !traverse_tag.
    replace (if String.eqb name "blockquote" then S (S d) else S d)
      with (S (if String.eqb name "blockquote" then S d else d))
      by (now destruct (String.eqb name "blockquote")).
    generalize (if String.eqb name "blockquote" then S d else d).
    generalize (tag_style name attrs sty). clear d sty. intros sty d.
    revert w w' Hi. induction IH as [|c cs Hc _ IHcs]; intros w w' Hi.
    + now apply deeper_run_refl.
    + cbn [traverse_children]. unfold bind.
      specialize (Hc d sty w w' Hi). unfold deeper_run in Hc.
      destruct (traverse message_id c d sty w) as [e|v],
               (traverse message_id c (S d) sty w') as [e'|v'];
        try contradiction; [exact Hc|].
      destruct Hc as (Hv & new & Ha & Ha').
      specialize (IHcs v v' Hv). unfold deeper_run in IHcs |- *.
      destruct (traverse_children message_id cs d sty v) as [e|u],
               (traverse_children message_id cs (S d) sty v') as [e'|u'];
        try contradiction; [exact IHcs|].
      destruct IHcs as (Hu & new2 & Hb & Hb').
      split; [exact Hu|]. exists (new ++ new2).
      now rewrite Hb, Hb', Ha, Ha', fmap_app, <- !app_assoc.
  - rewrite !traverse_text.
    destruct (Str.nonempty (Str.strip text)); cbn [negb];
      [|now apply deeper_run_refl].
    unfold bind. destruct (sent_tokenize (Str.strip text)) as [e|sentences];
      [reflexivity|].
    now apply emit_sentences_deeper.
Qed.

(** The depth stamped on the new atoms of a walk. *)
Lemma extends_depths message_id d w w' :
  extends message_id d w w' ->
  exists new,
    atoms w' = atoms w ++ new
    /\ Forall (fun a => exists k, has_int a "quoteDepth" k /\ (Z.of_nat d <= k)%Z) new.
Proof.
  intros (new & Ha & _ & Hn). exists new. split; [exact Ha|].
  apply Forall_lookup. intros j a Hj.
  destruct (Hn _ _ Hj) as (t & depth & sty & -> & Hd & _).
  exists (Z.of_nat depth). split; [apply html_atom_quoteDepth | lia].
Qed.

(** C5.  Entering a blockquote walks its children one level deeper, so
    every atom of its subtree is stamped one more than it would be
    without the container; a text node stamps the depth in force; two
    nested blockquotes stamp two more; and no atom of a subtree is
    stamped less than the depth in force at its root. *)
Theorem quote_depth_compounds (message_id : option string) :
  (forall attrs children d sty w,
      traverse message_id (Tag "blockquote" attrs children) d sty w
      = traverse_children message_id children (S d)
          (tag_style "blockquote" attrs sty) w)
  /\ (forall n d sty w,
        deeper_run (traverse message_id n d sty w)
          (traverse message_id n (S d) sty w) w w)
  /\ (forall attrs children d sty w w',
        traverse message_id (Tag "blockquote" attrs children) d sty w = Return w' ->
        exists new,
          atoms w' = atoms w ++ new
          /\ Forall (fun a => exists k, has_int a "quoteDepth" k
                                        /\ (Z.of_nat d < k)%Z) new)
  /\ (forall text d sty w w',
        traverse message_id (NavigableString text) d sty w = Return w' ->
        exists new,
          atoms w' = atoms w ++ new
          /\ Forall (fun a => has_int a "quoteDepth" (Z.of_nat d)) new)
  /\ (forall attrs1 attrs2 text d sty w w',
        traverse message_id
          (Tag "blockquote" attrs1
             [Tag "blockquote" attrs2 [NavigableString text]]) d sty w
        = Return w' ->
        exists new,
          atoms w' = atoms w ++ new
          /\ Forall (fun a => has_int a "quoteDepth" (Z.of_nat d + 2)) new)
  /\ (forall n d sty w w',
        traverse message_id n d sty w = Return w' ->
        exists new,
          atoms w' = atoms w ++ new
          /\ Forall (fun a => exists k, has_int a "quoteDepth" k
                                        /\ (Z.of_nat d <= k)%Z) new).
Proof.
  assert (Htext : forall text d sty w w',
             traverse message_id (NavigableString text) d sty w = Return w' ->
             exists new,
               atoms w' = atoms w ++ new
               /\ Forall (fun a => has_int a "quoteDepth" (Z.of_nat d)) new).
  { intros text d sty w w'. rewrite traverse_text.
    destruct (Str.nonempty (Str.strip text)); cbn [negb].
    - unfold bind. destruct (sent_tokenize (Str.strip text)) as [e|sentences];
        [discriminate|]. intros [= <-].
      destruct (emit_sentences_extends message_id d sty sentences w)
        as (new & Ha & _ & Hn).
      exists new. split; [exact Ha|]. apply Forall_lookup. intros j a Hj.
      destruct (Hn _ _ Hj) as (t & -> & _). apply html_atom_quoteDepth.
    - intros [= <-]. exists []. now rewrite app_nil_r. }
  split; [|split; [|split; [|split; [|split]]]].
  - intros. now rewrite traverse_tag.
  - intros. now apply traverse_deeper.
  - intros attrs children d sty w w'. rewrite traverse_tag. cbn [String.eqb Ascii.eqb Bool.eqb].
    intros Hw.
    assert (He : extends message_id (S d) w w').
    { rewrite <- (traverse_tag message_id "blockquote" attrs children d sty w) in Hw.
      rewrite traverse_tag in Hw. cbn [String.eqb Ascii.eqb Bool.eqb] in Hw.
      clear - Hw. revert w Hw.
      induction children as [|c cs IH]; intros w Hw.
      - injection Hw as <-. apply extends_refl.
      - cbn [traverse_children] in Hw. unfold bind in Hw.
        destruct (traverse message_id c (S d) _ w) as [e|w1] eqn:E; [discriminate|].
        eapply extends_trans; [eapply traverse_extends, E | apply IH, Hw]. }
    destruct (extends_depths _ _ _ _ He) as (new & Ha & Hn).
    exists new. split; [exact Ha|].
    eapply Forall_impl; [exact Hn|]. intros a (k & Hk & Hle). exists k. split; [exact Hk | lia].
  - exact Htext.
  - intros attrs1 attrs2 text d sty w w'. rewrite traverse_tag.
    cbn [String.eqb Ascii.eqb Bool.eqb traverse_children]. unfold bind.
    rewrite traverse_tag. cbn [String.eqb Ascii.eqb Bool.eqb traverse_children]. unfold bind.
    destruct (traverse message_id (NavigableString text) (S (S d)) _ w) as [e|w1] eqn:E;
      [discriminate|].
    intros [= <-]. destruct (Htext _ _ _ _ _ E) as (new & Ha & Hn).
    exists new. split; [exact Ha|].
    eapply Forall_impl; [exact Hn|]. intros a Hk. unfold has_int in *. rewrite Hk.
    do 2 f_equal. lia.
  - intros n d sty w w' Hw. eapply extends_depths, traverse_extends, Hw.
Qed.

End Depth.

Section Sequence.

Context {hashing : Hashing} {segmenter : Segmenter} {parser : HtmlParser}
        {codec : JsonCodec}.

Lemma plain_loop_new message_id sender_email sentences :
  forall i acc,
    plain_loop message_id sender_email i sentences acc
    = acc ++ plain_new message_id sender_email i sentences.
Proof.
  induction sentences as [|s rest IH]; intros i acc; [now rewrite app_nil_r|].
  cbn [plain_loop plain_new].
  destruct (Str.nonempty (Str.strip s)); cbn [negb]; [|apply IH].
  unfold plain_content, plain_depth.
  destruct (Str.startswith ">" (Str.strip s)); rewrite IH, <- app_assoc; reflexivity.
Qed.

Lemma plain_atom_sequenceIndex message_id sent_text i depth sender_email :
  has_int (plain_atom message_id sent_text i depth sender_email)
    "sequenceIndex" (Z.of_nat i).
Proof. reflexivity. Qed.

(** Each atom of the plain-text path carries the position of its sentence
    in the segmenter's answer. *)
Lemma plain_new_positions message_id sender_email sentences :
  forall i a,
    a ∈ plain_new message_id sender_email i sentences <->
    exists j s,
      sentences !! j = Some s
      /\ Str.nonempty (Str.strip s) = true
      /\ a = plain_atom message_id (plain_content (Str.strip s)) (i + j)
               (plain_depth (Str.strip s)) sender_email.
Proof.
  induction sentences as [|s rest IH]; intros i a.
  - split; [intros Ha; inversion Ha | intros (j & s & Hj & _); discriminate].
  - cbn [plain_new]. split.
    + intros Ha.
      assert (Hrest : a ∈ plain_new message_id sender_email (S i) rest ->
                exists j s0, (s :: rest) !! j = Some s0
                  /\ Str.nonempty (Str.strip s0) = true
                  /\ a = plain_atom message_id (plain_content (Str.strip s0)) (i + j)
                           (plain_depth (Str.strip s0)) sender_email).
      { intros Hr. apply IH in Hr as (j & s0 & Hj & Hn & ->).
        exists (S j), s0. repeat split; try assumption. f_equal. lia. }
      destruct (Str.nonempty (Str.strip s)) eqn:E; [|now apply Hrest].
      apply elem_of_cons in Ha as [-> | Hr]; [|now apply Hrest].
      exists 0, s. rewrite Nat.add_0_r. now repeat split.
    + intros ([|j] & s0 & Hj & Hn & ->).
      * injection Hj as ->. rewrite Hn, Nat.add_0_r. apply list_elem_of_here.
      * assert (Hr : plain_atom message_id (plain_content (Str.strip s0)) (i + S j)
                       (plain_depth (Str.strip s0)) sender_email
                     ∈ plain_new message_id sender_email (S i) rest).
        { apply IH. exists j, s0. repeat split; try assumption. f_equal. lia. }
        destruct (Str.nonempty (Str.strip s)); [now apply list_elem_of_further | exact Hr].
Qed.

(** With no blank sentence in the segmenter's answer, the plain-text path
    numbers its atoms without a gap. *)
Lemma plain_new_indexed message_id sender_email sentences :
  Forall (fun s => Str.nonempty (Str.strip s) = true) sentences ->
  forall i, indexed_from i (plain_new message_id sender_email i sentences).
Proof.
  induction 1 as [|s rest Hs _ IH]; intros i j a Hj; [discriminate|].
  cbn [plain_new] in Hj. rewrite Hs in Hj. destruct j as [|j].
  - injection Hj as <-. rewrite Nat.add_0_r. apply plain_atom_sequenceIndex.
  - replace (i + S j) with (S i + j) by lia. now apply (IH (S i)).
Qed.

Lemma plain_path_indexed message_id text sender_email sentences atoms :
  sent_tokenize text = Return sentences ->
  Forall (fun s => Str.nonempty (Str.strip s) = true) sentences ->
  _atomize_plain message_id text sender_email = Return atoms ->
  indexed_from 0 atoms.
Proof.
  unfold _atomize_plain, bind. intros -> Hs [= <-].
  rewrite plain_loop_new. now apply plain_new_indexed.
Qed.

(** The HTML path numbers its atoms 0, 1, ..., N-1. *)
Lemma html_path_indexed message_id html_content plain_content0 sender_email
    (returned : list Atom) :
  negb (truthy_opt html_content) && truthy_opt plain_content0 = false ->
  atomize message_id html_content plain_content0 sender_email = Return returned ->
  indexed_from 0 returned.
Proof.
  unfold atomize, bind. intros ->.
  destruct (BeautifulSoup html_content) as [e|soup]; [discriminate|].
  destruct (traverse message_id _ 0 ∅ (Walk [] 0)) as [e|w] eqn:E; [discriminate|].
  intros [= <-]. apply traverse_extends in E as (new & Ha & _ & Hn).
  cbn [atoms sequence_index app] in *. rewrite Ha.
  intros j a Hj. destruct (Hn _ _ Hj) as (t & depth & sty & -> & _).
  apply html_atom_sequenceIndex.
Qed.

End Sequence.

Section SequenceClaim.

Context {hashing : Hashing} {segmenter : Segmenter} {parser : HtmlParser}
        {codec : JsonCodec}.

Lemma indexed_from_zero (l : list Atom) :
  indexed_from 0 l ->
  (fun a => a !! "sequenceIndex") <$> l
  = (fun j => Some (VInt (Z.of_nat j))) <$> seq 0 (length l).
Proof.
  intros Hl. apply list_eq. intros j. rewrite !list_lookup_fmap.
  destruct (l !! j) as [a|] eqn:Hj.
  - rewrite (lookup_seq_lt _ _ _ (lookup_lt_Some _ _ _ Hj)). cbn.
    f_equal. exact (Hl j a Hj).
  - rewrite (lookup_seq_ge _ _ _ (proj1 (lookup_ge_None _ _) Hj)). reflexivity.
Qed.

(** C1.  With a sentence segmenter that never answers with a blank
    sentence (the contract of the segmenter the code calls: a sentence of
    Punkt holds a token), every call of [atomize] that returns N atoms,
    on the HTML path and on the plain-text path, returns them with the
    sequence indices 0, 1, ..., N-1 in list order: the atom at position
    [j] carries [j].  The HTML path counts the atoms it appends and needs
    no condition; the plain-text path stamps the position of the sentence
    in the segmenter's answer and skips blank sentences, which is where
    the condition is used. *)
Theorem sequence_indices_contiguous
    (no_blank_sentence :
       forall text sentences,
         sent_tokenize text = Return sentences ->
         Forall (fun s => Str.strip s <> "") sentences)
    message_id html_content plain_content0 sender_email (returned : list Atom) :
  atomize message_id html_content plain_content0 sender_email = Return returned ->
  (forall j a, returned !! j = Some a -> has_int a "sequenceIndex" (Z.of_nat j))
  /\ (fun a => a !! "sequenceIndex") <$> returned
     = (fun j => Some (VInt (Z.of_nat j))) <$> seq 0 (length returned).
Proof.
  intros Hret.
  assert (Hidx : indexed_from 0 returned).
  { destruct (negb (truthy_opt html_content) && truthy_opt plain_content0) eqn:Hpath.
    - assert (Hplain : _atomize_plain message_id (default "" plain_content0)
                         sender_email = Return returned).
      { revert Hret. unfold atomize. now rewrite Hpath. }
      destruct (sent_tokenize (default "" plain_content0)) as [e|sentences] eqn:Hs.
      { revert Hplain. unfold _atomize_plain, bind. now rewrite Hs. }
      refine (plain_path_indexed _ _ _ _ _ Hs _ Hplain).
      eapply Forall_impl; [exact (no_blank_sentence _ _ Hs)|].
      intros s Hne. cbn beta in Hne |- *.
      destruct (Str.strip s); [now destruct Hne | reflexivity].
    - exact (html_path_indexed _ _ _ _ _ Hpath Hret). }
  split; [exact Hidx | now apply indexed_from_zero].
Qed.

End SequenceClaim.

Lemma sequence_indices_contiguous_witness :
  exists returned,
    @atomize plain_digest (sentences_are ["Hello."; "Bye."])
      (parses_to (NavigableString "")) empty_dict_codec
      (Some "m1") None (Some "Hello.   Bye.") (Some "me")
    = Return returned
    /\ (fun a => a !! "sequenceIndex") <$> returned
       = [Some (VInt 0); Some (VInt 1)].
Proof.
  eexists. split; [reflexivity|].
  refine (proj2 (@sequence_indices_contiguous plain_digest
                   (sentences_are ["Hello."; "Bye."])
                   (parses_to (NavigableString "")) empty_dict_codec _
                   (Some "m1") None (Some "Hello.   Bye.") (Some "me") _ eq_refl)).
  intros text sentences [= <-].
  repeat constructor; vm_compute; discriminate.
Defined.

(** The condition on the segmenter cannot be dropped from the statement:
    the plain-text path stamps positions of sentences, so that an answer
    with a blank sentence between two others, were a segmenter to give
    one, would be returned with the indices 0 and 2. *)
Example blank_sentence_would_shift_index :
  exists a0 a1,
    @atomize plain_digest (sentences_are ["Hello."; " "; "Bye."])
      (parses_to (NavigableString "")) empty_dict_codec
      (Some "m1") None (Some "Hello.   Bye.") (Some "me")
    = Return [a0; a1]
    /\ has_int a0 "sequenceIndex" 0
    /\ has_int a1 "sequenceIndex" 2.
Proof. do 2 eexists. split; [reflexivity|]. split; reflexivity. Qed.

(** ** The stored hash and the verification hash *)

Section StoredHash.

Context {hashing : Hashing} {segmenter : Segmenter} {parser : HtmlParser}
        {codec : JsonCodec}.

Lemma plain_content_trimmed (s : string) :
  Str.strip (plain_content (Str.strip s)) = plain_content (Str.strip s).
Proof.
  unfold plain_content. destruct (Str.startswith ">" (Str.strip s)); apply strip_idem.
Qed.

Lemma atomize_hashed_trimmed message_id html_content plain_content0 sender_email
    (returned : list Atom) :
  atomize message_id html_content plain_content0 sender_email = Return returned ->
  Forall hashed_trimmed returned.
Proof.
  unfold atomize.
  destruct (negb (truthy_opt html_content) && truthy_opt plain_content0).
  - unfold _atomize_plain, bind.
    destruct (sent_tokenize _) as [e|sentences]; [discriminate|]. intros [= <-].
    rewrite plain_loop_new. cbn [app]. apply Forall_forall. intros a Ha.
    apply plain_new_positions in Ha as (j & s & _ & _ & ->).
    exists (plain_content (Str.strip s)).
    split; [reflexivity|]. split; [apply plain_content_trimmed | reflexivity].
  - unfold bind. destruct (BeautifulSoup html_content) as [e|soup]; [discriminate|].
    destruct (traverse message_id _ 0 ∅ (Walk [] 0)) as [e|w] eqn:E; [discriminate|].
    intros [= <-]. apply traverse_extends in E as (new & Ha & _ & Hn).
    cbn [atoms app] in Ha. rewrite Ha. apply Forall_lookup. intros j a Hj.
    destruct (Hn _ _ Hj) as (t & depth & sty & -> & _ & Ht & _).
    exists t. split; [reflexivity|]. split; [exact Ht | reflexivity].
Qed.

Lemma compute_hash_in_words (text : string) :
  compute_hash text = sha256_hex (normalize_in_words text).
Proof. unfold compute_hash. now rewrite normalize_content_in_words. Qed.

Lemma lower_normalized (content : string) :
  Str.strip content = content ->
  Str.lower content = normalize_content content <-> single_spaced content = true.
Proof.
  intros Ht. unfold normalize_content.
  destruct content as [|c s]; [now split|]. cbn [Str.nonempty negb].
  rewrite <- single_spaced_lower. split.
  - intros E. apply join_split_fixed; [|now symmetry].
    now rewrite strip_lower, Ht.
  - intros E. symmetry. apply join_split_fixed; [|exact E].
    now rewrite strip_lower, Ht.
Qed.

(** C10.  Every atom the atomizer returns stores the digest of its
    lowercased, trimmed content with the inner whitespace as it is, while
    [compute_hash] digests the content with each whitespace run collapsed
    to one space; with a digest free of collisions the two are equal
    exactly when the content is single-spaced, and differ otherwise. *)
Theorem stored_hash_keeps_whitespace
    (collision_free : forall a b, sha256_hex a = sha256_hex b -> a = b)
    message_id html_content plain_content0 sender_email (returned : list Atom) :
  atomize message_id html_content plain_content0 sender_email = Return returned ->
  forall a, a ∈ returned ->
    exists content,
      has_str a "content" content
      /\ Str.strip content = content
      /\ has_str a "normalizedHash" (sha256_hex (Str.lower content))
      /\ compute_hash content = sha256_hex (normalize_in_words content)
      /\ (sha256_hex (Str.lower content) = compute_hash content
          <-> single_spaced content = true)
      /\ (single_spaced content = false ->
          sha256_hex (Str.lower content) <> compute_hash content).
Proof.
  intros Hr a Ha. apply atomize_hashed_trimmed in Hr.
  rewrite Forall_forall in Hr. destruct (Hr a Ha) as (content & Hc & Ht & Hh).
  assert (Hiff : sha256_hex (Str.lower content) = compute_hash content
                 <-> single_spaced content = true).
  { rewrite <- (lower_normalized content Ht). unfold compute_hash. split.
    - apply collision_free.
    - now intros ->. }
  exists content. repeat split; try assumption; try apply Hiff.
  - apply compute_hash_in_words.
  - intros Hs E. apply Hiff in E. congruence.
Qed.

End StoredHash.

Lemma stored_hash_keeps_whitespace_witness :
  exists a,
    @atomize plain_digest one_sentence (parses_to (NavigableString "Call  me  back"))
      empty_dict_codec (Some "m1") (Some "<p>") None None = Return [a]
    /\ has_str a "normalizedHash" "call  me  back"
    /\ @compute_hash plain_digest "Call  me  back" = "call me back"
    /\ @sha256_hex plain_digest (Str.lower "Call  me  back")
       <> @compute_hash plain_digest "Call  me  back".
Proof.
  eexists. split; [reflexivity|].
  assert (C : forall a b, @sha256_hex plain_digest a = @sha256_hex plain_digest b -> a = b)
    by (intros a b E; exact E).
  destruct (@stored_hash_keeps_whitespace plain_digest one_sentence
              (parses_to (NavigableString "Call  me  back")) empty_dict_codec C
              (Some "m1") (Some "<p>") None None _ eq_refl _ (list_elem_of_here _ _))
    as (content & Hc & _ & Hh & _ & _ & Hne).
  injection Hc as <-.
  split; [exact Hh|]. split; [reflexivity|]. apply Hne. reflexivity.
Defined.

(** ** The plain-text fallback *)

Lemma leading_markers_count (t : string) : leading_markers t <= Str.count ">" t.
Proof.
  induction t as [|c t IH]; [reflexivity|]. cbn [Str.count].
  destruct (Ascii.eqb_spec c ">") as [->|Hc].
  - cbn [leading_markers]. lia.
  - assert (leading_markers (String c t) = 0) as ->; [|lia].
    destruct c as [[] [] [] [] [] [] [] []]; try reflexivity. now contradict Hc.
Qed.

Lemma startswith_marker (t : string) :
  Str.startswith ">" t = true <-> 1 <= leading_markers t.
Proof.
  destruct t as [|c t]; [cbn; split; [discriminate | lia]|].
  unfold Str.startswith. cbn [String.prefix].
  destruct (ascii_dec ">" c) as [<-|Hc].
  - cbn [leading_markers]. split; [lia|]. now destruct t.
  - split; [discriminate|].
    assert (leading_markers (String c t) = 0) as ->; [|lia].
    destruct c as [[] [] [] [] [] [] [] []]; try reflexivity. now contradict Hc.
Qed.

Section PlainFallback.

Context {hashing : Hashing} {segmenter : Segmenter} {parser : HtmlParser}
        {codec : JsonCodec}.

Lemma plain_atom_fields message_id sent_text i depth sender_email :
  let a := plain_atom message_id sent_text i depth sender_email in
  has_int a "sequenceIndex" (Z.of_nat i)
  /\ has_int a "quoteDepth" (Z.of_nat depth)
  /\ has_str a "content" sent_text
  /\ a !! "attributedTo"
     = Some (if (depth =? 0)%nat then of_opt sender_email else VNone)
  /\ a !! "attributionMethod" = None.
Proof. repeat split. Qed.

(** C7, as the code has it.  With html empty and plain present, the atoms
    are those of the sentences that are not blank; for the trimmed
    sentence [t] of an atom: when [t] does not begin with [>], the depth
    is 0, the content is [t] and the atom is attributed to the sender;
    when it does, the depth is the number of [>] characters anywhere in
    [t] (at least the number of leading ones), the content is [t] without
    its leading run of [>] and space characters, trimmed, and
    attributedTo is [None]; no atom has an attributionMethod at this
    stage. *)
Theorem plain_fallback_atoms message_id html_content plain_content0
    sender_email sentences :
  truthy_opt html_content = false ->
  truthy_opt plain_content0 = true ->
  sent_tokenize (default "" plain_content0) = Return sentences ->
  exists returned,
    atomize message_id html_content plain_content0 sender_email = Return returned
    /\ (forall j s,
          sentences !! j = Some s -> Str.nonempty (Str.strip s) = true ->
          exists a, a ∈ returned /\ has_int a "sequenceIndex" (Z.of_nat j))
    /\ forall a, a ∈ returned ->
         exists j s,
           sentences !! j = Some s
           /\ Str.nonempty (Str.strip s) = true
           /\ has_int a "sequenceIndex" (Z.of_nat j)
           /\ a !! "attributionMethod" = None
           /\ (Str.startswith ">" (Str.strip s) = false ->
               leading_markers (Str.strip s) = 0
               /\ has_int a "quoteDepth" 0
               /\ has_str a "content" (Str.strip s)
               /\ a !! "attributedTo" = Some (of_opt sender_email))
           /\ (Str.startswith ">" (Str.strip s) = true ->
               1 <= leading_markers (Str.strip s) <= Str.count ">" (Str.strip s)
               /\ has_int a "quoteDepth" (Z.of_nat (Str.count ">" (Str.strip s)))
               /\ has_str a "content"
                    (Str.strip (Str.lstrip_chars "> " (Str.strip s)))
               /\ a !! "attributedTo" = Some VNone).
Proof.
  intros Hh Hp Hs. unfold atomize. rewrite Hh, Hp. cbn [negb andb].
  unfold _atomize_plain, bind. rewrite Hs. eexists. split; [reflexivity|].
  rewrite plain_loop_new. cbn [app]. split.
  - intros j s Hj Hn. eexists. split.
    + apply plain_new_positions. exists j, s. repeat split; eassumption.
    + apply plain_atom_sequenceIndex.
  - intros a Ha. apply plain_new_positions in Ha as (j & s & Hj & Hn & ->).
    exists j, s. cbn [Nat.add].
    pose proof (plain_atom_fields message_id (plain_content (Str.strip s)) j
                  (plain_depth (Str.strip s)) sender_email) as F.
    cbv zeta in F.
    remember (plain_atom message_id (plain_content (Str.strip s)) j
                (plain_depth (Str.strip s)) sender_email) as a eqn:Ea.
    clear Ea. destruct F as (Hi & Hd & Hc & Hat & Hm).
    split; [exact Hj|]. split; [exact Hn|]. split; [exact Hi|].
    split; [exact Hm|].
    pose proof (startswith_marker (Str.strip s)) as Hsm.
    pose proof (leading_markers_count (Str.strip s)) as Hlc.
    unfold plain_depth, plain_content in Hd, Hc, Hat.
    split; intros Hsw; rewrite Hsw in Hd, Hc, Hat.
    + split; [|split; [exact Hd | split; [exact Hc | exact Hat]]].
      destruct (leading_markers (Str.strip s)); [reflexivity|].
      assert (Str.startswith ">" (Str.strip s) = true) by (apply Hsm; lia).
      congruence.
    + apply Hsm in Hsw.
      split; [lia | split; [exact Hd | split; [exact Hc|]]].
      destruct (Str.count ">" (Str.strip s)); [lia | exact Hat].
Qed.

End PlainFallback.

Lemma plain_fallback_atoms_witness :
  exists a,
    @atomize plain_digest one_sentence (parses_to (NavigableString ""))
      empty_dict_codec (Some "m1") None (Some ">> so > you said") (Some "me")
    = Return [a]
    /\ has_int a "quoteDepth" 3
    /\ has_str a "content" "so > you said"
    /\ a !! "attributedTo" = Some VNone.
Proof.
  destruct (@plain_fallback_atoms plain_digest one_sentence
              (parses_to (NavigableString "")) empty_dict_codec
              (Some "m1") None (Some ">> so > you said") (Some "me")
              [">> so > you said"] eq_refl eq_refl eq_refl)
    as (returned & Hr & _ & Hall).
  injection Hr as <-.
  exists (@plain_atom plain_digest (Some "m1") "so > you said" 0 3 (Some "me")).
  split; [reflexivity|].
  destruct (Hall _ (list_elem_of_here _ _)) as (j & s & Hj & _ & _ & _ & _ & Hq).
  destruct j as [|j]; [|discriminate Hj]. injection Hj as <-.
  destruct (Hq eq_refl) as (_ & Hd & Hc & Hat).
  split; [exact Hd|]. split; [exact Hc | exact Hat].
Defined.

(** The claim C7 as worded fails on two counts: the depth counts every
    [>] of the sentence, not the leading ones, and the depth-0 atom has
    no attributionMethod. *)
Lemma plain_fallback_claim_fails :
  (exists a,
      @atomize plain_digest one_sentence (parses_to (NavigableString ""))
        empty_dict_codec (Some "m1") None (Some "> a > b") (Some "me")
      = Return [a]
      /\ leading_markers "> a > b" = 1
      /\ has_int a "quoteDepth" 2)
  /\ (exists a,
        @atomize plain_digest one_sentence (parses_to (NavigableString ""))
          empty_dict_codec (Some "m1") None (Some "hello") (Some "me")
        = Return [a]
        /\ has_int a "quoteDepth" 0
        /\ a !! "attributionMethod" = None).
Proof.
  split.
  - exists (@plain_atom plain_digest (Some "m1") "a > b" 0 2 (Some "me")).
    repeat split; vm_compute; reflexivity.
  - exists (@plain_atom plain_digest (Some "m1") "hello" 0 0 (Some "me")).
    repeat split; vm_compute; reflexivity.
Qed.

(** ** The attribution engine *)

Section Attribution.

Context {codec : JsonCodec}.

Lemma style_doc_values (k : string) (d : list (string * string)) :
  exists o : option string,
    obj_lookup k ((fun kv => (kv.1, VStr kv.2)) <$> d) = VStr <$> o.
Proof.
  induction d as [|[k' v] d [o IH]]; [now exists None|].
  rewrite fmap_cons. cbn [obj_lookup fst snd]. rewrite IH.
  destruct o as [s|]; [now exists (Some s)|]. cbn [fmap option_fmap option_map].
  destruct (String.eqb k' k); [now exists (Some v) | now exists None].
Qed.

Lemma style_doc_lookup (k : string) (d : list (string * string)) :
  obj_lookup k ((fun kv => (kv.1, VStr kv.2)) <$> d) = VStr <$> style_lookup k d.
Proof.
  unfold style_lookup. destruct (style_doc_values k d) as [o ->].
  now destruct o.
Qed.

Lemma has_containing_style (d : list (string * string)) (k k2 : string) :
  has_containing (style_doc d) k k2
  = Return match style_lookup k d with
           | Some c => Str.contains k2 c
           | None => false
           end.
Proof.
  unfold has_containing, style_doc, py_in, py_getitem, bind.
  rewrite style_doc_lookup. now destruct (style_lookup k d).
Qed.

Lemma has_equal_style (d : list (string * string)) (k s : string) :
  has_equal (style_doc d) k s = Return (bool_decide (style_lookup k d = Some s)).
Proof.
  unfold has_equal, style_doc, py_in, py_getitem, bind.
  rewrite style_doc_lookup. destruct (style_lookup k d) as [c|]; cbn [fmap option_fmap option_map eq_str].
  - f_equal. destruct (String.eqb_spec c s) as [->|Hne].
    + now rewrite bool_decide_eq_true_2.
    + rewrite bool_decide_eq_false_2; [reflexivity | congruence].
  - now rewrite bool_decide_eq_false_2.
Qed.

Lemma is_aggressive_style_doc (d : list (string * string)) :
  is_aggressive_style (style_doc d) = Return (aggressive d).
Proof.
  unfold is_aggressive_style. destruct d as [|kv d]; [reflexivity|].
  cbn [style_doc truthy fmap list_fmap].
  change (VDict ((kv.1, VStr kv.2) :: list_fmap _ _ (fun kv => (kv.1, VStr kv.2)) d))
    with (style_doc (kv :: d)).
  rewrite has_containing_style, !has_equal_style. reflexivity.
Qed.

Lemma attribute_atom_policy (sender_email : option string) (atom : Atom)
    (d : list (string * string)) :
  parses_as atom d ->
  exists atom',
    attribute_atom atom sender_email = Return atom'
    /\ follows_policy sender_email d atom atom'.
Proof.
  unfold parses_as, attribute_atom, follows_policy. intros ->. cbn [bind].
  rewrite is_aggressive_style_doc. cbn [bind].
  destruct (eq_zero (dict_get atom "quoteDepth" (VInt 0))) eqn:Ez.
  - eexists. split; [reflexivity|]. unfold assigned, has_str.
    split; [|split].
    + intros _. split; now simplify_map_eq.
    + intros n Hn Hpos _. rewrite Hn in Ez. cbn in Ez. lia.
    + intros n Hn Hpos _. rewrite Hn in Ez. cbn in Ez. lia.
  - destruct (aggressive d) eqn:Ea; (eexists; split; [reflexivity|]);
      unfold assigned, has_str; (split; [|split]).
    + intros Hz. now rewrite Hz in Ez.
    + intros n _ _ _. split; now simplify_map_eq.
    + discriminate.
    + intros Hz. now rewrite Hz in Ez.
    + discriminate.
    + intros n _ _ _. split; now simplify_map_eq.
Qed.

(** On a batch whose atoms all load, the loop attributes every atom. *)
Lemma attribute_loop_policy (sender_email : option string) (atoms : list Atom)
    (styles : list (list (string * string))) :
  Forall2 parses_as atoms styles ->
  exists attributed,
    attribute_loop atoms sender_email = (attributed, None)
    /\ Forall2 (fun atom atom' => attribute_atom atom sender_email = Return atom')
         atoms attributed.
Proof.
  induction 1 as [|atom d atoms styles Hp _ IH].
  - exists []. split; [reflexivity | constructor].
  - destruct (attribute_atom_policy sender_email atom d Hp) as (atom' & Ha & _).
    destruct IH as (attributed & Hl & Hf).
    exists (atom' :: attributed). cbn [attribute_loop]. rewrite Ha, Hl.
    split; [reflexivity | now constructor].
Qed.

End Attribution.

Section AttributionClaims.

Context {codec : JsonCodec}.

Lemma attribute_atoms_of_loop (sender_email : option string) (atoms attributed : list Atom) :
  attribute_loop atoms sender_email = (attributed, None) ->
  attribute_atoms atoms sender_email = Return attributed.
Proof. unfold attribute_atoms. now intros ->. Qed.

(** C3, as the code has it.  On a batch whose atoms carry the JSON text
    of a style dict, [attribute_atoms] returns the atoms in order, each
    one attributed by the fixed policy: depth 0 to the sender by
    HEADER_DEPTH_0; a depth above 0 with a colour whose text contains the
    letters red, a bold weight or an uppercase transform to the sender by
    STYLE_INFERENCE_INTERJECTION; any other depth above 0 to the
    unresolved quoted party (the literal Quoted_Party) by QUOTE_DEPTH.
    So a depth-1 atom of colour red, or bold, or uppercase goes to the
    sender, and a depth-1 atom with the empty style to the quoted
    party. *)
Theorem attribution_policy (sender_email : option string) :
  (forall atoms styles,
      Forall2 parses_as atoms styles ->
      exists attributed,
        attribute_atoms atoms sender_email = Return attributed
        /\ length attributed = length atoms
        /\ forall i atom d,
             atoms !! i = Some atom -> styles !! i = Some d ->
             exists atom',
               attributed !! i = Some atom'
               /\ follows_policy sender_email d atom atom')
  /\ (forall atom d,
        parses_as atom d ->
        has_int atom "quoteDepth" 1 ->
        d = [("color", "red")] \/ d = [("font_weight", "bold")]
        \/ d = [("text_transform", "uppercase")] ->
        exists atom',
          attribute_atoms [atom] sender_email = Return [atom']
          /\ assigned atom' (of_opt sender_email) "STYLE_INFERENCE_INTERJECTION")
  /\ (forall atom,
        parses_as atom [] ->
        has_int atom "quoteDepth" 1 ->
        exists atom',
          attribute_atoms [atom] sender_email = Return [atom']
          /\ assigned atom' (VStr UNRESOLVED_QUOTED_PARTY) "QUOTE_DEPTH").
Proof.
  assert (Hone : forall atom d,
             parses_as atom d -> has_int atom "quoteDepth" 1 ->
             exists atom',
               attribute_atoms [atom] sender_email = Return [atom']
               /\ (aggressive d = true ->
                   assigned atom' (of_opt sender_email) "STYLE_INFERENCE_INTERJECTION")
               /\ (aggressive d = false ->
                   assigned atom' (VStr UNRESOLVED_QUOTED_PARTY) "QUOTE_DEPTH")).
  { intros atom d Hp Hd.
    destruct (attribute_atom_policy sender_email atom d Hp) as (atom' & Ha & _ & Hagg & Hq).
    exists atom'. unfold attribute_atoms. cbn [attribute_loop]. rewrite Ha.
    assert (Hdepth : dict_get atom "quoteDepth" (VInt 0) = VInt 1)
      by (unfold dict_get; now rewrite Hd).
    split; [reflexivity|]. split; intros E.
    - now apply (Hagg 1%Z).
    - now apply (Hq 1%Z). }
  split; [|split].
  - intros atoms styles Hp.
    destruct (attribute_loop_policy sender_email atoms styles Hp) as (attributed & Hl & Hf).
    exists attributed. split; [now apply attribute_atoms_of_loop|].
    split; [symmetry; eapply Forall2_length, Hf|].
    intros i atom d Hi Hs.
    destruct (Forall2_lookup_l _ _ _ _ _ Hf Hi) as (atom' & Hi' & Ha).
    exists atom'. split; [exact Hi'|].
    pose proof (Forall2_lookup_lr _ _ _ _ _ _ Hp Hi Hs) as Hpd.
    destruct (attribute_atom_policy sender_email atom d Hpd) as (atom2 & Ha2 & Hpol).
    rewrite Ha in Ha2. now injection Ha2 as <-.
  - intros atom d Hp Hd Hstyle.
    destruct (Hone atom d Hp Hd) as (atom' & Ha & Hagg & _).
    exists atom'. split; [exact Ha|]. apply Hagg.
    destruct Hstyle as [-> | [-> | ->]]; reflexivity.
  - intros atom Hp Hd.
    destruct (Hone atom [] Hp Hd) as (atom' & Ha & _ & Hq).
    exists atom'. split; [exact Ha|]. now apply Hq.
Qed.

(** C6, as the code has it.  A visualStyle that is missing, or is the
    text of the empty dict, is read as the empty style and attributed by
    the policy; on a batch whose atoms all carry the JSON text of a style
    dict (or none) the call returns every atom; an atom whose visualStyle
    does not load makes the body of the loop raise what [json.loads]
    raised; and at the first atom on which the body raises, the call
    raises that exception, with the atoms before it attributed and that
    atom and the ones after it as they were. *)
Theorem attribution_stops_at_malformed (sender_email : option string)
    (empty_dict_text : json_parse "{}" = Some (VDict [])) :
  (forall atom,
      atom !! "visualStyle" = None \/ has_str atom "visualStyle" "{}" ->
      parses_as atom []
      /\ exists atom',
           attribute_atom atom sender_email = Return atom'
           /\ follows_policy sender_email [] atom atom')
  /\ (forall atoms,
        Forall (fun atom => exists d, parses_as atom d) atoms ->
        exists attributed,
          attribute_atoms atoms sender_email = Return attributed
          /\ length attributed = length atoms)
  /\ (forall atom e,
        json_loads (dict_get atom "visualStyle" (VStr "{}")) = Raise e ->
        attribute_atom atom sender_email = Raise e)
  /\ (forall before atom after e,
        Forall (fun atom => exists d, parses_as atom d) before ->
        attribute_atom atom sender_email = Raise e ->
        exists attributed,
          attribute_atoms before sender_email = Return attributed
          /\ attribute_atoms (before ++ atom :: after) sender_email = Raise e
          /\ attribute_loop (before ++ atom :: after) sender_email
             = (attributed ++ atom :: after, Some e)).
Proof.
  assert (Hstyles : forall atoms,
             Forall (fun atom => exists d, parses_as atom d) atoms ->
             exists styles, Forall2 parses_as atoms styles).
  { induction 1 as [|atom atoms [d Hd] _ [styles IH]].
    - exists []. constructor.
    - exists (d :: styles). now constructor. }
  split; [|split; [|split]].
  - intros atom Hm.
    assert (Hp : parses_as atom []).
    { unfold parses_as, dict_get.
      destruct Hm as [Hm|Hm]; [|unfold has_str in Hm]; rewrite Hm;
        cbn; now rewrite empty_dict_text. }
    split; [exact Hp | now apply attribute_atom_policy].
  - intros atoms Hall. destruct (Hstyles atoms Hall) as [styles Hp].
    destruct (attribute_loop_policy sender_email atoms styles Hp) as (attributed & Hl & Hf).
    exists attributed. split; [now apply attribute_atoms_of_loop|].
    symmetry. eapply Forall2_length, Hf.
  - intros atom e He. unfold attribute_atom. now rewrite He.
  - intros before atom after e Hall He.
    destruct (Hstyles before Hall) as [styles Hp].
    destruct (attribute_loop_policy sender_email before styles Hp) as (attributed & Hl & Hf).
    exists attributed. split; [now apply attribute_atoms_of_loop|].
    assert (Hloop : attribute_loop (before ++ atom :: after) sender_email
                    = (attributed ++ atom :: after, Some e)).
    { clear Hl Hp Hall. induction Hf as [|a a' before attributed Ha _ IH].
      - cbn [app attribute_loop]. now rewrite He.
      - cbn [app attribute_loop]. rewrite Ha, IH. reflexivity. }
    split; [|exact Hloop]. unfold attribute_atoms. now rewrite Hloop.
Qed.

End AttributionClaims.

Lemma attribution_policy_witness :
  exists atom',
    @attribute_atoms empty_dict_codec
      [list_to_map [("quoteDepth", VInt 1); ("visualStyle", VStr "{}")]]
      (Some "mark@roofer.com")
    = Return [atom']
    /\ assigned atom' (VStr UNRESOLVED_QUOTED_PARTY) "QUOTE_DEPTH".
Proof.
  destruct (@attribution_policy empty_dict_codec (Some "mark@roofer.com"))
    as (_ & _ & Hempty).
  apply Hempty; reflexivity.
Defined.

(** The claim C3 as worded fails: the engine does not know the red
    family of colours, it looks for the letters red in the colour value.
    A depth-1 atom whose colour is #ff0000, or crimson, is attributed to
    the quoted party by QUOTE_DEPTH, and one whose colour value is the
    word predefined, which names no colour, to the sender by
    STYLE_INFERENCE_INTERJECTION.  Such atoms are what the atomizer
    returns: it stores the colour value of a style attribute as written,
    in lowercase, as for the span of the quoted reply below. *)
Lemma red_family_claim_fails :
  let sender := Some "mark@roofer.com" in
  let styled (colour : string) : Atom :=
    list_to_map
      [("quoteDepth", VInt 1);
       ("visualStyle",
        VStr (@json_dumps tagged_codec (style_doc [("color", colour)])))] in
  let quoted_reply :=
    Tag "body" ∅
      [Tag "blockquote" ∅
         [Tag "span" {["style" := AttrStr "color: #FF0000"]}
            [NavigableString "I never agreed to that."]]] in
  (exists atom',
      @attribute_atoms tagged_codec [styled "#ff0000"] sender = Return [atom']
      /\ assigned atom' (VStr UNRESOLVED_QUOTED_PARTY) "QUOTE_DEPTH")
  /\ (exists atom',
        @attribute_atoms tagged_codec [styled "crimson"] sender = Return [atom']
        /\ assigned atom' (VStr UNRESOLVED_QUOTED_PARTY) "QUOTE_DEPTH")
  /\ (exists atom',
        @attribute_atoms tagged_codec [styled "predefined"] sender = Return [atom']
        /\ assigned atom' (of_opt sender) "STYLE_INFERENCE_INTERJECTION")
  /\ (exists atom atom',
        @atomize plain_digest one_sentence (parses_to quoted_reply) tagged_codec
          (Some "m1") (Some "<body>") None sender
        = Return [atom]
        /\ atom = @html_atom plain_digest tagged_codec (Some "m1")
                    "I never agreed to that." 0 1 {["color" := "#ff0000"]}
        /\ @attribute_atoms tagged_codec [atom] sender = Return [atom']
        /\ assigned atom' (VStr UNRESOLVED_QUOTED_PARTY) "QUOTE_DEPTH").
Proof.
  cbv zeta. split; [|split; [|split]].
  - eexists. split; [reflexivity|]. split; reflexivity.
  - eexists. split; [reflexivity|]. split; reflexivity.
  - eexists. split; [reflexivity|]. split; reflexivity.
  - do 2 eexists. split; [reflexivity|]. split; [reflexivity|].
    split; [reflexivity|]. split; reflexivity.
Qed.

Lemma attribution_stops_at_malformed_witness :
  exists attributed,
    @attribute_atoms empty_dict_codec
      [list_to_map [("quoteDepth", VInt 0)]] (Some "mark@roofer.com")
    = Return attributed
    /\ @attribute_atoms empty_dict_codec
         ([list_to_map [("quoteDepth", VInt 0)]]
          ++ list_to_map [("quoteDepth", VInt 1); ("visualStyle", VStr "{color")]
             :: [list_to_map [("quoteDepth", VInt 0); ("visualStyle", VStr "{}")]])
         (Some "mark@roofer.com")
       = Raise JSONDecodeError.
Proof.
  destruct (@attribution_stops_at_malformed empty_dict_codec
              (Some "mark@roofer.com") eq_refl)
    as (Hmissing & _ & Hloads & Hstop).
  destruct (Hstop [list_to_map [("quoteDepth", VInt 0)]]
              (list_to_map [("quoteDepth", VInt 1); ("visualStyle", VStr "{color")])
              [list_to_map [("quoteDepth", VInt 0); ("visualStyle", VStr "{}")]]
              JSONDecodeError)
    as (attributed & Ha & Hr & _).
  - constructor; [|constructor]. exists []. apply Hmissing. left. reflexivity.
  - apply Hloads. reflexivity.
  - exists attributed. split; [exact Ha | exact Hr].
Defined.

(** The claim C6 as worded fails: a batch with an atom whose visualStyle
    is not JSON text raises, and the atom after it is left without an
    attribution; so does an atom whose visualStyle is the empty text. *)
Lemma malformed_atom_aborts_batch :
  let bad : Atom :=
    list_to_map [("quoteDepth", VInt 1); ("visualStyle", VStr "{color")] in
  let good : Atom :=
    list_to_map [("quoteDepth", VInt 0); ("visualStyle", VStr "{}")] in
  let blank : Atom :=
    list_to_map [("quoteDepth", VInt 0); ("visualStyle", VStr "")] in
  @attribute_atoms empty_dict_codec [bad; good] (Some "mark@roofer.com")
  = Raise JSONDecodeError
  /\ @attribute_loop empty_dict_codec [bad; good] (Some "mark@roofer.com")
     = ([bad; good], Some JSONDecodeError)
  /\ good !! "attributedTo" = None
  /\ raised (@attribute_atoms empty_dict_codec [good] (Some "mark@roofer.com"))
     = None
  /\ @attribute_atoms empty_dict_codec [blank] (Some "mark@roofer.com")
     = Raise JSONDecodeError.
Proof.
  cbv zeta. repeat split; vm_compute; reflexivity.
Qed.

Lemma quote_depth_compounds_witness :
  exists new,
    [@html_atom plain_digest empty_dict_codec (Some "m1") "Did you get it?" 0 2 ∅]
    = [] ++ new
    /\ Forall (fun a => has_int a "quoteDepth" (Z.of_nat 0 + 2)) new.
Proof.
  destruct (@quote_depth_compounds plain_digest one_sentence
              (parses_to (NavigableString "")) empty_dict_codec (Some "m1"))
    as (_ & _ & _ & _ & Hnested & _).
  exact (Hnested ∅ ∅ "Did you get it?" 0 ∅ (Walk [] 0)
           (Walk [@html_atom plain_digest empty_dict_codec (Some "m1")
                    "Did you get it?" 0 2 ∅] 1)
           eq_refl).
Defined.

(** ** Runs of the pipeline *)

Section Runs.

Context {hashing : Hashing} {segmenter : Segmenter} {parser : HtmlParser}
        {codec : JsonCodec} {outside : Outside}.

Lemma pbind_run {A B : Type} (m : Pipe A) (k : A -> Pipe B) (w : World) :
  pbind m k w
  = match m w with
    | (Raise e, w', evs) => (Raise e, w', evs)
    | (Return a, w', evs) =>
        let '(r, w'', evs') := k a w' in (r, w'', evs ++ evs')
    end.
Proof. reflexivity. Qed.

Lemma quiet_ret {A : Type} P (a : A) : quiet P (ret a).
Proof. intros w. constructor. Qed.

Lemma quiet_raise {A : Type} P (e : exn) : quiet P (raise (A:=A) e).
Proof. intros w. constructor. Qed.

Lemma quiet_lift {A : Type} P (r : result A) : quiet P (lift r).
Proof. intros w. constructor. Qed.

Lemma quiet_record P (ev : event) : P ev -> quiet P (record ev).
Proof. intros Hev w. now repeat constructor. Qed.

Lemma quiet_exchange P (req : request) :
  (forall reply, P (Requested req reply)) -> quiet P (exchange req).
Proof.
  intros Hreq w. unfold exchange. destruct (worker w req) as [reply w'].
  now repeat constructor.
Qed.

Lemma quiet_attempt {A : Type} P (m : Pipe A) : quiet P m -> quiet P (attempt m).
Proof.
  intros Hm w. specialize (Hm w). unfold attempt.
  now destruct (m w) as [[r w'] evs].
Qed.

Lemma quiet_pbind {A B : Type} P (m : Pipe A) (k : A -> Pipe B) :
  quiet P m -> (forall a, quiet P (k a)) -> quiet P (pbind m k).
Proof.
  intros Hm Hk w. specialize (Hm w). rewrite pbind_run.
  destruct (m w) as [[[e|a] w'] evs]; [exact Hm|].
  specialize (Hk a w'). destruct (k a w') as [[r w''] evs'].
  now apply Forall_app.
Qed.

Lemma run_sat_pbind {A B : Type} P (Phi : result B -> list event -> Prop)
    (m : Pipe A) (k : A -> Pipe B) :
  closed_under P Phi -> quiet P m -> (forall a, run_sat Phi (k a)) ->
  run_sat Phi (pbind m k).
Proof.
  intros [Hraise Hpre] Hm Hk w. specialize (Hm w). rewrite pbind_run.
  destruct (m w) as [[[e|a] w'] evs]; [now apply Hraise|].
  specialize (Hk a w'). destruct (k a w') as [[r w''] evs'].
  now apply Hpre.
Qed.

End Runs.

(** One step of a proof that a pipeline step is quiet. *)
Ltac quiet_step :=
  first
    [ apply quiet_ret
    | apply quiet_raise
    | apply quiet_lift
    | apply quiet_record
    | apply quiet_exchange; intros ?
    | apply quiet_attempt
    | apply quiet_pbind; [|intros ?]
    | match goal with
      | |- quiet _ (match ?x with _ => _ end) => destruct x
      end ].

Ltac quiet_steps := repeat quiet_step; try reflexivity.

Section Quiet.

Context {hashing : Hashing} {segmenter : Segmenter} {parser : HtmlParser}
        {codec : JsonCodec} {outside : Outside}.

Lemma quiet_log_event P type step_name :
  lets_prelude P -> quiet P (log_event type step_name).
Proof. intros (Hlog & _). unfold log_event. quiet_steps. apply Hlog. Qed.

Lemma quiet_info P step_name : lets_prelude P -> quiet P (info step_name).
Proof. apply quiet_log_event. Qed.

Lemma quiet_error P step_name : lets_prelude P -> quiet P (error step_name).
Proof. apply quiet_log_event. Qed.

Lemma quiet_warning P step_name : lets_prelude P -> quiet P (warning step_name).
Proof. apply quiet_log_event. Qed.

Lemma quiet_emit P self event_type :
  lets_prelude P -> quiet P (_emit self event_type).
Proof.
  intros (_ & Hemit & _). unfold _emit. destruct (monitor self); quiet_steps.
  apply Hemit.
Qed.

Lemma quiet_fetch_from_gmail P message_id c :
  lets_prelude P -> quiet P (fetch_from_gmail message_id c).
Proof.
  intros HP. unfold fetch_from_gmail. apply quiet_pbind.
  - intros w. destruct (gmail w message_id c) as [[c' o] w'].
    repeat constructor. apply HP.
  - intros [c' [parsed|e]]; quiet_steps; apply HP.
Qed.

Lemma quiet_extract_content P self message_payload :
  lets_prelude P -> quiet P (extract_content self message_payload).
Proof.
  intros HP. unfold extract_content. apply quiet_pbind; [now apply quiet_info|].
  intros _. apply quiet_pbind; [now apply quiet_emit|]. intros _.
  destruct (_ && _); [now apply quiet_fetch_from_gmail | apply quiet_ret].
Qed.

End Quiet.

(** ** The idempotency gate *)

Lemma no_create_in (evs : list event) (message_data : db_message)
    (reply : http_reply) :
  Forall (fun ev => is_create ev = false) evs ->
  Requested (POST_message_create message_data) reply ∉ evs.
Proof.
  intros Hall Hin. rewrite Forall_forall in Hall.
  specialize (Hall _ Hin). discriminate.
Qed.

Lemma skip_outcome_closed : closed_under before_gate skip_outcome.
Proof.
  split.
  - intros e evs Hall message_data reply e' Hin _. exfalso.
    eapply no_create_in; [|exact Hin].
    eapply Forall_impl; [exact Hall|]. now intros ev [? _].
  - intros r pre evs Hpre Hphi message_data reply e Hin He.
    apply elem_of_app in Hin as [Hin|Hin].
    + exfalso. eapply no_create_in; [|exact Hin].
      eapply Forall_impl; [exact Hpre|]. now intros ev [? _].
    + destruct (Hphi _ _ _ Hin He) as (Hr & before & log_reply & -> & Hb).
      split; [exact Hr|]. exists (pre ++ before), log_reply.
      split; [now rewrite app_assoc | now apply Forall_app].
Qed.

Section Gate.

Context {hashing : Hashing} {segmenter : Segmenter} {parser : HtmlParser}
        {codec : JsonCodec} {outside : Outside}.

Lemma before_gate_prelude : lets_prelude before_gate.
Proof. repeat split. Qed.

(** Steps 2 to 6 never create a message record. *)
Lemma analyse_no_create self message_id c :
  quiet (fun ev => is_create ev = false) (analyse self message_id c).
Proof.
  unfold analyse, save_and_store, classify, classify_batch, _invoke, run_agent,
    batch_create_transcripts, store_analysis, _post, info, error, log_event, _emit.
  quiet_steps.
Qed.

Lemma gate_skip_outcome self message_payload c :
  run_sat skip_outcome
    (pbind (attempt (create_message (make_db_message self message_payload c)))
       (fun r =>
          match r with
          | Raise e => pbind (info "process_message") (fun _ => ret skipped_duplicate)
          | Return _ => analyse self (messageId message_payload) c
          end)).
Proof.
  intros w. rewrite pbind_run. unfold attempt, create_message, _post.
  rewrite pbind_run. unfold exchange, lift.
  destruct (worker w (POST_message_create _)) as [reply0 w1].
  destruct (_request reply0) as [e0|v] eqn:E0.
  - rewrite pbind_run. unfold info, log_event. rewrite pbind_run. unfold exchange.
    destruct (worker w1 (POST_log "INFO" "process_message")) as [reply1 w2].
    cbn. intros message_data reply e Hin He.
    apply elem_of_cons in Hin as [Hin|Hin].
    + injection Hin as -> ->. split; [reflexivity|].
      exists [], reply1. split; [reflexivity | constructor].
    + apply list_elem_of_singleton in Hin. discriminate.
  - pose proof (analyse_no_create self (messageId message_payload) c w1) as Hq.
    destruct (analyse self (messageId message_payload) c w1) as [[r w2] evs].
    cbn in Hq |- *. intros message_data reply e Hin He.
    apply elem_of_cons in Hin as [Hin|Hin].
    + injection Hin as -> ->. congruence.
    + exfalso. eapply no_create_in; eassumption.
Qed.

(** A run of [process_message] that saw its message creation raise. *)
Lemma process_message_skip self message_payload :
  run_sat skip_outcome (process_message self message_payload).
Proof.
  unfold process_message.
  apply (run_sat_pbind before_gate); [apply skip_outcome_closed | |].
  { apply quiet_extract_content, before_gate_prelude. }
  intros c.
  apply (run_sat_pbind before_gate); [apply skip_outcome_closed | |].
  { apply quiet_info, before_gate_prelude. }
  intros _. apply gate_skip_outcome.
Qed.

End Gate.

Section GateClaims.

Context {hashing : Hashing} {segmenter : Segmenter} {parser : HtmlParser}
        {codec : JsonCodec} {outside : Outside}.

(** C9.  Whatever exception the message creation raises (a duplicate
    answer, a lost connection, a server error), [process_message] returns
    status "skipped" with reason "duplicate", and the only thing it does
    after the creation is to write one log line; a lost connection at the
    creation is one such case. *)
Theorem creation_failure_is_skipped (self : ACREPipeline)
    (message_payload : payload) (w : World) :
  (forall message_data reply e,
      Requested (POST_message_create message_data) reply
        ∈ (process_message self message_payload w).2 ->
      _request reply = Raise e ->
      exists status_dict,
        (process_message self message_payload w).1.1 = Return status_dict
        /\ has_str status_dict "status" "skipped"
        /\ has_str status_dict "reason" "duplicate"
        /\ exists before log_reply,
             (process_message self message_payload w).2
             = before
               ++ [ Requested (POST_message_create message_data) reply;
                    Requested (POST_log "INFO" "process_message") log_reply ]
             /\ Forall before_gate before)
  /\ (forall message_data,
        Requested (POST_message_create message_data) NoReply
          ∈ (process_message self message_payload w).2 ->
        exists status_dict,
          (process_message self message_payload w).1.1 = Return status_dict
          /\ has_str status_dict "status" "skipped"
          /\ ~ has_str status_dict "status" "error").
Proof.
  split.
  - intros message_data reply e Hin He.
    destruct (process_message_skip self message_payload w _ _ _ Hin He)
      as (Hr & Hshape).
    exists skipped_duplicate. split; [exact Hr|]. split; [reflexivity|].
    split; [reflexivity | exact Hshape].
  - intros message_data Hin.
    destruct (process_message_skip self message_payload w _ _ ConnectionError Hin eq_refl)
      as (Hr & _).
    exists skipped_duplicate. split; [exact Hr|]. split; [reflexivity|].
    unfold has_str. now vm_compute.
Qed.

(** A run that saw its message creation raise returned "skipped" and
    holds no call of atomize or attribute_atoms, no classification, no
    transcript write and no analysis write. *)
Lemma duplicate_skips_processing (self : ACREPipeline)
    (message_payload : payload) (w : World) message_data reply e :
  Requested (POST_message_create message_data) reply
    ∈ (process_message self message_payload w).2 ->
  _request reply = Raise e ->
  (process_message self message_payload w).1.1 = Return skipped_duplicate
  /\ Forall (fun ev => is_processing ev = false)
       (process_message self message_payload w).2.
Proof.
  intros Hin He.
  destruct (process_message_skip self message_payload w _ _ _ Hin He)
    as (Hr & before & log_reply & -> & Hb).
  split; [exact Hr|]. apply Forall_app. split.
  - eapply Forall_impl; [exact Hb|]. now intros ev [_ ?].
  - now repeat constructor.
Qed.

End GateClaims.

Lemma creation_failure_is_skipped_witness :
  exists status_dict,
    (@process_message plain_digest one_sentence (parses_to (NavigableString "hello"))
       empty_dict_codec (scripted_outside create_unreachable)
       (Pipeline "default" "INITIAL_PROCESSING" None false)
       (Payload (Some "m1") None ∅ (Some "hello") (Some "")) tt).1.1
    = Return status_dict
    /\ has_str status_dict "status" "skipped"
    /\ has_str status_dict "reason" "duplicate".
Proof.
  destruct (@creation_failure_is_skipped plain_digest one_sentence
              (parses_to (NavigableString "hello")) empty_dict_codec
              (scripted_outside create_unreachable)
              (Pipeline "default" "INITIAL_PROCESSING" None false)
              (Payload (Some "m1") None ∅ (Some "hello") (Some "")) tt)
    as (Hany & _).
  destruct (Hany (DbMessage (Some "m1") "default" None None None None
                    (Some "hello") (Some "") None ∅)
              NoReply ConnectionError)
    as (status_dict & Hr & Hs & Hd & _).
  - vm_compute. apply list_elem_of_further, list_elem_of_further, list_elem_of_here.
  - reflexivity.
  - exists status_dict. split; [exact Hr|]. split; [exact Hs | exact Hd].
Defined.

(** ** Submitting a message twice *)

Section Keeps.

Context {hashing : Hashing} {segmenter : Segmenter} {parser : HtmlParser}
        {codec : JsonCodec} {outside : Outside}.

Context (R : World -> World -> Prop) (HR : PreOrder R).

Lemma keeps_ret {A : Type} (a : A) : keeps R (ret a).
Proof. intros w. apply HR. Qed.

Lemma keeps_raise {A : Type} (e : exn) : keeps R (raise (A:=A) e).
Proof. intros w. apply HR. Qed.

Lemma keeps_lift {A : Type} (r : result A) : keeps R (lift r).
Proof. intros w. apply HR. Qed.

Lemma keeps_record (ev : event) : keeps R (record ev).
Proof. intros w. apply HR. Qed.

Lemma keeps_exchange (req : request) :
  (forall w, R w (worker w req).2) -> keeps R (exchange req).
Proof.
  intros Hw w. specialize (Hw w). unfold exchange.
  now destruct (worker w req) as [reply w'].
Qed.

Lemma keeps_attempt {A : Type} (m : Pipe A) : keeps R m -> keeps R (attempt m).
Proof.
  intros Hm w. specialize (Hm w). unfold attempt.
  now destruct (m w) as [[r w'] evs].
Qed.

Lemma keeps_pbind {A B : Type} (m : Pipe A) (k : A -> Pipe B) :
  keeps R m -> (forall a, keeps R (k a)) -> keeps R (pbind m k).
Proof.
  intros Hm Hk w. specialize (Hm w). rewrite pbind_run.
  destruct (m w) as [[[e|a] w'] evs]; [exact Hm|].
  specialize (Hk a w'). destruct (k a w') as [[r w''] evs'].
  cbn in *. destruct HR as [_ Htrans]. now apply (Htrans w w' w'').
Qed.

End Keeps.

Lemma pbind_world `{Outside} {A B : Type} (m : Pipe A) (k : A -> Pipe B) (w : World) :
  (pbind m k w).1.2
  = match (m w).1.1 with
    | Raise _ => (m w).1.2
    | Return a => (k a (m w).1.2).1.2
    end.
Proof.
  rewrite pbind_run. destruct (m w) as [[[e|a] w'] evs]; [reflexivity|].
  cbn. now destruct (k a w') as [[r w''] evs'].
Qed.

Ltac keeps_step :=
  first
    [ apply keeps_ret
    | apply keeps_raise
    | apply keeps_lift
    | apply keeps_record
    | apply keeps_exchange
    | apply keeps_attempt
    | apply keeps_pbind; [| |intros ?]
    | match goal with
      | |- keeps _ (match ?x with _ => _ end) => destruct x
      end ].

Section Twice.

Context {hashing : Hashing} {segmenter : Segmenter} {parser : HtmlParser}
        {codec : JsonCodec}.
Context (script : backend -> request -> option http_reply)
        (gmail_block : backend -> option string -> content -> content * gmail_outcome).

Local Abbreviation the_backend := (backend_outside script gmail_block).
Local Abbreviation steady := (steady_on script gmail_block).

#[local] Instance remembers_preorder : PreOrder remembers.
Proof. split; [now intros b x | intros b1 b2 b3 H12 H23 x Hx; now apply H23, H12]. Qed.

Lemma backend_worker_remembers (b : backend) (req : request) :
  remembers b (backend_worker script b req).2.
Proof.
  intros x Hx. destruct req; cbn; try assumption.
  - destruct (bool_decide _); cbn; [assumption | now apply list_elem_of_further].
  - now destruct (succeeded _).
  - now destruct (succeeded _).
Qed.

Lemma analyse_remembers self message_id c :
  keeps (outside := the_backend) remembers (analyse self message_id c).
Proof.
  unfold analyse, save_and_store, classify, classify_batch, _invoke, run_agent,
    batch_create_transcripts, store_analysis, _post, info, error, log_event, _emit.
  repeat keeps_step; try apply remembers_preorder; intros b; apply backend_worker_remembers.
Qed.

Lemma steady_ret {A : Type} (a : A) : steady (ret a).
Proof. intros b. exists a, []. split; [reflexivity | constructor]. Qed.

Lemma steady_pbind {A B : Type} (m : Pipe A) (k : A -> Pipe B) :
  steady m -> (forall a, steady (k a)) -> steady (pbind m k).
Proof.
  intros Hm Hk b. destruct (Hm b) as (a & evs & Em & Hevs).
  destruct (Hk a b) as (a' & evs' & Ek & Hevs').
  exists a', (evs ++ evs'). rewrite pbind_run, Em, Ek.
  split; [reflexivity | now apply Forall_app].
Qed.

Lemma steady_log_event type step_name : steady (log_event type step_name).
Proof.
  intros b. eexists tt, _. split; [reflexivity|]. now repeat constructor.
Qed.

Lemma steady_emit self event_type : steady (_emit self event_type).
Proof.
  intros b. unfold _emit. destruct (monitor self).
  - exists tt, [Emitted event_type]. split; [reflexivity | now repeat constructor].
  - apply steady_ret.
Qed.

Lemma steady_fetch_from_gmail message_id c : steady (fetch_from_gmail message_id c).
Proof.
  unfold fetch_from_gmail. apply steady_pbind.
  - intros b. cbn. destruct (gmail_block b message_id c) as [c' o].
    eexists _, _. split; [reflexivity | now repeat constructor].
  - intros [c' [[|]|e]]; cbv beta iota;
      repeat first [ apply steady_ret | apply steady_log_event
                   | apply steady_pbind; [|intros ?] ].
Qed.

Lemma steady_extract_content self message_payload :
  steady (extract_content self message_payload).
Proof.
  unfold extract_content.
  apply steady_pbind; [apply steady_log_event | intros _].
  apply steady_pbind; [apply steady_emit | intros _].
  destruct (_ && _); [apply steady_fetch_from_gmail | apply steady_ret].
Qed.

(** The second submission: the record is there, the run is skipped and
    the backend is left as it was. *)
Lemma known_message_skipped self message_payload (b : backend) :
  messageId message_payload ∈ message_ids b ->
  exists evs,
    process_message (outside := the_backend) self message_payload b
    = (Return skipped_duplicate, b, evs)
    /\ Forall (fun ev => is_processing ev = false) evs.
Proof.
  intros Hknown. unfold process_message. rewrite pbind_run.
  destruct (steady_extract_content self message_payload b) as (c & evs1 & -> & H1).
  rewrite pbind_run.
  destruct (steady_log_event "INFO" "process_message" b) as ([] & evs2 & E2 & H2).
  unfold info. rewrite E2. rewrite pbind_run.
  unfold attempt, create_message, _post. rewrite pbind_run. unfold exchange.
  cbn [worker backend_outside backend_worker make_db_message m_messageId].
  rewrite bool_decide_eq_true_2 by exact Hknown.
  cbn [lift _request Nat.eqb orb andb Nat.leb Nat.ltb].
  rewrite pbind_run. unfold info. rewrite E2.
  eexists. split; [reflexivity|].
  repeat (apply Forall_app; split); try (eapply Forall_impl; [eassumption|]; now intros ev [_ ?]).
  all: now repeat constructor.
Qed.

Lemma attempt_create_backend (message_data : db_message) (b : backend) :
  attempt (outside := the_backend) (create_message message_data) b
  = if bool_decide (m_messageId message_data ∈ message_ids b)
    then (Return (Raise (HTTPError 409)), b,
          [Requested (POST_message_create message_data) (Reply 409 None)])
    else (Return (Return (VDict [])),
          Backend (m_messageId message_data :: message_ids b)
            (transcript_rows b) (analysis_rows b),
          [Requested (POST_message_create message_data) ok_reply]).
Proof.
  unfold attempt, create_message, _post. rewrite pbind_run. unfold exchange.
  cbn [worker backend_outside backend_worker].
  now destruct (bool_decide _).
Qed.

(** The first submission leaves the record of the message behind. *)
Lemma message_recorded self message_payload (b : backend) :
  messageId message_payload
    ∈ message_ids
        (process_message (outside := the_backend) self message_payload b).1.2.
Proof.
  unfold process_message. rewrite pbind_world.
  destruct (steady_extract_content self message_payload b) as (c & evs1 & -> & H1).
  cbn [fst snd]. rewrite pbind_world.
  destruct (steady_log_event "INFO" "process_message" b) as ([] & evs2 & E2 & H2).
  unfold info. rewrite E2. cbn [fst snd]. rewrite pbind_world.
  rewrite attempt_create_backend. cbn [make_db_message m_messageId].
  destruct (bool_decide_reflect (messageId message_payload ∈ message_ids b)) as [Hin|Hout];
    cbn [fst snd].
  - rewrite pbind_world. unfold info. rewrite E2. exact Hin.
  - apply (analyse_remembers self (messageId message_payload) c). cbn.
    apply list_elem_of_here.
Qed.

End Twice.

(** C2.  When the message creation reports that the record exists (the
    call raises), [process_message] returns status "skipped" and its run
    holds no call of atomize or attribute_atoms, no classification and no
    transcript or analysis write.  With a Worker that keeps one record per
    message id, a second submission of a message is skipped whatever the
    first one did, and writes no transcript. *)
Theorem duplicate_message_is_skipped
    {hashing : Hashing} {segmenter : Segmenter} {parser : HtmlParser}
    {codec : JsonCodec} :
  (forall (outside : Outside) self message_payload (w : World)
          message_data reply e,
      Requested (POST_message_create message_data) reply
        ∈ (process_message self message_payload w).2 ->
      _request reply = Raise e ->
      exists status_dict,
        (process_message self message_payload w).1.1 = Return status_dict
        /\ has_str status_dict "status" "skipped"
        /\ Forall (fun ev => is_processing ev = false)
             (process_message self message_payload w).2)
  /\ (forall script gmail_block self message_payload (b : backend),
        let first :=
          @process_message _ _ _ _ (backend_outside script gmail_block)
            self message_payload b in
        let second :=
          @process_message _ _ _ _ (backend_outside script gmail_block)
            self message_payload first.1.2 in
        exists status_dict,
          second.1.1 = Return status_dict
          /\ has_str status_dict "status" "skipped"
          /\ Forall (fun ev => is_processing ev = false) second.2
          /\ transcript_rows second.1.2 = transcript_rows first.1.2).
Proof.
  split.
  - intros outside self message_payload w message_data reply e Hin He.
    destruct (duplicate_skips_processing self message_payload w _ _ _ Hin He)
      as (Hr & Hq).
    exists skipped_duplicate. split; [exact Hr|]. split; [reflexivity | exact Hq].
  - intros script gmail_block self message_payload b first second.
    destruct (known_message_skipped script gmail_block self message_payload
                first.1.2 (message_recorded script gmail_block self message_payload b))
      as (evs & Hsecond & Hq).
    exists skipped_duplicate. subst second.
    rewrite Hsecond. cbn [fst snd]. repeat split; assumption.
Qed.

Lemma duplicate_message_is_skipped_witness :
  let run b :=
    @process_message plain_digest one_sentence (parses_to (NavigableString "hello"))
      empty_dict_codec (backend_outside no_script no_gmail)
      (Pipeline "default" "INITIAL_PROCESSING" None false)
      (Payload (Some "m1") None ∅ (Some "hello") (Some "")) b in
  (exists status_dict,
      (run (Backend [Some "m1"] [] [])).1.1 = Return status_dict
      /\ has_str status_dict "status" "skipped"
      /\ Forall (fun ev => is_processing ev = false)
           (run (Backend [Some "m1"] [] [])).2)
  /\ (exists status_dict,
        (run (run empty_backend).1.2).1.1 = Return status_dict
        /\ has_str status_dict "status" "skipped"
        /\ transcript_rows (run (run empty_backend).1.2).1.2
           = transcript_rows (run empty_backend).1.2).
Proof.
  intros run.
  destruct (@duplicate_message_is_skipped plain_digest one_sentence
              (parses_to (NavigableString "hello")) empty_dict_codec)
    as (Hfirst & Htwice).
  split.
  - apply (Hfirst (backend_outside no_script no_gmail)
             (Pipeline "default" "INITIAL_PROCESSING" None false)
             (Payload (Some "m1") None ∅ (Some "hello") (Some ""))
             (Backend [Some "m1"] [] [])
             (DbMessage (Some "m1") "default" None None None None
                (Some "hello") (Some "") None ∅)
             (Reply 409 None) (HTTPError 409)).
    + vm_compute. apply list_elem_of_further, list_elem_of_further, list_elem_of_here.
    + reflexivity.
  - destruct (Htwice no_script no_gmail
                (Pipeline "default" "INITIAL_PROCESSING" None false)
                (Payload (Some "m1") None ∅ (Some "hello") (Some "")) empty_backend)
      as (status_dict & Hr & Hs & _ & Ht).
    exists status_dict. split; [exact Hr|]. split; [exact Hs | exact Ht].
Defined.

(** ** The terminal persistence step *)

Lemma filter_none (f : event -> bool) (evs : list event) :
  Forall (fun ev => f ev = false) evs -> List.filter f evs = [].
Proof.
  induction 1 as [|ev evs Hev _ IH]; [reflexivity|].
  cbn [List.filter]. now rewrite Hev.
Qed.

Lemma no_write_in (evs : list event) (ev : event) :
  Forall no_write evs -> ev ∈ evs ->
  is_batch_write ev = false /\ is_analysis_write ev = false.
Proof. intros Hall Hin. rewrite Forall_forall in Hall. now apply Hall. Qed.

Lemma persistence_outcome_quiet (r : result pydict) (evs : list event) :
  Forall no_write evs ->
  (forall status_dict,
      r = Return status_dict ->
      has_str status_dict "status" "success"
      \/ has_str status_dict "status" "skipped") ->
  persistence_outcome r evs.
Proof.
  intros Hall Hr. split; [|split; [|split; [|split]]].
  - intros ts reply e Hin _. now destruct (no_write_in _ _ Hall Hin).
  - intros i s sc se reply e Hin _. now destruct (no_write_in _ _ Hall Hin).
  - rewrite filter_none; [cbn; lia|].
    eapply Forall_impl; [exact Hall|]. now intros ev [? _].
  - rewrite filter_none; [cbn; lia|].
    eapply Forall_impl; [exact Hall|]. now intros ev [_ ?].
  - exact Hr.
Qed.

Lemma persistence_outcome_closed : closed_under no_write persistence_outcome.
Proof.
  split.
  - intros e evs Hall. apply persistence_outcome_quiet; [exact Hall | discriminate].
  - intros r pre evs Hpre (Hb & Ha & Hnb & Hna & Hs).
    assert (Hpb : Forall (fun ev => is_batch_write ev = false) pre)
      by (eapply Forall_impl; [exact Hpre|]; now intros ev [? _]).
    assert (Hpa : Forall (fun ev => is_analysis_write ev = false) pre)
      by (eapply Forall_impl; [exact Hpre|]; now intros ev [_ ?]).
    split; [|split; [|split; [|split]]].
    + intros ts reply e Hin He. apply elem_of_app in Hin as [Hin|Hin].
      * now destruct (no_write_in _ _ Hpre Hin).
      * destruct (Hb _ _ _ Hin He) as [Hr Hq]. split; [exact Hr|].
        now apply Forall_app.
    + intros i s sc se reply e Hin He. apply elem_of_app in Hin as [Hin|Hin].
      * now destruct (no_write_in _ _ Hpre Hin).
      * eapply Ha; eassumption.
    + now rewrite List.filter_app, (filter_none _ _ Hpb).
    + now rewrite List.filter_app, (filter_none _ _ Hpa).
    + exact Hs.
Qed.

(** Membership in a list given by its elements. *)
Ltac split_membership H :=
  repeat (apply elem_of_cons in H as [H|H]);
  try (apply elem_of_nil in H; contradiction).

Section Persistence.

Context {hashing : Hashing} {segmenter : Segmenter} {parser : HtmlParser}
        {codec : JsonCodec} {outside : Outside}.

Lemma no_write_prelude : lets_prelude no_write.
Proof. repeat split. Qed.

Lemma save_and_store_outcome self message_id atoms attributed_atoms :
  run_sat persistence_outcome
    (save_and_store self message_id atoms attributed_atoms).
Proof.
  intros w.
  unfold save_and_store, batch_create_transcripts, store_analysis, _post, info,
    log_event, _emit, pbind, lift, exchange, ret, record.
  destruct (map_result transcript_of attributed_atoms) as [e0|tp];
    [apply persistence_outcome_quiet; [constructor | discriminate]|].
  destruct (worker w (POST_log "INFO" "process_message")) as [l1 w1].
  destruct (worker w1 (POST_transcripts_batch tp)) as [rb w2].
  destruct (_request rb) as [eb|vb] eqn:Eb.
  { cbn. split; [|split; [|split; [|split]]]; cbn; try lia; try discriminate.
    - intros ts reply e Hin He. split_membership Hin; try discriminate.
      injection Hin as -> ->. split; [congruence | now repeat constructor].
    - intros i s sc se reply e Hin He. split_membership Hin; discriminate. }
  destruct (worker w2 (POST_log "INFO" "process_message")) as [l2 w3].
  destruct (_summarize_attribution attributed_atoms) as [e1|stats].
  { cbn. split; [|split; [|split; [|split]]]; cbn; try lia; try discriminate.
    - intros ts reply e Hin He. split_membership Hin; try discriminate.
      injection Hin as -> ->. congruence.
    - intros i s sc se reply e Hin He. split_membership Hin; discriminate. }
  destruct (worker w3 (POST_update_analysis message_id stats 0 (session_id self)))
    as [ra w4].
  destruct (_request ra) as [ea|va] eqn:Ea.
  { cbn. split; [|split; [|split; [|split]]]; cbn; try lia; try discriminate.
    - intros ts reply e Hin He. split_membership Hin; try discriminate.
      injection Hin as -> ->. congruence.
    - intros i s sc se reply e Hin He. split_membership Hin; try discriminate.
      injection Hin as -> -> -> -> ->. congruence. }
  destruct (worker w4 (POST_log "INFO" "process_message")) as [l3 w5].
  destruct (monitor self); cbn;
    (split; [|split; [|split; [|split]]]; cbn; try lia).
  all: try (intros ts reply e Hin He; split_membership Hin; try discriminate;
            injection Hin as -> ->; congruence).
  all: try (intros i s sc se reply e Hin He; split_membership Hin; try discriminate;
            injection Hin as -> -> -> -> ->; congruence).
  all: intros status_dict [= <-]; left; reflexivity.
Qed.

(** Steps 2 to 4 send neither write. *)
Lemma analyse_outcome self message_id c :
  run_sat persistence_outcome (analyse self message_id c).
Proof.
  unfold analyse.
  do 10 (apply (run_sat_pbind no_write);
         [ apply persistence_outcome_closed
         | unfold classify, classify_batch, _invoke, run_agent, _post, info,
             error, log_event, _emit; quiet_steps; (split; reflexivity)
         | intros ? ]).
  apply save_and_store_outcome.
Qed.

Lemma process_message_outcome self message_payload :
  run_sat persistence_outcome (process_message self message_payload).
Proof.
  unfold process_message.
  apply (run_sat_pbind no_write); [apply persistence_outcome_closed | |].
  { apply quiet_extract_content, no_write_prelude. }
  intros c.
  apply (run_sat_pbind no_write); [apply persistence_outcome_closed | |].
  { apply quiet_info, no_write_prelude. }
  intros _.
  apply (run_sat_pbind no_write); [apply persistence_outcome_closed | |].
  { unfold create_message, _post. quiet_steps. split; reflexivity. }
  intros [e|v]; [|apply analyse_outcome].
  apply (run_sat_pbind no_write); [apply persistence_outcome_closed | |].
  { apply quiet_info, no_write_prelude. }
  intros _ w. apply persistence_outcome_quiet; [constructor|].
  intros status_dict [= <-]. right. reflexivity.
Qed.

End Persistence.

(** C8, as the code has it.  On every run of [process_message]: when the
    call of the transcript write raises, the run raises that exception
    and sends no analysis write; when the call of the analysis write
    raises, the run raises that exception; each of the two writes is sent
    at most once; and a run that returns reports "success" or "skipped",
    never "error". *)
Theorem persistence_failure_raises
    {hashing : Hashing} {segmenter : Segmenter} {parser : HtmlParser}
    {codec : JsonCodec} {outside : Outside}
    (self : ACREPipeline) (message_payload : payload) (w : World) :
  let run := process_message self message_payload w in
  (forall transcripts reply e,
      Requested (POST_transcripts_batch transcripts) reply ∈ run.2 ->
      _request reply = Raise e ->
      run.1.1 = Raise e
      /\ Forall (fun ev => is_analysis_write ev = false) run.2)
  /\ (forall message_id stats score session reply e,
        Requested (POST_update_analysis message_id stats score session) reply
          ∈ run.2 ->
        _request reply = Raise e ->
        run.1.1 = Raise e)
  /\ length (List.filter is_batch_write run.2) <= 1
  /\ length (List.filter is_analysis_write run.2) <= 1
  /\ (forall status_dict,
        run.1.1 = Return status_dict ->
        (has_str status_dict "status" "success"
         \/ has_str status_dict "status" "skipped")
        /\ ~ has_str status_dict "status" "error").
Proof.
  intros run.
  destruct (process_message_outcome self message_payload w)
    as (Hb & Ha & Hnb & Hna & Hs).
  fold run in Hb, Ha, Hnb, Hna, Hs.
  split; [exact Hb|]. split; [exact Ha|]. split; [exact Hnb|].
  split; [exact Hna|]. intros status_dict Hr.
  split; [now apply Hs|]. intros Herr. unfold has_str in *.
  destruct (Hs _ Hr) as [Hok|Hok]; rewrite Hok in Herr; discriminate.
Qed.

Lemma persistence_failure_raises_witness :
  let run :=
    @process_message plain_digest one_sentence (parses_to (NavigableString "hello"))
      empty_dict_codec (scripted_outside batch_fails)
      (Pipeline "default" "INITIAL_PROCESSING" None false)
      (Payload (Some "m1") None ∅ (Some "hello") (Some "")) tt in
  run.1.1 = Raise (HTTPError 500)
  /\ Forall (fun ev => is_analysis_write ev = false) run.2.
Proof.
  intros run.
  destruct (@persistence_failure_raises plain_digest one_sentence
              (parses_to (NavigableString "hello")) empty_dict_codec
              (scripted_outside batch_fails)
              (Pipeline "default" "INITIAL_PROCESSING" None false)
              (Payload (Some "m1") None ∅ (Some "hello") (Some "")) tt)
    as (Hb & _).
  fold run in Hb.
  assert (Hin : exists transcripts,
             Requested (POST_transcripts_batch transcripts) (Reply 500 None) ∈ run.2).
  { pose (evs := run.2). assert (E : run.2 = evs) by reflexivity.
    vm_compute in evs. rewrite E. subst evs. eexists.
    repeat first [apply list_elem_of_here | apply list_elem_of_further]. }
  destruct Hin as [transcripts Hin].
  exact (Hb transcripts (Reply 500 None) (HTTPError 500) Hin eq_refl).
Defined.

(** The claim C8 as worded fails: with a transcript write that answers
    with a server error, [process_message] does not return a status; it
    raises. *)
Lemma persistence_failure_not_returned :
  let run :=
    @process_message plain_digest one_sentence (parses_to (NavigableString "hello"))
      empty_dict_codec (scripted_outside batch_fails)
      (Pipeline "default" "INITIAL_PROCESSING" None false)
      (Payload (Some "m1") None ∅ (Some "hello") (Some "")) tt in
  run.1.1 = Raise (HTTPError 500)
  /\ length (List.filter is_batch_write run.2) = 1
  /\ forall status_dict, run.1.1 <> Return status_dict.
Proof.
  intros run.
  assert (Hr : run.1.1 = Raise (HTTPError 500)) by (vm_compute; reflexivity).
  split; [exact Hr|]. split; [vm_compute; reflexivity|].
  intros status_dict. rewrite Hr. discriminate.
Qed.

(** * Further properties *)

(** ** The normal form of the verification engine *)

Lemma lower_char_idem (c : ascii) :
  Str.lower_char (Str.lower_char c) = Str.lower_char c.
Proof. destruct c as [[] [] [] [] [] [] [] []]; reflexivity. Qed.

Lemma lower_idem (s : string) : Str.lower (Str.lower s) = Str.lower s.
Proof. induction s as [|c s IH]; cbn; [|rewrite lower_char_idem, IH]; reflexivity. Qed.

Lemma lower_collapse (s : string) :
  Str.lower (collapse_whitespace s) = collapse_whitespace (Str.lower s).
Proof.
  induction s as [|c s IH]; [reflexivity|].
  cbn [collapse_whitespace Str.lower]. rewrite isspace_lower_char.
  destruct (Str.isspace c) eqn:Hc.
  - destruct s as [|c' s']; [reflexivity|].
    cbn [Str.lower]. rewrite isspace_lower_char.
    destruct (Str.isspace c'); [exact IH|].
    cbn [Str.lower]. rewrite IH. reflexivity.
  - cbn [Str.lower]. rewrite IH. reflexivity.
Qed.

Lemma normalize_in_words_lower (t : string) :
  Str.lower (normalize_in_words t) = normalize_in_words t.
Proof.
  unfold normalize_in_words.
  rewrite <- strip_lower, lower_collapse, lower_idem. reflexivity.
Qed.

Lemma normalize_in_words_single_spaced (t : string) :
  single_spaced (normalize_in_words t) = true.
Proof.
  unfold normalize_in_words, Str.strip, Str.strip_by.
  apply single_spaced_rstrip, single_spaced_lstrip, single_spaced_collapse.
Qed.

Lemma normalize_in_words_idem (t : string) :
  normalize_in_words (normalize_in_words t) = normalize_in_words t.
Proof.
  unfold normalize_in_words at 1.
  rewrite normalize_in_words_lower.
  rewrite collapse_single_spaced by apply normalize_in_words_single_spaced.
  unfold normalize_in_words. apply strip_idem.
Qed.

Section VerificationMore.

Context {hashing : Hashing} {dmp : DiffMatchPatch}.

(** X1. [normalize_content] is idempotent, its result is lowercase, trimmed
    and single-spaced, and a text and its normal form have the same
    [compute_hash] and verify as a match. *)
Theorem normalize_content_idempotent (text : string) :
  normalize_content (normalize_content text) = normalize_content text
  /\ Str.lower (normalize_content text) = normalize_content text
  /\ Str.strip (normalize_content text) = normalize_content text
  /\ single_spaced (normalize_content text) = true
  /\ compute_hash (normalize_content text) = compute_hash text
  /\ verify_quote (normalize_content text) text = (true, None).
Proof.
  assert (Hidem : normalize_content (normalize_content text) = normalize_content text).
  { rewrite !normalize_content_in_words. apply normalize_in_words_idem. }
  assert (Hhash : compute_hash (normalize_content text) = compute_hash text).
  { unfold compute_hash. cbv zeta. now rewrite Hidem. }
  repeat split.
  - exact Hidem.
  - rewrite normalize_content_in_words. apply normalize_in_words_lower.
  - rewrite normalize_content_in_words. unfold normalize_in_words. apply strip_idem.
  - rewrite normalize_content_in_words. apply normalize_in_words_single_spaced.
  - exact Hhash.
  - now apply verify_quote_match.
Qed.

End VerificationMore.

Lemma strip_empty (s : string) :
  Str.strip s = "" <-> Str.lstrip_by Str.isspace s = "".
Proof.
  unfold Str.strip, Str.strip_by.
  pose proof (lstrip_begins Str.isspace s) as Hb.
  destruct (Str.lstrip_by Str.isspace s) as [|c r]; [tauto|].
  cbn in Hb. cbn [Str.rstrip_by]. rewrite Hb.
  split; [|discriminate].
  destruct (Str.rstrip_by Str.isspace r); discriminate.
Qed.

Lemma collapse_empty (s : string) : collapse_whitespace s = "" -> s = "".
Proof.
  induction s as [|c s IH]; [reflexivity|].
  cbn [collapse_whitespace].
  destruct (Str.isspace c); [|discriminate].
  destruct s as [|c' s']; [discriminate|].
  destruct (Str.isspace c'); [|discriminate].
  intros H. apply IH in H. discriminate.
Qed.

Lemma normalize_in_words_empty (t : string) :
  normalize_in_words t = "" <-> Str.strip t = "".
Proof.
  unfold normalize_in_words. rewrite !strip_empty.
  rewrite collapse_lstrip, lstrip_lower. split.
  - intros H. apply collapse_empty in H. now apply lower_empty.
  - intros ->. reflexivity.
Qed.

Section VerificationBlank.

Context {hashing : Hashing} {dmp : DiffMatchPatch}.

(** X2. The match of [verify_quote] is an equivalence on texts, whatever
    the digest: it holds of a text and itself, in both directions or in
    none, and along chains; the diff is [None] exactly on a match, and on
    a mismatch it is [diff_texts] of the original and the quote, in that
    order. *)
Theorem verify_quote_equivalence :
  (forall a, (verify_quote a a).1 = true)
  /\ (forall a b, (verify_quote a b).1 = (verify_quote b a).1)
  /\ (forall a b c,
        (verify_quote a b).1 = true -> (verify_quote b c).1 = true ->
        (verify_quote a c).1 = true)
  /\ (forall a b, (verify_quote a b).1 = true <-> (verify_quote a b).2 = None)
  /\ (forall quote original,
        (verify_quote quote original).1 = false ->
        (verify_quote quote original).2 = Some (diff_texts original quote)).
Proof.
  assert (Hflag : forall a b,
             (verify_quote a b).1 = String.eqb (compute_hash a) (compute_hash b)).
  { intros a b. unfold verify_quote. cbv zeta.
    destruct (String.eqb (compute_hash a) (compute_hash b)); reflexivity. }
  split; [|split; [|split; [|split]]].
  - intros a. rewrite Hflag. apply String.eqb_refl.
  - intros a b. rewrite !Hflag. apply String.eqb_sym.
  - intros a b c. rewrite !Hflag, !String.eqb_eq. congruence.
  - intros a b. unfold verify_quote. cbv zeta.
    destruct (String.eqb (compute_hash a) (compute_hash b)); cbn;
      split; (reflexivity || discriminate).
  - intros quote original. unfold verify_quote, diff_texts. cbv zeta.
    destruct (String.eqb (compute_hash quote) (compute_hash original)); cbn;
      [discriminate | reflexivity].
Qed.

(** X3. The normal form of a text is empty exactly when the text is blank
    (nothing is left of it after [strip]); two blank texts always verify
    as a match. *)
Theorem blank_texts_match :
  (forall text, normalize_content text = "" <-> Str.strip text = "")
  /\ (forall a b,
        Str.strip a = "" -> Str.strip b = "" ->
        verify_quote a b = (true, None)).
Proof.
  split.
  - intros text. rewrite normalize_content_in_words.
    apply normalize_in_words_empty.
  - intros a b Ha Hb. apply verify_quote_match.
    unfold compute_hash. cbv zeta.
    rewrite !normalize_content_in_words.
    apply normalize_in_words_empty in Ha, Hb. now rewrite Ha, Hb.
Qed.

End VerificationBlank.

Lemma verify_quote_equivalence_witness :
  (@verify_quote plain_digest naming_dmp "Pay  me" "pay me").1 = true
  /\ (@verify_quote plain_digest naming_dmp "Pay  me" "PAY ME").1 = true.
Proof.
  destruct (@verify_quote_equivalence plain_digest naming_dmp)
    as (_ & _ & Htrans & _).
  split; [reflexivity|].
  apply (Htrans "Pay  me" "pay me" "PAY ME"); reflexivity.
Defined.

Lemma blank_texts_match_witness :
  @verify_quote plain_digest naming_dmp "" "   " = (true, None).
Proof.
  destruct (@blank_texts_match plain_digest naming_dmp) as [_ Hblank].
  apply Hblank; reflexivity.
Defined.

Lemma nonempty_not_empty (s : string) : Str.nonempty s = true <-> s <> "".
Proof. destruct s; cbn; split; congruence. Qed.

Lemma append_inv_head (p s t : string) :
  String.append p s = String.append p t -> s = t.
Proof. induction p as [|c p IH]; cbn; [tauto|]. intros [= H]. auto. Qed.

Section AtomizerMore.

Context {hashing : Hashing} {segmenter : Segmenter} {parser : HtmlParser}
        {codec : JsonCodec}.

Lemma atomize_html_emitted message_id html_content plain_content0 sender_email
    (returned : list Atom) :
  negb (truthy_opt html_content) && truthy_opt plain_content0 = false ->
  atomize message_id html_content plain_content0 sender_email = Return returned ->
  emitted message_id 0 0 returned.
Proof.
  unfold atomize, bind. intros ->.
  destruct (BeautifulSoup html_content) as [e|soup]; [discriminate|].
  destruct (traverse message_id _ 0 ∅ (Walk [] 0)) as [e|w] eqn:E; [discriminate|].
  intros [= <-]. apply traverse_extends in E as (new & Ha & _ & Hn).
  cbn [atoms sequence_index app] in *. now rewrite Ha.
Qed.

Lemma atomize_plain_new message_id html_content plain_content0 sender_email
    (returned : list Atom) :
  negb (truthy_opt html_content) && truthy_opt plain_content0 = true ->
  atomize message_id html_content plain_content0 sender_email = Return returned ->
  exists sentences,
    sent_tokenize (default "" plain_content0) = Return sentences
    /\ returned = plain_new message_id sender_email 0 sentences.
Proof.
  unfold atomize, _atomize_plain, bind. intros ->.
  destruct (sent_tokenize _) as [e|sentences]; [discriminate|]. intros [= <-].
  exists sentences. split; [reflexivity|]. now rewrite plain_loop_new.
Qed.

(** X4. On the HTML path every atom returned is the dict of a sentence
    that is not empty and is trimmed, its id is the digest of the message
    id, an underscore and its position in the list, and it carries the
    message id and no attribution yet. *)
Theorem html_atoms_wellformed message_id html_content plain_content0
    sender_email (returned : list Atom) :
  negb (truthy_opt html_content) && truthy_opt plain_content0 = false ->
  atomize message_id html_content plain_content0 sender_email = Return returned ->
  forall j a, returned !! j = Some a ->
    (exists content,
        has_str a "content" content
        /\ content <> ""
        /\ Str.strip content = content)
    /\ has_str a "id" (sha256_hex (fmt_opt message_id ++ "_" ++ pretty j))
    /\ a !! "messageId" = Some (of_opt message_id)
    /\ a !! "attributedTo" = Some VNone
    /\ a !! "attributionMethod" = Some VNone.
Proof.
  intros Hpath Hret j a Hj.
  destruct (atomize_html_emitted _ _ _ _ _ Hpath Hret j a Hj)
    as (t & depth & sty & -> & _ & Ht & Hne).
  split; [|repeat split; reflexivity].
  exists t. split; [reflexivity|]. split; [now apply nonempty_not_empty | exact Ht].
Qed.

End AtomizerMore.

Lemma html_atoms_wellformed_witness :
  exists a,
    @atomize plain_digest one_sentence
      (parses_to (Tag "p" ∅ [NavigableString "  Pay me.  "]))
      empty_dict_codec (Some "m1") (Some "<p>  Pay me.  </p>") None None
    = Return [a]
    /\ has_str a "content" "Pay me."
    /\ has_str a "id" "m1_0".
Proof.
  eexists. split; [reflexivity|].
  destruct (@html_atoms_wellformed plain_digest one_sentence
              (parses_to (Tag "p" ∅ [NavigableString "  Pay me.  "]))
              empty_dict_codec (Some "m1") (Some "<p>  Pay me.  </p>") None None
              _ eq_refl eq_refl 0 _ eq_refl)
    as (_ & Hid & _).
  split; [reflexivity | exact Hid].
Defined.


Section AtomIds.

Context {hashing : Hashing} {segmenter : Segmenter} {parser : HtmlParser}
        {codec : JsonCodec}.

Hypothesis collision_free : forall a b, sha256_hex a = sha256_hex b -> a = b.

Lemma id_text_inj (message_id : option string) (i j : nat) :
  sha256_hex (fmt_opt message_id ++ "_" ++ pretty i)
  = sha256_hex (fmt_opt message_id ++ "_" ++ pretty j) ->
  i = j.
Proof.
  intros H. apply collision_free in H.
  apply append_inv_head in H. cbn in H. injection H as H.
  exact (pretty_nat_inj _ _ H).
Qed.

Lemma plain_new_ids message_id sender_email sentences :
  forall i p q a b,
    plain_new message_id sender_email i sentences !! p = Some a ->
    plain_new message_id sender_email i sentences !! q = Some b ->
    a !! "id" = b !! "id" -> p = q.
Proof.
  assert (Hlow : forall sentences i a,
             a ∈ plain_new message_id sender_email i sentences ->
             exists k, i <= k
               /\ a !! "id"
                  = Some (VStr (sha256_hex (fmt_opt message_id ++ "_" ++ pretty k)))).
  { intros l i a Ha. apply plain_new_positions in Ha as (j & s & _ & _ & ->).
    exists (i + j). split; [lia | reflexivity]. }
  induction sentences as [|s rest IH]; intros i p q a b Hp Hq Hid;
    [discriminate|].
  cbn [plain_new] in Hp, Hq.
  destruct (Str.nonempty (Str.strip s)); [|eauto].
  destruct p as [|p], q as [|q]; cbn [lookup list_lookup] in Hp, Hq;
    [reflexivity| | |f_equal; eauto].
  - injection Hp as <-. apply list_elem_of_lookup_2, Hlow in Hq as (k & Hk & Hb).
    rewrite Hb in Hid. injection Hid as Hid. apply id_text_inj in Hid. lia.
  - injection Hq as <-. apply list_elem_of_lookup_2, Hlow in Hp as (k & Hk & Ha).
    rewrite Ha in Hid. injection Hid as Hid. apply id_text_inj in Hid. lia.
Qed.

End AtomIds.

Section AtomIdsClaim.

Context {hashing : Hashing} {segmenter : Segmenter} {parser : HtmlParser}
        {codec : JsonCodec}.

(** X5. With a digest free of collisions, the atoms of one call of
    [atomize] have pairwise distinct ids, on the HTML path and on the
    plain-text path. *)
Theorem atom_ids_distinct
    (collision_free : forall a b, sha256_hex a = sha256_hex b -> a = b)
    message_id html_content plain_content0 sender_email (returned : list Atom) :
  atomize message_id html_content plain_content0 sender_email = Return returned ->
  forall i j a b,
    returned !! i = Some a -> returned !! j = Some b ->
    a !! "id" = b !! "id" -> i = j.
Proof.
  intros Hret i j a b Hi Hj Hid.
  destruct (negb (truthy_opt html_content) && truthy_opt plain_content0) eqn:Hpath.
  - destruct (atomize_plain_new _ _ _ _ _ Hpath Hret) as (sentences & _ & ->).
    eapply plain_new_ids; eassumption.
  - pose proof (atomize_html_emitted _ _ _ _ _ Hpath Hret) as Hem.
    destruct (Hem _ _ Hi) as (t1 & d1 & s1 & -> & _).
    destruct (Hem _ _ Hj) as (t2 & d2 & s2 & -> & _).
    cbn in Hid. injection Hid as Hid.
    eapply id_text_inj; [exact collision_free | exact Hid].
Qed.

End AtomIdsClaim.

Lemma atom_ids_distinct_witness :
  exists a b,
    @atomize plain_digest (sentences_are ["Pay me."; "Now."])
      (parses_to (NavigableString "")) empty_dict_codec
      (Some "m1") None (Some "Pay me. Now.") None
    = Return [a; b]
    /\ a !! "id" <> b !! "id".
Proof.
  do 2 eexists. split; [reflexivity|].
  intros Hid.
  pose proof (@atom_ids_distinct plain_digest (sentences_are ["Pay me."; "Now."])
                (parses_to (NavigableString "")) empty_dict_codec
                (fun a b H => H)
                (Some "m1") None (Some "Pay me. Now.") None _ eq_refl
                0 1 _ _ eq_refl eq_refl Hid) as H.
  discriminate H.
Defined.

Section SegmenterFailure.

Context {hashing : Hashing} {segmenter : Segmenter} {parser : HtmlParser}
        {codec : JsonCodec}.

Lemma traverse_no_text message_id n :
  forall d sty w, no_text n = true -> traverse message_id n d sty w = Return w.
Proof.
  induction n as [name attrs children IH | text] using node_tree_ind;
    intros d sty w Hn.
  - rewrite traverse_tag. cbn [no_text] in Hn.
    generalize (if String.eqb name "blockquote" then S d else d).
    generalize (tag_style name attrs sty). intros sty' d'.
    induction IH as [|c cs Hc _ IHcs]; [reflexivity|].
    cbn [forallb] in Hn. apply andb_true_iff in Hn as [Hc' Hcs'].
    cbn [traverse_children]. rewrite Hc by exact Hc'. cbn [bind]. now apply IHcs.
  - rewrite traverse_text. cbn [no_text] in Hn. now rewrite Hn.
Qed.

(** X6. The segmenter is only asked about text that is not blank: a tree
    whose text nodes are all blank gives no atoms, whatever the segmenter
    does, while a text node that is not blank, and the plain-text path,
    raise what the segmenter raises. *)
Theorem segmenter_failure message_id sender_email :
  (forall n d sty w, no_text n = true -> traverse message_id n d sty w = Return w)
  /\ (forall html_content plain_content0 soup,
        negb (truthy_opt html_content) && truthy_opt plain_content0 = false ->
        BeautifulSoup html_content = Return soup ->
        no_text (default soup (find "body" soup)) = true ->
        atomize message_id html_content plain_content0 sender_email = Return [])
  /\ (forall text d sty w e,
        Str.strip text <> "" ->
        sent_tokenize (Str.strip text) = Raise e ->
        traverse message_id (NavigableString text) d sty w = Raise e)
  /\ (forall html_content plain_content0 e,
        negb (truthy_opt html_content) && truthy_opt plain_content0 = true ->
        sent_tokenize (default "" plain_content0) = Raise e ->
        atomize message_id html_content plain_content0 sender_email = Raise e).
Proof.
  split; [|split; [|split]].
  - intros n. apply traverse_no_text.
  - intros html_content plain_content0 soup Hpath Hsoup Hn.
    unfold atomize. rewrite Hpath, Hsoup. cbn [bind].
    now rewrite traverse_no_text.
  - intros text d sty w e Hne He. rewrite traverse_text.
    destruct (Str.strip text) eqn:Ht; [congruence|].
    cbn [Str.nonempty negb]. now rewrite He.
  - intros html_content plain_content0 e Hpath He.
    unfold atomize, _atomize_plain. now rewrite Hpath, He.
Qed.

End SegmenterFailure.

Lemma segmenter_failure_witness :
  @atomize plain_digest no_punkt
    (parses_to (Tag "html" ∅ [Tag "body" ∅ [Tag "p" ∅ [NavigableString "  "]]]))
    empty_dict_codec (Some "m1") (Some "<p>  </p>") None None
  = Return []
  /\ @atomize plain_digest no_punkt (parses_to (NavigableString ""))
       empty_dict_codec (Some "m1") None (Some "Pay me.") None
     = Raise LookupError.
Proof.
  destruct (@segmenter_failure plain_digest no_punkt
              (parses_to (Tag "html" ∅ [Tag "body" ∅ [Tag "p" ∅ [NavigableString "  "]]]))
              empty_dict_codec (Some "m1") None)
    as (_ & Hblank & _ & _).
  destruct (@segmenter_failure plain_digest no_punkt
              (parses_to (NavigableString ""))
              empty_dict_codec (Some "m1") None)
    as (_ & _ & _ & Hplain).
  split.
  - eapply Hblank; reflexivity.
  - apply Hplain; reflexivity.
Defined.

Section PlainMarkers.

Context {hashing : Hashing} {segmenter : Segmenter} {parser : HtmlParser}
        {codec : JsonCodec}.

(** X7. The plain-text path skips blank sentences before it removes the
    quote markers, not after: a sentence made of [>] and spaces only
    gives an atom whose content is empty, at the depth of its number of
    [>]. *)
Theorem plain_marker_only_sentence message_id html_content plain_content0
    sender_email sentences (returned : list Atom) j s :
  negb (truthy_opt html_content) && truthy_opt plain_content0 = true ->
  sent_tokenize (default "" plain_content0) = Return sentences ->
  atomize message_id html_content plain_content0 sender_email = Return returned ->
  sentences !! j = Some s ->
  Str.startswith ">" (Str.strip s) = true ->
  Str.lstrip_chars "> " (Str.strip s) = "" ->
  exists a,
    a ∈ returned
    /\ has_str a "content" ""
    /\ has_int a "sequenceIndex" (Z.of_nat j)
    /\ has_int a "quoteDepth" (Z.of_nat (Str.count ">" (Str.strip s))).
Proof.
  intros Hpath Hs Hret Hj Hstart Hstrip.
  destruct (atomize_plain_new _ _ _ _ _ Hpath Hret) as (sentences' & Hs' & ->).
  rewrite Hs in Hs'. injection Hs' as <-.
  exists (plain_atom message_id "" j (Str.count ">" (Str.strip s)) sender_email).
  split; [|repeat split; reflexivity].
  apply plain_new_positions. exists j, s. split; [exact Hj|]. split.
  - destruct (Str.strip s); [discriminate Hstart | reflexivity].
  - unfold plain_content, plain_depth. rewrite Hstart, Hstrip. reflexivity.
Qed.

End PlainMarkers.

Lemma plain_marker_only_sentence_witness :
  exists a,
    a ∈ [@plain_atom plain_digest (Some "m1") "" 0 2 None]
    /\ has_str a "content" ""
    /\ has_int a "sequenceIndex" (Z.of_nat 0)
    /\ has_int a "quoteDepth" (Z.of_nat (Str.count ">" (Str.strip " > > "))).
Proof.
  exact (@plain_marker_only_sentence plain_digest one_sentence
           (parses_to (NavigableString "")) empty_dict_codec
           (Some "m1") None (Some " > > ") None [" > > "] _ 0 " > > "
           eq_refl eq_refl eq_refl eq_refl eq_refl eq_refl).
Defined.

Section TagStyle.

Context {parser : HtmlParser}.

Lemma grows_refl (st : style) : style_grows st st.
Proof. unfold style_grows. repeat split; eauto. Qed.

Lemma grows_color (st st' : style) (v : string) :
  style_grows st st' -> style_grows st (<["color" := v]> st').
Proof.
  intros (H1 & H2 & H3 & H4). unfold style_grows. repeat split.
  - intros k u Hk. destruct (decide (k = "color")) as [->|Hne].
    + rewrite lookup_insert_eq. eauto.
    + rewrite lookup_insert_ne by done. eauto.
  - intros k ? ? ?. rewrite lookup_insert_ne by done. auto.
  - intros u. rewrite lookup_insert_ne by done. auto.
  - intros u. rewrite lookup_insert_ne by done. auto.
Qed.

Lemma grows_bold (st st' : style) :
  style_grows st st' -> style_grows st (<["font_weight" := "bold"]> st').
Proof.
  intros (H1 & H2 & H3 & H4). unfold style_grows. repeat split.
  - intros k u Hk. destruct (decide (k = "font_weight")) as [->|Hne].
    + rewrite lookup_insert_eq. eauto.
    + rewrite lookup_insert_ne by done. eauto.
  - intros k ? ? ?. rewrite lookup_insert_ne by done. auto.
  - intros u. rewrite lookup_insert_eq. intros [= <-]. auto.
  - intros u. rewrite lookup_insert_ne by done. auto.
Qed.

Lemma grows_uppercase (st st' : style) :
  style_grows st st' -> style_grows st (<["text_transform" := "uppercase"]> st').
Proof.
  intros (H1 & H2 & H3 & H4). unfold style_grows. repeat split.
  - intros k u Hk. destruct (decide (k = "text_transform")) as [->|Hne].
    + rewrite lookup_insert_eq. eauto.
    + rewrite lookup_insert_ne by done. eauto.
  - intros k ? ? ?. rewrite lookup_insert_ne by done. auto.
  - intros u. rewrite lookup_insert_ne by done. auto.
  - intros u. rewrite lookup_insert_eq. intros [= <-]. auto.
Qed.

Lemma tag_style_grows (name : string) (attrs : gmap string attr_value)
    (st : style) :
  style_grows st (tag_style name attrs st).
Proof.
  unfold tag_style. cbv zeta.
  repeat match goal with
    | |- style_grows _ (<["color" := _]> _) => apply grows_color
    | |- style_grows _ (<["font_weight" := _]> _) => apply grows_bold
    | |- style_grows _ (<["text_transform" := _]> _) => apply grows_uppercase
    | |- style_grows ?s ?s => apply grows_refl
    | |- style_grows _ (if ?b then _ else _) => destruct b
    | |- style_grows _ (match ?o with _ => _ end) => destruct o
    end.
Qed.

(** X8. The style of a tag, from the style of its parent: the keys of the
    parent stay, only the keys color, font_weight and text_transform are
    ever written (the last two only with bold and uppercase), a [b] or
    [strong] tag is always bold, a [font] tag with a colour attribute
    takes that colour in lowercase, and a tag that is none of these and
    has no style attribute hands the style of its parent on unchanged. *)
Theorem tag_style_accumulates (name : string) (attrs : gmap string attr_value)
    (current_style_stack : style) :
  (forall k v, current_style_stack !! k = Some v ->
      exists v', tag_style name attrs current_style_stack !! k = Some v')
  /\ (forall k, k <> "color" -> k <> "font_weight" -> k <> "text_transform" ->
        tag_style name attrs current_style_stack !! k = current_style_stack !! k)
  /\ (forall v,
        tag_style name attrs current_style_stack !! "font_weight" = Some v ->
        v = "bold" \/ current_style_stack !! "font_weight" = Some v)
  /\ (forall v,
        tag_style name attrs current_style_stack !! "text_transform" = Some v ->
        v = "uppercase" \/ current_style_stack !! "text_transform" = Some v)
  /\ (is_bold_tag name = true ->
        tag_style name attrs current_style_stack !! "font_weight" = Some "bold")
  /\ (forall color_attr,
        name = "font" -> attrs !! "color" = Some (AttrStr color_attr) ->
        tag_style name attrs current_style_stack !! "color"
        = Some (Str.lower color_attr))
  /\ (attrs !! "style" = None -> is_bold_tag name = false -> name <> "font" ->
        tag_style name attrs current_style_stack = current_style_stack).
Proof.
  destruct (tag_style_grows name attrs current_style_stack)
    as (H1 & H2 & H3 & H4).
  split; [exact H1|]. split; [exact H2|]. split; [exact H3|].
  split; [exact H4|]. split; [|split].
  - intros Hb. unfold tag_style. cbv zeta. rewrite Hb.
    assert (Hfont : String.eqb name "font" = false).
    { unfold is_bold_tag in Hb. apply orb_true_iff in Hb.
      destruct Hb as [Hb|Hb]; apply String.eqb_eq in Hb; subst; reflexivity. }
    rewrite Hfont. apply lookup_insert_eq.
  - intros color_attr -> Hc. unfold tag_style. cbv zeta. rewrite Hc.
    cbn [String.eqb Ascii.eqb Bool.eqb]. apply lookup_insert_eq.
  - intros Hs Hb Hf. unfold tag_style, style_attr_of. rewrite Hs, Hb.
    cbn [Str.lower Str.nonempty].
    destruct (String.eqb name "font") eqn:E; [|reflexivity].
    apply String.eqb_eq in E. contradiction.
Qed.

End TagStyle.

Lemma tag_style_accumulates_witness :
  @tag_style (parses_to (NavigableString "")) "strong"
    {["style" := AttrStr "color: green"]} {["text_transform" := "uppercase"]}
  !! "font_weight" = Some "bold"
  /\ exists v',
       @tag_style (parses_to (NavigableString "")) "strong"
         {["style" := AttrStr "color: green"]} {["text_transform" := "uppercase"]}
       !! "text_transform" = Some v'.
Proof.
  destruct (@tag_style_accumulates (parses_to (NavigableString "")) "strong"
              {["style" := AttrStr "color: green"]}
              {["text_transform" := "uppercase"]})
    as (Hkeeps & _ & _ & _ & Hbold & _).
  split; [apply Hbold; reflexivity|].
  apply (Hkeeps "text_transform" "uppercase"). reflexivity.
Defined.

Section AttributionMore.

Context {codec : JsonCodec}.

Lemma py_in_raises (k : string) (x : value) (e : exn) :
  py_in k x = Raise e -> e = TypeError.
Proof. destruct x; cbn; congruence. Qed.

Lemma has_containing_raises (x : value) (k k2 : string) (e : exn) :
  has_containing x k k2 = Raise e -> e = TypeError.
Proof.
  unfold has_containing, bind.
  destruct (py_in k x) as [e'|[]] eqn:Hin; [apply py_in_raises in Hin; congruence| |discriminate].
  destruct x; cbn in Hin |- *; try congruence.
  destruct (obj_lookup k fields) as [v|]; [|discriminate].
  apply py_in_raises.
Qed.

Lemma has_equal_raises (x : value) (k s : string) (e : exn) :
  has_equal x k s = Raise e -> e = TypeError.
Proof.
  unfold has_equal, bind.
  destruct (py_in k x) as [e'|[]] eqn:Hin; [apply py_in_raises in Hin; congruence| |discriminate].
  destruct x; cbn in Hin |- *; try congruence.
  destruct (obj_lookup k fields) as [v|]; discriminate.
Qed.

Lemma is_aggressive_style_raises (x : value) (e : exn) :
  is_aggressive_style x = Raise e -> e = TypeError.
Proof.
  unfold is_aggressive_style, bind.
  destruct (truthy x); [|discriminate].
  destruct (has_containing x "color" "red") eqn:H1;
    [apply has_containing_raises in H1; congruence|].
  destruct (has_equal x "font_weight" "bold") eqn:H2;
    [apply has_equal_raises in H2; congruence|].
  destruct (has_equal x "text_transform" "uppercase") eqn:H3;
    [apply has_equal_raises in H3; congruence|].
  discriminate.
Qed.

Lemma json_loads_raises (x : value) (e : exn) :
  json_loads x = Raise e -> e = JSONDecodeError \/ e = TypeError.
Proof.
  destruct x; cbn; try (intros [= <-]; auto).
  destruct (json_parse s); [discriminate|]. intros [= <-]. auto.
Qed.

(** What the body of the loop returns, when it does. *)
Lemma attribute_atom_returns (atom atom' : Atom) (sender_email : option string) :
  attribute_atom atom sender_email = Return atom' ->
  (eq_zero (dict_get atom "quoteDepth" (VInt 0)) = true
   /\ atom' = <["isAlteredQuote" := VBool false]>
               (<["attributionMethod" := VStr "HEADER_DEPTH_0"]>
                (<["attributedTo" := of_opt sender_email]> atom)))
  \/ (eq_zero (dict_get atom "quoteDepth" (VInt 0)) = false
      /\ exists who method,
           atom' = <["attributionMethod" := VStr method]>
                     (<["attributedTo" := who]> atom)).
Proof.
  unfold attribute_atom, bind.
  destruct (json_loads _) as [e|doc]; [discriminate|].
  destruct (eq_zero _); [intros [= <-]; left; auto|].
  destruct (is_aggressive_style doc) as [e|[]]; [discriminate| |];
    intros [= <-]; right; split; eauto.
Qed.

Lemma attribute_atom_idem (atom atom' : Atom) (sender_email : option string) :
  attribute_atom atom sender_email = Return atom' ->
  attribute_atom atom' sender_email = Return atom'.
Proof.
  intros H.
  assert (Hd : dict_get atom' "quoteDepth" (VInt 0)
               = dict_get atom "quoteDepth" (VInt 0)
               /\ dict_get atom' "visualStyle" (VStr "{}")
                  = dict_get atom "visualStyle" (VStr "{}")).
  { unfold dict_get.
    apply attribute_atom_returns in H as [[_ ->]|(_ & who & method & ->)];
      rewrite !lookup_insert_ne by done; auto. }
  destruct Hd as [Hq Hv].
  revert H. unfold attribute_atom, bind. rewrite Hq, Hv.
  destruct (json_loads _) as [e|doc]; [discriminate|].
  destruct (eq_zero _).
  - intros [= <-]. f_equal. apply map_eq. intros k.
    destruct (decide (k = "isAlteredQuote")) as [E1|E1];
      destruct (decide (k = "attributionMethod")) as [E2|E2];
      destruct (decide (k = "attributedTo")) as [E3|E3];
      subst; try discriminate;
      repeat first [ rewrite lookup_insert_eq
                   | rewrite lookup_insert_ne by congruence ];
      reflexivity.
  - destruct (is_aggressive_style doc) as [e|[]]; [discriminate| |];
      intros [= <-]; f_equal; apply map_eq; intros k;
      destruct (decide (k = "attributionMethod")) as [E2|E2];
      destruct (decide (k = "attributedTo")) as [E3|E3];
      subst; try discriminate;
      repeat first [ rewrite lookup_insert_eq
                   | rewrite lookup_insert_ne by congruence ];
      reflexivity.
Qed.

Lemma attribute_loop_returns (atoms attributed : list Atom)
    (sender_email : option string) :
  attribute_loop atoms sender_email = (attributed, None) ->
  Forall2 (fun atom atom' => attribute_atom atom sender_email = Return atom')
    atoms attributed.
Proof.
  revert attributed. induction atoms as [|atom rest IH]; intros attributed.
  - intros [= <-]. constructor.
  - cbn [attribute_loop].
    destruct (attribute_atom atom sender_email) as [e|atom'] eqn:Ha; [discriminate|].
    destruct (attribute_loop rest sender_email) as [rest' r].
    intros [= <- ->]. constructor; auto.
Qed.

Lemma attribute_loop_of_returns (atoms attributed : list Atom)
    (sender_email : option string) :
  Forall2 (fun atom atom' => attribute_atom atom sender_email = Return atom')
    atoms attributed ->
  attribute_loop atoms sender_email = (attributed, None).
Proof.
  induction 1 as [|a a' l l' Ha _ IH]; [reflexivity|].
  cbn [attribute_loop]. now rewrite Ha, IH.
Qed.

Lemma attribute_atoms_returns (atoms attributed : list Atom)
    (sender_email : option string) :
  attribute_atoms atoms sender_email = Return attributed <->
  Forall2 (fun atom atom' => attribute_atom atom sender_email = Return atom')
    atoms attributed.
Proof.
  unfold attribute_atoms. split.
  - destruct (attribute_loop atoms sender_email) as [atoms' [e|]] eqn:Hl;
      [discriminate|].
    intros [= <-]. now apply attribute_loop_returns.
  - intros H. now rewrite (attribute_loop_of_returns _ _ _ H).
Qed.

(** X9. Attribution is idempotent: attributing the atoms that
    [attribute_atoms] returned, for the same sender, returns them
    unchanged. *)
Theorem attribute_atoms_idempotent (sender_email : option string)
    (atoms attributed : list Atom) :
  attribute_atoms atoms sender_email = Return attributed ->
  attribute_atoms attributed sender_email = Return attributed.
Proof.
  rewrite !attribute_atoms_returns.
  induction 1 as [|a a' l l' Ha _ IH]; constructor;
    [now apply attribute_atom_idem with a | exact IH].
Qed.

(** X10. [attribute_atoms] returns as many atoms as it was given, in the
    same order; each one has an attributedTo and an attributionMethod,
    every key other than attributedTo, attributionMethod and
    isAlteredQuote is as it was, and isAlteredQuote is written (with
    [False]) on the atoms at depth 0 only. *)
Theorem attribute_atoms_preserves (sender_email : option string)
    (atoms attributed : list Atom) :
  attribute_atoms atoms sender_email = Return attributed ->
  length attributed = length atoms
  /\ forall i atom atom',
       atoms !! i = Some atom -> attributed !! i = Some atom' ->
       (forall k, k <> "attributedTo" -> k <> "attributionMethod" ->
                  k <> "isAlteredQuote" -> atom' !! k = atom !! k)
       /\ (exists who method, assigned atom' who method)
       /\ (if eq_zero (dict_get atom "quoteDepth" (VInt 0))
           then atom' !! "isAlteredQuote" = Some (VBool false)
           else atom' !! "isAlteredQuote" = atom !! "isAlteredQuote").
Proof.
  rewrite attribute_atoms_returns. intros Hall.
  split; [symmetry; eapply Forall2_length, Hall|].
  intros i atom atom' Hi Hi'.
  pose proof (Forall2_lookup_lr _ _ _ _ _ _ Hall Hi Hi') as Ha.
  apply attribute_atom_returns in Ha as [[Hz ->]|(Hz & who & method & ->)];
    rewrite Hz.
  - split; [intros k ? ? ?; now rewrite !lookup_insert_ne by done|].
    split; [|apply lookup_insert_eq].
    exists (of_opt sender_email), "HEADER_DEPTH_0". split.
    + rewrite !lookup_insert_ne by done. apply lookup_insert_eq.
    + unfold has_str. rewrite lookup_insert_ne by done. apply lookup_insert_eq.
  - split; [intros k ? ? ?; now rewrite !lookup_insert_ne by done|].
    split; [|now rewrite !lookup_insert_ne by done].
    exists who, method. split.
    + rewrite lookup_insert_ne by done. apply lookup_insert_eq.
    + apply lookup_insert_eq.
Qed.

(** X11. The only exceptions of [attribute_atoms] are a JSONDecodeError
    and a TypeError (never a KeyError); at depth 0 the style is loaded
    but not looked at, so that an atom at depth 0 whose visualStyle loads,
    as whatever document, is attributed to the sender. *)
Theorem attribute_atoms_exceptions (sender_email : option string) :
  (forall atoms e,
      attribute_atoms atoms sender_email = Raise e ->
      e = JSONDecodeError \/ e = TypeError)
  /\ (forall atom doc,
        json_loads (dict_get atom "visualStyle" (VStr "{}")) = Return doc ->
        eq_zero (dict_get atom "quoteDepth" (VInt 0)) = true ->
        exists atom',
          attribute_atom atom sender_email = Return atom'
          /\ assigned atom' (of_opt sender_email) "HEADER_DEPTH_0")
  /\ (forall atom doc e,
        json_loads (dict_get atom "visualStyle" (VStr "{}")) = Return doc ->
        attribute_atom atom sender_email = Raise e ->
        e = TypeError
        /\ eq_zero (dict_get atom "quoteDepth" (VInt 0)) = false
        /\ is_aggressive_style doc = Raise TypeError).
Proof.
  assert (Hatom : forall atom e,
             attribute_atom atom sender_email = Raise e ->
             e = JSONDecodeError \/ e = TypeError).
  { intros atom e. unfold attribute_atom, bind.
    destruct (json_loads _) as [e'|doc] eqn:Hl.
    - intros [= <-]. now apply json_loads_raises in Hl.
    - destruct (eq_zero _); [discriminate|].
      destruct (is_aggressive_style doc) as [e'|[]] eqn:Hs; try discriminate.
      intros [= <-]. apply is_aggressive_style_raises in Hs. auto. }
  split; [|split].
  - intros atoms e. unfold attribute_atoms.
    destruct (attribute_loop atoms sender_email) as [atoms' [e'|]] eqn:Hl;
      [|discriminate].
    intros [= <-]. revert atoms' Hl.
    induction atoms as [|atom rest IH]; intros atoms'; [discriminate|].
    cbn [attribute_loop].
    destruct (attribute_atom atom sender_email) as [e|atom'] eqn:Ha.
    + intros [= _ <-]. eauto.
    + destruct (attribute_loop rest sender_email) as [rest' r].
      intros [= _ ->]. eauto.
  - intros atom doc Hl Hz. unfold attribute_atom, bind. rewrite Hl, Hz.
    eexists. split; [reflexivity|]. split.
    + rewrite !lookup_insert_ne by done. apply lookup_insert_eq.
    + unfold has_str. rewrite lookup_insert_ne by done. apply lookup_insert_eq.
  - intros atom doc e Hl. unfold attribute_atom, bind. rewrite Hl.
    destruct (eq_zero _); [discriminate|].
    destruct (is_aggressive_style doc) as [e'|[]] eqn:Hs; try discriminate.
    intros [= <-]. apply is_aggressive_style_raises in Hs as He. subst. auto.
Qed.

End AttributionMore.

Lemma attribute_atoms_idempotent_witness :
  exists attributed,
    @attribute_atoms empty_dict_codec
      [list_to_map [("quoteDepth", VInt 1); ("visualStyle", VStr "{}")]]
      (Some "mark@roofer.com")
    = Return attributed
    /\ @attribute_atoms empty_dict_codec attributed (Some "mark@roofer.com")
       = Return attributed.
Proof.
  eexists. split; [reflexivity|].
  apply (@attribute_atoms_idempotent empty_dict_codec (Some "mark@roofer.com")
           [list_to_map [("quoteDepth", VInt 1); ("visualStyle", VStr "{}")]]).
  reflexivity.
Defined.

Lemma attribute_atoms_preserves_witness :
  exists attributed,
    @attribute_atoms empty_dict_codec
      [list_to_map [("quoteDepth", VInt 0); ("content", VStr "Pay me.")]]
      (Some "mark@roofer.com")
    = Return attributed
    /\ length attributed = 1.
Proof.
  eexists. split; [reflexivity|].
  apply (@attribute_atoms_preserves empty_dict_codec (Some "mark@roofer.com")
           [list_to_map [("quoteDepth", VInt 0); ("content", VStr "Pay me.")]]).
  reflexivity.
Defined.

Lemma attribute_atoms_exceptions_witness :
  exists atom',
    @attribute_atom empty_dict_codec
      (list_to_map [("quoteDepth", VInt 0); ("visualStyle", VStr "{}")])
      (Some "mark@roofer.com")
    = Return atom'
    /\ assigned atom' (VStr "mark@roofer.com") "HEADER_DEPTH_0".
Proof.
  destruct (@attribute_atoms_exceptions empty_dict_codec (Some "mark@roofer.com"))
    as (_ & Hzero & _).
  apply (Hzero (list_to_map [("quoteDepth", VInt 0); ("visualStyle", VStr "{}")])
           (VDict [])); reflexivity.
Defined.

Lemma str_append_cons (c : ascii) (s t : string) :
  String.append (String c s) t = String c (String.append s t).
Proof. reflexivity. Qed.

Lemma str_append_nil_r (s : string) : String.append s "" = s.
Proof.
  induction s as [|c s IH]; [reflexivity|]. now rewrite str_append_cons, IH.
Qed.

Lemma str_append_assoc (s t u : string) :
  String.append (String.append s t) u = String.append s (String.append t u).
Proof.
  induction s as [|c s IH]; [reflexivity|]. now rewrite !str_append_cons, IH.
Qed.

Lemma read_key_chars (k rest k0 v : string) (acc : list (string * value)) :
  read_fields (String.append (write_chars "k" k) rest) k0 v acc
  = read_fields rest (String.append k0 k) v acc.
Proof.
  revert k0. induction k as [|c k IH]; intros k0.
  - now rewrite str_append_nil_r.
  - cbn [write_chars]. rewrite !str_append_cons. cbn [read_fields].
    rewrite IH, str_append_assoc. reflexivity.
Qed.

Lemma read_value_chars (v rest k v0 : string) (acc : list (string * value)) :
  read_fields (String.append (write_chars "v" v) rest) k v0 acc
  = read_fields rest k (String.append v0 v) acc.
Proof.
  revert v0. induction v as [|c v IH]; intros v0.
  - now rewrite str_append_nil_r.
  - cbn [write_chars]. rewrite !str_append_cons. cbn [read_fields].
    rewrite IH, str_append_assoc. reflexivity.
Qed.

Lemma read_write_fields (d : list (string * string)) (acc : list (string * value)) :
  read_fields (write_fields ((fun kv => (kv.1, VStr kv.2)) <$> d)) "" "" acc
  = Some (VDict (acc ++ ((fun kv => (kv.1, VStr kv.2)) <$> d))).
Proof.
  revert acc. induction d as [|[k v] d IH]; intros acc.
  - cbn. now rewrite app_nil_r.
  - cbn [fmap list_fmap write_fields fst snd].
    rewrite read_key_chars, read_value_chars. cbn [read_fields].
    rewrite IH, <- app_assoc. reflexivity.
Qed.

Lemma tagged_codec_reads_back (d : list (string * string)) :
  @json_parse tagged_codec (@json_dumps tagged_codec (style_doc d))
  = Some (style_doc d).
Proof. cbn. apply read_write_fields. Qed.

(** ** From the atomizer to the attribution engine *)

Lemma obj_lookup_elem_of (k : string) (l : list (string * string)) (x : value) :
  obj_lookup k ((fun kv => (kv.1, VStr kv.2)) <$> l) = Some x ->
  exists v, x = VStr v /\ (k, v) ∈ l.
Proof.
  induction l as [|[k' v'] l IH]; [discriminate|].
  cbn [fmap list_fmap obj_lookup fst snd].
  destruct (obj_lookup k _) as [y|] eqn:E.
  - intros [= <-]. destruct (IH eq_refl) as (v & -> & Hv).
    exists v. split; [reflexivity | now apply list_elem_of_further].
  - destruct (String.eqb k' k) eqn:Ek; [|discriminate].
    apply String.eqb_eq in Ek as ->. intros [= <-].
    exists v'. split; [reflexivity | apply list_elem_of_here].
Qed.

Lemma obj_lookup_nodup (k v : string) (l : list (string * string)) :
  NoDup l.*1 -> (k, v) ∈ l ->
  obj_lookup k ((fun kv => (kv.1, VStr kv.2)) <$> l) = Some (VStr v).
Proof.
  induction l as [|[k' v'] l IH]; intros Hnd Hin; [now apply elem_of_nil in Hin|].
  cbn [fmap list_fmap fst] in Hnd. apply NoDup_cons in Hnd as [Hk' Hnd].
  cbn [fmap list_fmap obj_lookup fst snd].
  apply elem_of_cons in Hin as [[= <- <-]|Hin].
  - destruct (obj_lookup k _) as [y|] eqn:E.
    + apply obj_lookup_elem_of in E as (u & _ & Hu).
      exfalso. apply Hk'. apply list_elem_of_fmap. now exists (k, u).
    + now rewrite String.eqb_refl.
  - now rewrite (IH Hnd Hin).
Qed.

Lemma style_lookup_sorted (k : string) (m : style) :
  style_lookup k (merge_sort key_le (map_to_list m)) = m !! k.
Proof.
  unfold style_lookup.
  assert (Hperm : merge_sort key_le (map_to_list m) ≡ₚ map_to_list m)
    by apply merge_sort_Permutation.
  destruct (m !! k) as [v|] eqn:Hm.
  - rewrite (obj_lookup_nodup k v); [reflexivity| |].
    + rewrite Hperm. apply NoDup_fst_map_to_list.
    + rewrite Hperm. now apply elem_of_map_to_list.
  - destruct (obj_lookup k _) as [x|] eqn:E; [|reflexivity].
    apply obj_lookup_elem_of in E as (v & -> & Hv).
    rewrite Hperm in Hv. apply elem_of_map_to_list in Hv. congruence.
Qed.

Lemma aggressive_clean_style (node_style : style) :
  aggressive
    (merge_sort key_le
       (map_to_list (filter (fun kv => Str.nonempty kv.2 = true) node_style)))
  = aggressive_style node_style.
Proof.
  unfold aggressive, aggressive_style, shows_red, shows_bold, shows_uppercase.
  rewrite !style_lookup_sorted. f_equal; [f_equal|].
  - destruct (node_style !! "color") as [c|] eqn:Hc.
    + destruct (Str.nonempty c) eqn:Hne.
      * assert (H : filter (fun kv : string * string => Str.nonempty kv.2 = true)
                      node_style !! "color" = Some c)
          by (apply map_lookup_filter_Some; split; [exact Hc | exact Hne]).
        now rewrite H.
      * assert (H : filter (fun kv : string * string => Str.nonempty kv.2 = true)
                      node_style !! "color" = None).
        { apply map_lookup_filter_None. right. intros x Hx.
          rewrite Hc in Hx. injection Hx as <-. cbn. congruence. }
        rewrite H. destruct c; [reflexivity | discriminate].
    + assert (H : filter (fun kv : string * string => Str.nonempty kv.2 = true)
                    node_style !! "color" = None)
        by (apply map_lookup_filter_None; now left).
      now rewrite H.
  - apply bool_decide_ext. rewrite map_lookup_filter_Some. cbn. intuition.
  - apply bool_decide_ext. rewrite map_lookup_filter_Some. cbn. intuition.
Qed.

Section Composition.

Context {hashing : Hashing} {segmenter : Segmenter} {parser : HtmlParser}
        {codec : JsonCodec}.

Hypothesis reads_back :
  forall d, json_parse (json_dumps (style_doc d)) = Some (style_doc d).

Lemma html_atom_parses message_id sent_text i d sty :
  parses_as (html_atom message_id sent_text i d sty)
    (merge_sort key_le
       (map_to_list (filter (fun kv => Str.nonempty kv.2 = true) sty))).
Proof.
  unfold parses_as.
  assert (Hv : has_str (html_atom message_id sent_text i d sty) "visualStyle"
                 (json_dumps (style_doc (merge_sort key_le
                    (map_to_list
                       (filter (fun kv => Str.nonempty kv.2 = true) sty))))))
    by reflexivity.
  unfold dict_get. rewrite Hv. unfold json_loads. cbn [default from_option id].
  now rewrite reads_back.
Qed.

Lemma html_atom_attributed (sender_email : option string)
    message_id sent_text i d sty :
  exists atom',
    attribute_atom (html_atom message_id sent_text i d sty) sender_email
    = Return atom'
    /\ (d = 0 -> assigned atom' (of_opt sender_email) "HEADER_DEPTH_0")
    /\ (0 < d -> aggressive_style sty = true ->
        assigned atom' (of_opt sender_email) "STYLE_INFERENCE_INTERJECTION")
    /\ (0 < d -> aggressive_style sty = false ->
        assigned atom' (VStr "Quoted_Party") "QUOTE_DEPTH").
Proof.
  destruct (attribute_atom_policy sender_email _ _
              (html_atom_parses message_id sent_text i d sty))
    as (atom' & Ha & H0 & H1 & H2).
  exists atom'. split; [exact Ha|].
  assert (Hd : dict_get (html_atom message_id sent_text i d sty) "quoteDepth" (VInt 0)
               = VInt (Z.of_nat d)) by reflexivity.
  rewrite <- aggressive_clean_style.
  split; [|split].
  - intros ->. apply H0. exact Hd.
  - intros Hpos Hag. apply (H1 (Z.of_nat d)); [exact Hd | lia | exact Hag].
  - intros Hpos Hag. apply (H2 (Z.of_nat d)); [exact Hd | lia | exact Hag].
Qed.

End Composition.

Section Parsed.

Context {hashing : Hashing} {segmenter : Segmenter} {parser : HtmlParser}
        {codec : JsonCodec}.

(** What the atomizer returns carries the JSON text of a style dict. *)
Lemma atomize_parses
    (reads_back :
       forall d, json_parse (json_dumps (style_doc d)) = Some (style_doc d))
    (empty_dict_text : json_parse "{}" = Some (VDict []))
    message_id html_content plain_content0 sender_email (returned : list Atom) :
  atomize message_id html_content plain_content0 sender_email = Return returned ->
  Forall (fun atom => exists d, parses_as atom d) returned.
Proof.
  intros Hret.
  destruct (negb (truthy_opt html_content) && truthy_opt plain_content0) eqn:Hpath.
  - destruct (atomize_plain_new _ _ _ _ _ Hpath Hret) as (sentences & _ & ->).
    apply Forall_forall. intros a Ha.
    apply plain_new_positions in Ha as (j & s & _ & _ & ->).
    exists []. unfold parses_as.
    change (json_loads (VStr "{}") = Return (VDict [])).
    unfold json_loads. now rewrite empty_dict_text.
  - pose proof (atomize_html_emitted _ _ _ _ _ Hpath Hret) as Hem.
    apply Forall_lookup. intros j a Hj.
    destruct (Hem _ _ Hj) as (t & depth & sty & -> & _).
    eexists. now apply html_atom_parses.
Qed.

Lemma attribute_returns_on_parsed (sender_email : option string)
    (atoms : list Atom) :
  Forall (fun atom => exists d, parses_as atom d) atoms ->
  exists attributed,
    Forall2 (fun atom atom' => attribute_atom atom sender_email = Return atom')
      atoms attributed.
Proof.
  induction 1 as [|atom atoms [d Hd] _ [attributed IH]].
  - exists []. constructor.
  - destruct (attribute_atom_policy sender_email atom d Hd) as (atom' & Ha & _).
    exists (atom' :: attributed). now constructor.
Qed.

Lemma attribute_atom_assigned (sender_email : option string) (atom atom' : Atom) :
  attribute_atom atom sender_email = Return atom' ->
  exists who method, assigned atom' who method.
Proof.
  intros Ha.
  apply attribute_atom_returns in Ha as [[_ ->]|(_ & who & method & ->)].
  - exists (of_opt sender_email), "HEADER_DEPTH_0". split.
    + rewrite !lookup_insert_ne by done. apply lookup_insert_eq.
    + unfold has_str. rewrite lookup_insert_ne by done. apply lookup_insert_eq.
  - exists who, method. split.
    + rewrite lookup_insert_ne by done. apply lookup_insert_eq.
    + apply lookup_insert_eq.
Qed.

End Parsed.

Section CompositionClaims.

Context {hashing : Hashing} {segmenter : Segmenter} {parser : HtmlParser}
        {codec : JsonCodec}.

(** X12. When the JSON codec reads back the style dicts it writes, the
    attribution engine never raises on what the atomizer returned, on
    the HTML path and on the plain-text path: it returns as many atoms,
    each with an attributedTo and an attributionMethod. *)
Theorem atomize_then_attribute
    (reads_back :
       forall d, json_parse (json_dumps (style_doc d)) = Some (style_doc d))
    (empty_dict_text : json_parse "{}" = Some (VDict []))
    message_id html_content plain_content0 sender_email (returned : list Atom) :
  atomize message_id html_content plain_content0 sender_email = Return returned ->
  forall sender,
    exists attributed,
      attribute_atoms returned sender = Return attributed
      /\ length attributed = length returned
      /\ Forall (fun atom' => exists who method, assigned atom' who method)
           attributed.
Proof.
  intros Hret sender.
  destruct (attribute_returns_on_parsed sender returned
              (atomize_parses reads_back empty_dict_text _ _ _ _ _ Hret))
    as (attributed & Hf).
  exists attributed. split; [now apply attribute_atoms_returns|].
  split; [symmetry; eapply Forall2_length, Hf|].
  clear Hret. induction Hf as [|a a' l l' Ha _ IH]; [constructor|].
  constructor; [now apply attribute_atom_assigned in Ha | exact IH].
Qed.

(** X13. When the JSON codec reads back the style dicts it writes, the
    atoms of a text node are attributed by the depth and the accumulated
    style of the node: at depth 0 to the sender (HEADER_DEPTH_0); inside
    a quote to the sender (STYLE_INFERENCE_INTERJECTION) when the style
    has a colour that contains red, a bold weight or an uppercase
    transform, and to Quoted_Party (QUOTE_DEPTH) otherwise. *)
Theorem styled_text_attribution
    (reads_back :
       forall d, json_parse (json_dumps (style_doc d)) = Some (style_doc d))
    message_id (sender_email : option string) text d sty w w' :
  traverse message_id (NavigableString text) d sty w = Return w' ->
  exists new,
    atoms w' = atoms w ++ new
    /\ Forall (fun atom =>
         exists atom',
           attribute_atom atom sender_email = Return atom'
           /\ (d = 0 -> assigned atom' (of_opt sender_email) "HEADER_DEPTH_0")
           /\ (0 < d -> aggressive_style sty = true ->
               assigned atom' (of_opt sender_email)
                 "STYLE_INFERENCE_INTERJECTION")
           /\ (0 < d -> aggressive_style sty = false ->
               assigned atom' (VStr "Quoted_Party") "QUOTE_DEPTH")) new.
Proof.
  rewrite traverse_text.
  destruct (Str.nonempty (Str.strip text)); cbn [negb].
  - unfold bind.
    destruct (sent_tokenize (Str.strip text)) as [e|sentences]; [discriminate|].
    intros [= <-].
    destruct (emit_sentences_extends message_id d sty sentences w)
      as (new & Ha & _ & Hn).
    exists new. split; [exact Ha|].
    apply Forall_lookup. intros j a Hj.
    destruct (Hn _ _ Hj) as (t & -> & _).
    now apply html_atom_attributed.
  - intros [= <-]. exists []. split; [now rewrite app_nil_r | constructor].
Qed.

End CompositionClaims.

Lemma atomize_then_attribute_witness :
  exists attributed,
    (atoms0 <- @atomize plain_digest one_sentence
                 (parses_to
                    (Tag "blockquote" ∅
                       [Tag "b" ∅ [NavigableString "YES WE DID"]]))
                 tagged_codec (Some "m1") (Some "<blockquote>") None
                 (Some "mark@roofer.com") ;;
     @attribute_atoms tagged_codec atoms0 (Some "mark@roofer.com"))
    = Return attributed
    /\ length attributed = 1.
Proof.
  destruct (@atomize_then_attribute plain_digest one_sentence
              (parses_to
                 (Tag "blockquote" ∅ [Tag "b" ∅ [NavigableString "YES WE DID"]]))
              tagged_codec tagged_codec_reads_back eq_refl
              (Some "m1") (Some "<blockquote>") None (Some "mark@roofer.com")
              _ eq_refl (Some "mark@roofer.com"))
    as (attributed & Ha & Hlen & _).
  exists attributed. split; [exact Ha | exact Hlen].
Defined.

Lemma styled_text_attribution_witness :
  exists atom',
    @attribute_atom tagged_codec
      (@html_atom plain_digest tagged_codec (Some "m1") "YES WE DID" 0 1
         {["color" := "darkred"]})
      (Some "mark@roofer.com")
    = Return atom'
    /\ assigned atom' (VStr "mark@roofer.com") "STYLE_INFERENCE_INTERJECTION".
Proof.
  destruct (@styled_text_attribution plain_digest one_sentence
              (parses_to (NavigableString "")) tagged_codec
              tagged_codec_reads_back (Some "m1") (Some "mark@roofer.com")
              " YES WE DID " 1 {["color" := "darkred"]} (Walk [] 0) _ eq_refl)
    as (new & Hnew & Hall).
  cbn [atoms app] in Hnew. rewrite <- Hnew in Hall.
  apply Forall_cons in Hall as [(atom' & Ha & _ & Hred & _) _].
  exists atom'. split; [exact Ha|]. apply Hred; [lia | reflexivity].
Defined.

(** The thread of the self-test of forensics/atomizer.py: a line of the
    sender, then a quote in which the sender has written in red and
    bold.  The four atoms go to the sender, the quoted party, the sender
    and the quoted party. *)
Example franken_thread :
  let body :=
    Tag "body" ∅
      [ NavigableString "On Jan 1, Victim wrote:";
        Tag "blockquote" ∅
          [ NavigableString "Did you get the permit?";
            Tag "span" {["style" := AttrStr "color: red; font-weight: bold;"]}
              [NavigableString "YES WE DID (C39 #12345)"];
            NavigableString "Please confirm installation date." ] ] in
  match
    atoms0 <- @atomize plain_digest one_sentence
                (parses_to (Tag "html" ∅ [body])) tagged_codec
                (Some "msg_001") (Some "<html>") None (Some "mark@roofer.com") ;;
    @attribute_atoms tagged_codec atoms0 (Some "mark@roofer.com")
  with
  | Return attributed =>
      (fun a => (a !! "quoteDepth", a !! "attributedTo", a !! "attributionMethod"))
        <$> attributed
  | Raise _ => []
  end
  = [ (Some (VInt 0), Some (VStr "mark@roofer.com"), Some (VStr "HEADER_DEPTH_0"));
      (Some (VInt 1), Some (VStr "Quoted_Party"), Some (VStr "QUOTE_DEPTH"));
      (Some (VInt 1), Some (VStr "mark@roofer.com"),
       Some (VStr "STYLE_INFERENCE_INTERJECTION"));
      (Some (VInt 1), Some (VStr "Quoted_Party"), Some (VStr "QUOTE_DEPTH")) ].
Proof. vm_compute. reflexivity. Qed.

(** ** The attribution summary *)

Lemma stats_incr_total (auth : value) (stats : list (value * Z)) :
  foldr Z.add 0%Z (stats_incr auth stats).*2 = (foldr Z.add 0%Z stats.*2 + 1)%Z.
Proof.
  induction stats as [|[k n] stats IH]; [reflexivity|].
  cbn [stats_incr]. destruct (key_eqb k auth); cbn [fmap list_fmap foldr snd] in *; lia.
Qed.

Lemma stats_incr_keys (P : value -> Prop) (auth : value) (stats : list (value * Z)) :
  P auth -> Forall (fun kn => P kn.1 /\ (1 <= kn.2)%Z) stats ->
  Forall (fun kn => P kn.1 /\ (1 <= kn.2)%Z) (stats_incr auth stats).
Proof.
  intros Hauth. induction 1 as [|[k n] stats [Hk Hn] Hrest IH].
  - constructor; [|constructor]. split; [exact Hauth | cbn; lia].
  - cbn [fst snd] in Hk, Hn. cbn [stats_incr]. destruct (key_eqb k auth).
    + constructor; [|exact Hrest]. split; [exact Hk | cbn; lia].
    + constructor; [|exact IH]. split; [exact Hk | exact Hn].
Qed.

Lemma summarize_loop_returns (P : value -> Prop) (atoms : list Atom) :
  forall stats stats',
    summarize_loop atoms stats = Return stats' ->
    Forall (fun a => P (dict_get a "attributedTo" (VStr "unknown"))) atoms ->
    Forall (fun kn => P kn.1 /\ (1 <= kn.2)%Z) stats ->
    foldr Z.add 0%Z stats'.*2
    = (foldr Z.add 0%Z stats.*2 + Z.of_nat (length atoms))%Z
    /\ Forall (fun kn => P kn.1 /\ (1 <= kn.2)%Z) stats'.
Proof.
  induction atoms as [|a atoms IH]; intros stats stats' Hret Hall Hst.
  - injection Hret as <-. cbn [length]. split; [lia | exact Hst].
  - cbn [summarize_loop] in Hret.
    destruct (hashable _); [|discriminate].
    apply Forall_cons in Hall as [Ha Hall].
    destruct (IH _ _ Hret Hall (stats_incr_keys P _ _ Ha Hst)) as [Hsum Hkeys].
    split; [|exact Hkeys].
    rewrite Hsum, stats_incr_total. cbn [length]. lia.
Qed.

Lemma summarize_loop_hashable (atoms : list Atom) :
  forall stats,
    Forall (fun a => hashable (dict_get a "attributedTo" (VStr "unknown")) = true)
      atoms ->
    exists stats', summarize_loop atoms stats = Return stats'.
Proof.
  induction atoms as [|a atoms IH]; intros stats Hall; [now exists stats|].
  apply Forall_cons in Hall as [Ha Hall].
  cbn [summarize_loop]. rewrite Ha. apply IH, Hall.
Qed.

Lemma summarize_loop_raises (atoms : list Atom) :
  forall stats e,
    summarize_loop atoms stats = Raise e ->
    e = TypeError
    /\ Exists (fun a => hashable (dict_get a "attributedTo" (VStr "unknown")) = false)
         atoms.
Proof.
  induction atoms as [|a atoms IH]; intros stats e Hr; [discriminate|].
  cbn [summarize_loop] in Hr.
  destruct (hashable _) eqn:Hh.
  - destruct (IH _ _ Hr) as [He Hex]. split; [exact He | now apply Exists_cons_tl].
  - injection Hr as <-. split; [reflexivity | now apply Exists_cons_hd].
Qed.

(** X14. [_summarize_attribution] counts every atom once: when it
    returns, its counts are all positive and add up to the number of
    atoms; it returns whenever every attributedTo (or the default, the
    str unknown, for an atom without that key) is hashable, and the only
    exception it raises is the TypeError of a list or dict used as a
    key. *)
Theorem summarize_counts_every_atom (atoms : list Atom) :
  (forall stats,
      _summarize_attribution atoms = Return stats ->
      foldr Z.add 0%Z stats.*2 = Z.of_nat (length atoms)
      /\ Forall (fun kn => (1 <= kn.2)%Z) stats)
  /\ (Forall (fun a => hashable (dict_get a "attributedTo" (VStr "unknown")) = true)
        atoms ->
      exists stats, _summarize_attribution atoms = Return stats)
  /\ (forall e,
        _summarize_attribution atoms = Raise e ->
        e = TypeError
        /\ Exists (fun a =>
             hashable (dict_get a "attributedTo" (VStr "unknown")) = false) atoms).
Proof.
  unfold _summarize_attribution. split; [|split].
  - intros stats Hret.
    destruct (summarize_loop_returns (fun _ => True) atoms [] stats Hret)
      as [Hsum Hkeys].
    + apply Forall_forall. auto.
    + constructor.
    + split; [exact Hsum|]. eapply Forall_impl; [exact Hkeys|]. now intros ? [_ ?].
  - apply summarize_loop_hashable.
  - apply summarize_loop_raises.
Qed.

Section SummaryOfAttribution.

Context {codec : JsonCodec}.

(** X15. The summary of the atoms that [attribute_atoms] returned never
    raises; its keys are the sender and Quoted_Party only, and its
    counts add up to the number of atoms. *)
Theorem summary_of_attributed (sender_email : option string)
    (atoms attributed : list Atom) :
  attribute_atoms atoms sender_email = Return attributed ->
  exists stats,
    _summarize_attribution attributed = Return stats
    /\ foldr Z.add 0%Z stats.*2 = Z.of_nat (length atoms)
    /\ Forall (fun kn => kn.1 = of_opt sender_email \/ kn.1 = VStr "Quoted_Party")
         stats.
Proof.
  intros Hret.
  pose proof (proj1 (attribute_atoms_returns _ _ _) Hret) as Hall.
  assert (Hlen : length attributed = length atoms)
    by (symmetry; eapply Forall2_length, Hall).
  assert (Hauth : Forall (fun a =>
            dict_get a "attributedTo" (VStr "unknown") = of_opt sender_email
            \/ dict_get a "attributedTo" (VStr "unknown") = VStr "Quoted_Party")
            attributed).
  { clear Hret Hlen. induction Hall as [|a a' l l' Ha _ IH]; constructor;
      [|exact IH].
    revert Ha. unfold attribute_atom, bind, dict_get.
    destruct (json_loads _) as [e|doc]; [discriminate|].
    destruct (eq_zero _).
    - intros [= <-]. left. rewrite !lookup_insert_ne by done.
      now rewrite lookup_insert_eq.
    - destruct (is_aggressive_style doc) as [e|[]]; [discriminate| |];
        intros [= <-]; [left|right]; rewrite lookup_insert_ne by done;
        now rewrite lookup_insert_eq. }
  destruct (summarize_loop_hashable attributed []) as [stats Hs].
  { eapply Forall_impl; [exact Hauth|]. intros a [-> | ->]; [|reflexivity].
    now destruct sender_email. }
  exists stats. split; [exact Hs|].
  destruct (summarize_loop_returns
              (fun k => k = of_opt sender_email \/ k = VStr "Quoted_Party")
              attributed [] stats Hs Hauth) as [Hsum Hkeys]; [constructor|].
  split; [rewrite Hsum, Hlen; cbn; lia|].
  eapply Forall_impl; [exact Hkeys|]. now intros ? [? _].
Qed.

End SummaryOfAttribution.

Lemma summarize_counts_every_atom_witness :
  exists stats,
    _summarize_attribution
      [ list_to_map [("attributedTo", VStr "mark@roofer.com")];
        list_to_map [("content", VStr "Pay me.")];
        list_to_map [("attributedTo", VStr "mark@roofer.com")] ]
    = Return stats
    /\ foldr Z.add 0%Z stats.*2 = 3%Z.
Proof.
  eexists. split; [reflexivity|].
  apply (summarize_counts_every_atom
           [ list_to_map [("attributedTo", VStr "mark@roofer.com")];
             list_to_map [("content", VStr "Pay me.")];
             list_to_map [("attributedTo", VStr "mark@roofer.com")] ]).
  reflexivity.
Defined.

Lemma summary_of_attributed_witness :
  exists attributed stats,
    @attribute_atoms empty_dict_codec
      [ list_to_map [("quoteDepth", VInt 0)];
        list_to_map [("quoteDepth", VInt 1)] ] (Some "mark@roofer.com")
    = Return attributed
    /\ _summarize_attribution attributed = Return stats
    /\ foldr Z.add 0%Z stats.*2 = 2%Z.
Proof.
  assert (Ha : exists attributed,
             @attribute_atoms empty_dict_codec
               [ list_to_map [("quoteDepth", VInt 0)];
                 list_to_map [("quoteDepth", VInt 1)] ] (Some "mark@roofer.com")
             = Return attributed) by (eexists; reflexivity).
  destruct Ha as [attributed Ha].
  destruct (@summary_of_attributed empty_dict_codec (Some "mark@roofer.com")
              _ attributed Ha)
    as (stats & Hs & Hsum & _).
  exists attributed, stats. split; [exact Ha|]. split; [exact Hs | exact Hsum].
Defined.

(** ** The start of a run and the creation of the message record *)

Section RunStart.

Context {hashing : Hashing} {segmenter : Segmenter} {parser : HtmlParser}
        {codec : JsonCodec} {outside : Outside}.

Lemma log_event_run type step_name (w : World) :
  log_event type step_name w
  = (Return tt, (worker w (POST_log type step_name)).2,
     [Requested (POST_log type step_name) (worker w (POST_log type step_name)).1]).
Proof.
  unfold log_event, pbind, exchange, ret.
  now destruct (worker w (POST_log type step_name)) as [reply w'].
Qed.

Lemma emit_run self event_type (w : World) :
  _emit self event_type w
  = (Return tt, w, if monitor self then [Emitted event_type] else []).
Proof. unfold _emit, record, ret. now destruct (monitor self). Qed.

(** The first lines of [process_message] always come to the creation of
    the record: they return the content, after log lines, monitor events
    and at most one Gmail fetch. *)
Lemma extract_content_run self message_payload (w : World) :
  exists c w' evs,
    extract_content self message_payload w = (Return c, w', evs)
    /\ Forall before_gate evs
    /\ (needs_fetch self message_payload = false ->
        c = payload_content message_payload
        /\ List.filter is_gmail_fetch evs = [])
    /\ (needs_fetch self message_payload = true ->
        List.filter is_gmail_fetch evs = [GmailFetch (messageId message_payload)]).
Proof.
  unfold extract_content, needs_fetch, fetch_from_gmail, info, warning, error,
    log_event, _emit, pbind, exchange, ret, record.
  destruct (worker w (POST_log "INFO" "process_message")) as [l1 w1].
  cbn [body_plain].
  destruct (negb (truthy_opt (body message_payload))
            && truthy_opt (gcp_service_account self)).
  - destruct (monitor self);
      (destruct (gmail w1 (messageId message_payload) _) as [[c' o] w2];
       destruct o as [[|]|e];
       repeat match goal with
         | |- context [worker ?w0 ?req] =>
             let l := fresh "l" in let w' := fresh "w" in
             destruct (worker w0 req) as [l w']
         end;
       cbn;
       (do 3 eexists; split; [reflexivity|];
        split; [repeat constructor|]; split; [discriminate | reflexivity])).
  - destruct (monitor self); cbn;
      (do 3 eexists; split; [reflexivity|];
       split; [repeat constructor|]; split; [split; reflexivity | discriminate]).
Qed.

Lemma pbind_ret_run {A B : Type} (m : Pipe A) (k : A -> Pipe B)
    (w : World) (a : A) (w1 : World) (evs1 : list event) :
  m w = (Return a, w1, evs1) ->
  pbind m k w = (let '(r, w2, evs2) := k a w1 in (r, w2, evs1 ++ evs2)).
Proof. intros H. rewrite pbind_run, H. reflexivity. Qed.

Lemma attempt_create_run (message_data : db_message) (w : World) :
  attempt (create_message message_data) w
  = (Return (_request (worker w (POST_message_create message_data)).1),
     (worker w (POST_message_create message_data)).2,
     [Requested (POST_message_create message_data)
        (worker w (POST_message_create message_data)).1]).
Proof.
  unfold attempt, create_message, _post, pbind, exchange, lift.
  now destruct (worker w (POST_message_create message_data)) as [reply w'].
Qed.

Lemma quiet_any {A : Type} (m : Pipe A) : quiet (fun _ => True) m.
Proof. intros w. apply Forall_forall. auto. Qed.

Lemma analyse_status self message_id c :
  run_sat (fun r _ => forall d, r = Return d -> has_str d "status" "success")
    (analyse self message_id c).
Proof.
  assert (Hclosed : closed_under (fun _ : event => True)
            (fun (r : result pydict) (_ : list event) =>
               forall d, r = Return d -> has_str d "status" "success")).
  { split; [discriminate | auto]. }
  unfold analyse.
  do 10 (apply (run_sat_pbind (fun _ => True));
         [exact Hclosed | apply quiet_any | intros ?]).
  unfold save_and_store.
  do 8 (apply (run_sat_pbind (fun _ => True));
        [exact Hclosed | apply quiet_any | intros ?]).
  intros w d [= <-]. reflexivity.
Qed.

(** X16. Every run of [process_message] sends exactly one request that
    creates the message record, after log lines, monitor events and a
    possible Gmail fetch only; the record is built from the payload and
    the pipeline (and, when no fetch is needed, from the content of the
    payload as it is); and the run returns the skipped status exactly
    when the call of that creation raised. *)
Theorem one_creation_per_run (self : ACREPipeline) (message_payload : payload)
    (w : World) :
  let run := process_message self message_payload w in
  exists pre c reply post,
    run.2 = pre ++ Requested (POST_message_create
                                (make_db_message self message_payload c)) reply
                   :: post
    /\ Forall before_gate pre
    /\ Forall (fun ev => is_create ev = false) post
    /\ (run.1.1 = Return skipped_duplicate <-> exists e, _request reply = Raise e)
    /\ (needs_fetch self message_payload = false ->
        c = payload_content message_payload).
Proof.
  cbv zeta. unfold process_message.
  destruct (extract_content_run self message_payload w)
    as (c & w1 & evs1 & Hext & Hpre & Hnf & _).
  rewrite (pbind_ret_run _ _ w c w1 evs1 Hext).
  rewrite (pbind_ret_run _ _ w1 tt _ _ (log_event_run "INFO" "process_message" w1)).
  set (w2 := (worker w1 (POST_log "INFO" "process_message")).2).
  set (l2 := (worker w1 (POST_log "INFO" "process_message")).1).
  rewrite (pbind_ret_run _ _ w2 _ _ _ (attempt_create_run _ w2)).
  set (reply := (worker w2 (POST_message_create
                              (make_db_message self message_payload c))).1).
  set (w3 := (worker w2 (POST_message_create
                           (make_db_message self message_payload c))).2).
  exists (evs1 ++ [Requested (POST_log "INFO" "process_message") l2]), c, reply.
  destruct (_request reply) as [e|v] eqn:Er.
  - rewrite (pbind_ret_run _ _ w3 tt _ _ (log_event_run "INFO" "process_message" w3)).
    unfold ret. eexists. cbn. split; [now rewrite <- app_assoc|].
    split; [apply Forall_app; split; [exact Hpre | now repeat constructor]|].
    split; [now repeat constructor|].
    split; [split; eauto | intros H; now apply Hnf].
  - pose proof (analyse_no_create self (messageId message_payload) c w3) as Hq.
    pose proof (analyse_status self (messageId message_payload) c w3) as Hs.
    destruct (analyse self (messageId message_payload) c w3) as [[r w4] evs4].
    cbn [fst snd] in Hq, Hs |- *. exists evs4.
    split; [now rewrite <- app_assoc|].
    split; [apply Forall_app; split; [exact Hpre | now repeat constructor]|].
    split; [exact Hq|].
    split; [|intros H; now apply Hnf].
    split; [|intros [e He]; discriminate].
    intros ->. specialize (Hs _ eq_refl).
    assert (Hk : has_str skipped_duplicate "status" "skipped") by reflexivity.
    unfold has_str in Hs, Hk. rewrite Hk in Hs. discriminate Hs.
Qed.

(** X17. A run of [process_message] fetches the message from Gmail at
    most once, and only when the payload has no body and a service
    account is configured. *)
Theorem gmail_fetch_only_when_needed (self : ACREPipeline)
    (message_payload : payload) (w : World) :
  let run := process_message self message_payload w in
  (needs_fetch self message_payload = false ->
   List.filter is_gmail_fetch run.2 = [])
  /\ (needs_fetch self message_payload = true ->
      List.filter is_gmail_fetch run.2 = [GmailFetch (messageId message_payload)]).
Proof.
  cbv zeta. unfold process_message.
  destruct (extract_content_run self message_payload w)
    as (c & w1 & evs1 & Hext & _ & Hnf & Hf).
  rewrite (pbind_ret_run _ _ w c w1 evs1 Hext).
  match goal with
  | |- context [pbind ?m ?k w1] =>
      assert (Hrest : quiet (fun ev => is_gmail_fetch ev = false) (pbind m k))
  end.
  { unfold analyse, save_and_store, classify, classify_batch, _invoke, run_agent,
      create_message, batch_create_transcripts, store_analysis, _post, info,
      error, log_event, _emit.
    quiet_steps. }
  specialize (Hrest w1).
  match goal with
  | |- context [pbind ?m ?k w1] => destruct (pbind m k w1) as [[r w2] evs2]
  end.
  cbn in Hrest |- *. rewrite List.filter_app, (filter_none _ _ Hrest), app_nil_r.
  split; [intros H; now apply Hnf | exact Hf].
Qed.

End RunStart.

Lemma one_creation_per_run_witness :
  exists pre c reply post,
    (@process_message plain_digest one_sentence (parses_to (NavigableString "hello"))
       empty_dict_codec (scripted_outside create_unreachable)
       (Pipeline "default" "INITIAL_PROCESSING" None false)
       (Payload (Some "m1") None ∅ (Some "hello") (Some "")) tt).2
    = pre ++ Requested
               (POST_message_create
                  (make_db_message
                     (Pipeline "default" "INITIAL_PROCESSING" None false)
                     (Payload (Some "m1") None ∅ (Some "hello") (Some "")) c))
               reply :: post
    /\ c = Content ∅ (Some "hello") (Some "").
Proof.
  destruct (@one_creation_per_run plain_digest one_sentence
              (parses_to (NavigableString "hello")) empty_dict_codec
              (scripted_outside create_unreachable)
              (Pipeline "default" "INITIAL_PROCESSING" None false)
              (Payload (Some "m1") None ∅ (Some "hello") (Some "")) tt)
    as (pre & c & reply & post & Hevs & _ & _ & _ & Hc).
  exists pre, c, reply, post. split; [exact Hevs | apply Hc; reflexivity].
Defined.

Lemma gmail_fetch_only_when_needed_witness :
  List.filter is_gmail_fetch
    (@process_message plain_digest one_sentence (parses_to (NavigableString "hello"))
       empty_dict_codec (scripted_outside create_unreachable)
       (Pipeline "default" "INITIAL_PROCESSING" (Some "{}") false)
       (Payload (Some "m1") None ∅ (Some "hello") (Some "")) tt).2
  = [].
Proof.
  apply (@gmail_fetch_only_when_needed plain_digest one_sentence
           (parses_to (NavigableString "hello")) empty_dict_codec
           (scripted_outside create_unreachable)
           (Pipeline "default" "INITIAL_PROCESSING" (Some "{}") false)
           (Payload (Some "m1") None ∅ (Some "hello") (Some "")) tt).
  reflexivity.
Defined.

(** ** Classification is best effort *)

Lemma label_loop_only_labels (classification_results : value) (atoms : list Atom) :
  forall atoms' r,
    label_loop classification_results atoms = (atoms', r) ->
    Forall2 only_labels atoms atoms'.
Proof.
  induction atoms as [|atom rest IH]; intros atoms' r.
  - intros [= <- _]. constructor.
  - cbn [label_loop].
    destruct (bind (getitem atom "id") _) as [e|labels].
    + intros [= <- _]. apply Forall2_same_length_lookup_2; [reflexivity|].
      intros i x y Hx Hy. left. congruence.
    + destruct (label_loop classification_results rest) as [rest' r'].
      intros [= <- _]. constructor; [right; eauto | eapply IH; reflexivity].
Qed.

Lemma only_labels_refl (atoms : list Atom) : Forall2 only_labels atoms atoms.
Proof. induction atoms; constructor; [now left | assumption]. Qed.

Section Classification.

Context {hashing : Hashing} {segmenter : Segmenter} {parser : HtmlParser}
        {codec : JsonCodec} {outside : Outside}.

Lemma log_then_ret {A : Type} type step_name (a : A) (w : World) :
  exists w' evs,
    pbind (log_event type step_name) (fun _ => ret a) w = (Return a, w', evs)
    /\ Forall (fun ev => is_classification ev = false) evs.
Proof.
  rewrite (pbind_ret_run _ _ w tt _ _ (log_event_run type step_name w)).
  unfold ret. do 2 eexists. split; [reflexivity|]. now repeat constructor.
Qed.

Lemma classify_run self (atoms : list Atom) (w : World) :
  exists atoms' w' evs,
    classify self atoms w = (Return atoms', w', evs)
    /\ Forall2 only_labels atoms atoms'.
Proof.
  unfold classify.
  destruct (map_result classifier_entry atoms) as [e|classifier_input].
  { destruct (log_then_ret "ERROR" "process_message" atoms w) as (w' & evs & H & _).
    exists atoms, w', evs. split; [exact H | apply only_labels_refl]. }
  rewrite pbind_run. unfold attempt.
  destruct (classify_batch (engagement_id self) classifier_input w)
    as [[[e|classification_results] w1] evs1].
  { destruct (log_then_ret "ERROR" "process_message" atoms w1) as (w' & evs & H & _).
    unfold error. rewrite H. do 3 eexists. split; [reflexivity | apply only_labels_refl]. }
  destruct (label_loop classification_results atoms) as [atoms' r] eqn:Hl.
  apply label_loop_only_labels in Hl.
  destruct r as [e|].
  { destruct (log_then_ret "ERROR" "process_message" atoms' w1) as (w' & evs & H & _).
    unfold error. rewrite H. do 3 eexists. split; [reflexivity | exact Hl]. }
  destruct (labels_summary classification_results) as [e|[]].
  { destruct (log_then_ret "ERROR" "process_message" atoms' w1) as (w' & evs & H & _).
    unfold error. rewrite H. do 3 eexists. split; [reflexivity | exact Hl]. }
  rewrite (pbind_ret_run _ _ w1 tt _ _ (emit_run self "decision_made" w1)).
  unfold ret. do 3 eexists. split; [reflexivity | exact Hl].
Qed.

(** X18. Step 4 of [process_message] is best effort: it never raises, it
    returns the atoms it was given, in their order, each one as it was or
    with its labels key written and nothing else changed; and when the
    input of the classifier cannot be built, or the call of the
    classifier raises, the atoms are returned as they were. *)
Theorem classification_is_best_effort (self : ACREPipeline)
    (atoms : list Atom) (w : World) :
  (exists atoms',
      (classify self atoms w).1.1 = Return atoms'
      /\ Forall2 only_labels atoms atoms'
      /\ length atoms' = length atoms)
  /\ (forall e,
        map_result classifier_entry atoms = Raise e ->
        (classify self atoms w).1.1 = Return atoms
        /\ Forall (fun ev => is_classification ev = false) (classify self atoms w).2)
  /\ (forall classifier_input e,
        map_result classifier_entry atoms = Return classifier_input ->
        (classify_batch (engagement_id self) classifier_input w).1.1 = Raise e ->
        (classify self atoms w).1.1 = Return atoms).
Proof.
  split; [|split].
  - destruct (classify_run self atoms w) as (atoms' & w' & evs & -> & Hl).
    exists atoms'. split; [reflexivity|]. split; [exact Hl|].
    symmetry. eapply Forall2_length, Hl.
  - intros e He. unfold classify. rewrite He.
    destruct (log_then_ret "ERROR" "process_message" atoms w) as (w' & evs & H & Hq).
    unfold error. rewrite H. split; [reflexivity | exact Hq].
  - intros classifier_input e Hin Hr. unfold classify. rewrite Hin.
    rewrite pbind_run. unfold attempt.
    destruct (classify_batch (engagement_id self) classifier_input w)
      as [[r w1] evs1].
    cbn [fst] in Hr. subst r.
    destruct (log_then_ret "ERROR" "process_message" atoms w1) as (w' & evs & H & _).
    unfold error. rewrite H. reflexivity.
Qed.

End Classification.

Lemma classification_is_best_effort_witness :
  (@classify (scripted_outside create_unreachable)
     (Pipeline "default" "INITIAL_PROCESSING" None false)
     [list_to_map [("content", VStr "Pay me.")]] tt).1.1
  = Return [list_to_map [("content", VStr "Pay me.")]].
Proof.
  destruct (@classification_is_best_effort (scripted_outside create_unreachable)
              (Pipeline "default" "INITIAL_PROCESSING" None false)
              [list_to_map [("content", VStr "Pay me.")]] tt)
    as (_ & Hinput & _).
  apply (Hinput (KeyError "id")). reflexivity.
Defined.

(** ** The path to success *)

Lemma map_result_returns {A B : Type} (f : A -> result B) (l : list A) :
  Forall (fun a => exists b, f a = Return b) l ->
  exists bs, map_result f l = Return bs /\ length bs = length l.
Proof.
  induction 1 as [|a l [b Hb] _ (bs & IH & Hlen)].
  - now exists [].
  - exists (b :: bs). cbn [map_result]. rewrite Hb, IH. cbn. now rewrite Hlen.
Qed.

Lemma transcript_of_returns (atom : Atom) :
  Forall (fun k => is_Some (atom !! k)) transcript_keys ->
  exists t, transcript_of atom = Return t.
Proof.
  unfold transcript_keys. rewrite !Forall_cons.
  intros ([? H1] & [? H2] & [? H3] & [? H4] & [? H5] & [? H6] & [? H7]
          & [? H8] & [? H9] & _).
  unfold transcript_of, getitem.
  rewrite H1, H2, H3, H4, H5, H6, H7, H8, H9. cbn [bind]. eauto.
Qed.

Lemma only_labels_keeps (a a' : Atom) (k : string) :
  only_labels a a' -> is_Some (a !! k) -> is_Some (a' !! k).
Proof.
  intros [->|[labels ->]] Hk; [exact Hk|].
  destruct (decide (k = "labels")) as [->|Hne].
  - rewrite lookup_insert_eq. eauto.
  - now rewrite lookup_insert_ne by done.
Qed.

Lemma only_labels_author (a a' : Atom) :
  only_labels a a' ->
  dict_get a' "attributedTo" (VStr "unknown")
  = dict_get a "attributedTo" (VStr "unknown").
Proof.
  intros [->|[labels ->]]; [reflexivity|].
  unfold dict_get. now rewrite lookup_insert_ne by done.
Qed.

Section Success.

Context {hashing : Hashing} {segmenter : Segmenter} {parser : HtmlParser}
        {codec : JsonCodec}.

Hypothesis segmenter_total : forall text, exists l, sent_tokenize text = Return l.
Hypothesis parser_total : forall markup, exists n, BeautifulSoup markup = Return n.

Lemma traverse_total message_id n :
  forall d sty w, exists w', traverse message_id n d sty w = Return w'.
Proof.
  induction n as [name attrs children IH | text] using node_tree_ind;
    intros d sty w.
  - rewrite traverse_tag.
    generalize (if String.eqb name "blockquote" then S d else d).
    generalize (tag_style name attrs sty). intros sty' d'. revert w.
    induction IH as [|c cs Hc _ IHcs]; intros w; [now exists w|].
    cbn [traverse_children]. destruct (Hc d' sty' w) as [w1 ->]. cbn [bind].
    apply IHcs.
  - rewrite traverse_text. destruct (negb _); [eauto|].
    destruct (segmenter_total (Str.strip text)) as [l ->]. cbn [bind]. eauto.
Qed.

Lemma atomize_total message_id html_content plain_content0 sender_email :
  exists returned,
    atomize message_id html_content plain_content0 sender_email = Return returned.
Proof.
  unfold atomize, _atomize_plain. destruct (_ && _).
  - destruct (segmenter_total (default "" plain_content0)) as [l ->]. cbn [bind]. eauto.
  - destruct (parser_total html_content) as [soup ->]. cbn [bind].
    destruct (traverse_total message_id (default soup (find "body" soup)) 0 ∅
                (Walk [] 0)) as [w' ->].
    cbn [bind]. eauto.
Qed.

End Success.

Section AtomKeys.

Context {hashing : Hashing} {segmenter : Segmenter} {parser : HtmlParser}
        {codec : JsonCodec}.

(** Every key of a transcript but attributionMethod is on every atom the
    atomizer returns. *)
Lemma atomize_keys message_id html_content plain_content0 sender_email
    (returned : list Atom) :
  atomize message_id html_content plain_content0 sender_email = Return returned ->
  Forall (fun a =>
            Forall (fun k => k <> "attributionMethod" -> is_Some (a !! k))
              transcript_keys) returned.
Proof.
  intros Hret.
  destruct (negb (truthy_opt html_content) && truthy_opt plain_content0) eqn:Hpath.
  - destruct (atomize_plain_new _ _ _ _ _ Hpath Hret) as (sentences & _ & ->).
    apply Forall_forall. intros a Ha.
    apply plain_new_positions in Ha as (j & s & _ & _ & ->).
    unfold transcript_keys.
    repeat (apply Forall_cons; split; [intros Hne; try (eexists; reflexivity)|]);
      [contradiction | constructor].
  - pose proof (atomize_html_emitted _ _ _ _ _ Hpath Hret) as Hem.
    apply Forall_lookup. intros j a Hj.
    destruct (Hem _ _ Hj) as (t & depth & sty & -> & _).
    unfold transcript_keys.
    repeat (apply Forall_cons; split; [intros _; eexists; reflexivity|]).
    constructor.
Qed.

Lemma attribute_atom_keys (sender_email : option string) (atom atom' : Atom) :
  attribute_atom atom sender_email = Return atom' ->
  Forall (fun k => k <> "attributionMethod" -> is_Some (atom !! k)) transcript_keys ->
  Forall (fun k => is_Some (atom' !! k)) transcript_keys.
Proof.
  intros Ha Hk.
  assert (Hkeep : forall k, is_Some (atom !! k) -> is_Some (atom' !! k)).
  { intros k Hs.
    apply attribute_atom_returns in Ha as [[_ ->]|(_ & who & method & ->)];
      repeat match goal with
        | |- is_Some (<[?i := _]> _ !! k) =>
            destruct (decide (k = i)) as [->|?];
            [rewrite lookup_insert_eq; eauto | rewrite lookup_insert_ne by done]
        end; exact Hs. }
  destruct (attribute_atom_assigned _ _ _ Ha) as (who & method & Hw & Hm).
  unfold transcript_keys in *. rewrite !Forall_cons in Hk. rewrite !Forall_cons.
  destruct Hk as (H1 & H2 & H3 & H4 & H5 & H6 & H7 & H8 & _ & _).
  repeat split; try (apply Hkeep; auto; fail); eauto.
Qed.

End AtomKeys.

Section SuccessRun.

Context {hashing : Hashing} {segmenter : Segmenter} {parser : HtmlParser}
        {codec : JsonCodec} {outside : Outside}.

Lemma returns_pbind {A B : Type} (m : Pipe A) (k : A -> Pipe B)
    (Q : A -> Prop) (P : B -> list event -> Prop) :
  (forall b evs pre, P b evs -> P b (pre ++ evs)) ->
  (forall w, exists a w' evs, m w = (Return a, w', evs) /\ Q a) ->
  (forall a, Q a ->
     forall w, exists b w' evs, k a w = (Return b, w', evs) /\ P b evs) ->
  forall w, exists b w' evs, pbind m k w = (Return b, w', evs) /\ P b evs.
Proof.
  intros Hpre Hm Hk w. destruct (Hm w) as (a & w1 & evs1 & H1 & Ha).
  destruct (Hk a Ha w1) as (b & w2 & evs2 & H2 & Hb).
  rewrite (pbind_ret_run _ _ w a w1 evs1 H1), H2.
  do 3 eexists. split; [reflexivity | now apply Hpre].
Qed.

Lemma returns_log type step_name (w : World) :
  exists a w' evs, log_event type step_name w = (Return a, w', evs) /\ True.
Proof. rewrite log_event_run. now do 3 eexists. Qed.

Lemma returns_emit self event_type (w : World) :
  exists a w' evs, _emit self event_type w = (Return a, w', evs) /\ True.
Proof. rewrite emit_run. now do 3 eexists. Qed.

Lemma returns_record ev (w : World) :
  exists a w' evs, record ev w = (Return a, w', evs) /\ True.
Proof. unfold record. now do 3 eexists. Qed.

Lemma returns_lift {A : Type} (a : A) (w : World) :
  exists a' w' evs, lift (Return a) w = (Return a', w', evs) /\ a' = a.
Proof. unfold lift. now do 3 eexists. Qed.

Lemma post_run (req : request) (w : World) :
  _post req w
  = (_request (worker w req).1, (worker w req).2,
     [Requested req (worker w req).1]).
Proof.
  unfold _post, pbind, exchange, lift. now destruct (worker w req) as [reply w'].
Qed.

Hypothesis worker_ok :
  forall w req, is_persistence req = true ->
                raised (_request (worker w req).1) = None.

Lemma post_ok (req : request) (w : World) :
  is_persistence req = true ->
  exists v, _post req w
            = (Return v, (worker w req).2, [Requested req (worker w req).1]).
Proof.
  intros Hreq. rewrite post_run. specialize (worker_ok w req Hreq).
  destruct (_request (worker w req).1) as [e|v]; [discriminate|]. eauto.
Qed.

Lemma save_and_store_succeeds self message_id (atoms attributed_atoms : list Atom)
    transcripts_payload attribution_stats :
  map_result transcript_of attributed_atoms = Return transcripts_payload ->
  _summarize_attribution attributed_atoms = Return attribution_stats ->
  forall w, exists b w' evs,
    save_and_store self message_id atoms attributed_atoms w = (Return b, w', evs)
    /\ (b = success_status (length atoms)
        /\ (exists reply,
              Requested (POST_transcripts_batch transcripts_payload) reply ∈ evs)
        /\ (exists reply,
              Requested (POST_update_analysis message_id attribution_stats 0
                           (session_id self)) reply ∈ evs)).
Proof.
  intros Htp Hstats w. unfold save_and_store. rewrite Htp, Hstats.
  rewrite (pbind_ret_run _ _ w _ _ _ eq_refl).
  rewrite (pbind_ret_run _ _ w tt _ _ (log_event_run "INFO" "process_message" w)).
  set (w1 := (worker w (POST_log "INFO" "process_message")).2).
  destruct (post_ok (POST_transcripts_batch transcripts_payload) w1 eq_refl)
    as [v1 H1].
  unfold batch_create_transcripts. rewrite (pbind_ret_run _ _ w1 _ _ _ H1).
  set (w2 := (worker w1 (POST_transcripts_batch transcripts_payload)).2).
  rewrite (pbind_ret_run _ _ w2 tt _ _ (log_event_run "INFO" "process_message" w2)).
  set (w3 := (worker w2 (POST_log "INFO" "process_message")).2).
  rewrite (pbind_ret_run _ _ w3 _ _ _ eq_refl).
  destruct (post_ok (POST_update_analysis message_id attribution_stats 0
                       (session_id self)) w3 eq_refl) as [v2 H2].
  unfold store_analysis. rewrite (pbind_ret_run _ _ w3 _ _ _ H2).
  set (w4 := (worker w3 _).2).
  rewrite (pbind_ret_run _ _ w4 tt _ _ (log_event_run "INFO" "process_message" w4)).
  set (w5 := (worker w4 (POST_log "INFO" "process_message")).2).
  rewrite (pbind_ret_run _ _ w5 tt _ _ (emit_run self "step_complete" w5)).
  unfold ret. cbn [app]. do 3 eexists. split; [reflexivity|].
  split; [reflexivity|]. split; eexists.
  - apply list_elem_of_further, list_elem_of_here.
  - do 3 apply list_elem_of_further. apply list_elem_of_here.
Qed.

End SuccessRun.

Section SuccessClaim.

Context {hashing : Hashing} {segmenter : Segmenter} {parser : HtmlParser}
        {codec : JsonCodec} {outside : Outside}.

Lemma attributed_authors (sender_email : option string) (atom atom' : Atom) :
  attribute_atom atom sender_email = Return atom' ->
  hashable (dict_get atom' "attributedTo" (VStr "unknown")) = true.
Proof.
  unfold attribute_atom, bind, dict_get.
  destruct (json_loads _) as [e|doc]; [discriminate|].
  destruct (eq_zero _).
  - intros [= <-]. rewrite !lookup_insert_ne by done. rewrite lookup_insert_eq.
    now destruct sender_email.
  - destruct (is_aggressive_style doc) as [e|[]]; [discriminate| |];
      intros [= <-]; rewrite lookup_insert_ne by done;
      rewrite lookup_insert_eq; [now destruct sender_email | reflexivity].
Qed.

Lemma analyse_succeeds
    (reads_back :
       forall d, json_parse (json_dumps (style_doc d)) = Some (style_doc d))
    (empty_dict_text : json_parse "{}" = Some (VDict []))
    (segmenter_total : forall text, exists l, sent_tokenize text = Return l)
    (parser_total : forall markup, exists n, BeautifulSoup markup = Return n)
    (worker_ok : forall w req, is_persistence req = true ->
                                raised (_request (worker w req).1) = None)
    self message_id c :
  exists returned,
    atomize message_id (body_html c) (body_plain c) (c_headers c !! "From")
    = Return returned
    /\ forall w, exists b w' evs,
         analyse self message_id c w = (Return b, w', evs)
         /\ (b = success_status (length returned)
             /\ (exists transcripts reply,
                   Requested (POST_transcripts_batch transcripts) reply ∈ evs
                   /\ length transcripts = length returned)
             /\ (exists stats reply,
                   Requested (POST_update_analysis message_id stats 0
                                (session_id self)) reply ∈ evs
                   /\ foldr Z.add 0%Z stats.*2 = Z.of_nat (length returned))).
Proof.
  destruct (atomize_total segmenter_total parser_total message_id (body_html c)
              (body_plain c) (c_headers c !! "From")) as [returned Hat].
  exists returned. split; [exact Hat|].
  destruct (attribute_returns_on_parsed (c_headers c !! "From") returned
              (atomize_parses reads_back empty_dict_text _ _ _ _ _ Hat))
    as (attributed & Hf).
  pose proof (proj2 (attribute_atoms_returns _ _ _) Hf) as Hattr.
  assert (Hlen : length attributed = length returned)
    by (symmetry; eapply Forall2_length, Hf).
  assert (Hkeys : Forall (fun a => Forall (fun k => is_Some (a !! k)) transcript_keys)
                    attributed).
  { pose proof (atomize_keys _ _ _ _ _ Hat) as Hk. clear Hat Hattr Hlen.
    induction Hf as [|a a' l l' Ha _ IH]; [constructor|].
    apply Forall_cons in Hk as [Hka Hk].
    constructor; [eapply attribute_atom_keys; eassumption | now apply IH]. }
  assert (Hauth : Forall (fun a =>
                    hashable (dict_get a "attributedTo" (VStr "unknown")) = true)
                    attributed).
  { clear Hat Hattr Hlen Hkeys. induction Hf as [|a a' l l' Ha _ IH];
      constructor; [eapply attributed_authors, Ha | exact IH]. }
  set (P := fun (b : pydict) (evs : list event) =>
              b = success_status (length returned)
              /\ (exists transcripts reply,
                    Requested (POST_transcripts_batch transcripts) reply ∈ evs
                    /\ length transcripts = length returned)
              /\ (exists stats reply,
                    Requested (POST_update_analysis message_id stats 0
                                 (session_id self)) reply ∈ evs
                    /\ foldr Z.add 0%Z stats.*2 = Z.of_nat (length returned))).
  assert (Hclosed : forall b evs pre, P b evs -> P b (pre ++ evs)).
  { intros b evs pre (Hb & (tp & r1 & H1 & Hl1) & (st & r2 & H2 & Hs2)).
    split; [exact Hb|]. split.
    - exists tp, r1. split; [apply elem_of_app; now right | exact Hl1].
    - exists st, r2. split; [apply elem_of_app; now right | exact Hs2]. }
  change (forall w, exists b w' evs,
            analyse self message_id c w = (Return b, w', evs) /\ P b evs).
  unfold analyse. rewrite Hat.
  apply (returns_pbind _ _ (fun _ => True) P Hclosed);
    [intros w0; apply returns_log | intros _ _].
  apply (returns_pbind _ _ (fun _ => True) P Hclosed);
    [intros w0; apply returns_emit | intros _ _].
  apply (returns_pbind _ _ (fun _ => True) P Hclosed);
    [intros w0; apply returns_record | intros _ _].
  apply (returns_pbind _ _ (fun a => a = returned) P Hclosed);
    [intros w0; apply returns_lift | intros ? ->].
  apply (returns_pbind _ _ (fun _ => True) P Hclosed);
    [intros w0; apply returns_emit | intros _ _].
  apply (returns_pbind _ _ (fun _ => True) P Hclosed);
    [intros w0; apply returns_log | intros _ _].
  apply (returns_pbind _ _ (fun _ => True) P Hclosed);
    [intros w0; apply returns_record | intros _ _].
  rewrite Hattr.
  apply (returns_pbind _ _ (fun a => a = attributed) P Hclosed);
    [intros w0; apply returns_lift | intros ? ->].
  apply (returns_pbind _ _ (fun _ => True) P Hclosed);
    [intros w0; apply returns_log | intros _ _].
  apply (returns_pbind _ _ (fun atoms' => Forall2 only_labels attributed atoms')
           P Hclosed).
  { intros w0. destruct (classify_run self attributed w0)
      as (atoms' & w' & evs & H & Hl). eauto 6. }
  intros atoms' Hl w0.
  assert (Hlen' : length atoms' = length returned)
    by (rewrite <- Hlen; symmetry; eapply Forall2_length, Hl).
  destruct (map_result_returns transcript_of atoms') as (tp & Htp & Htplen).
  { clear Hlen' Hlen Hf Hattr Hauth.
    induction Hl as [|a a' l l' Ha _ IH]; [constructor|].
    apply Forall_cons in Hkeys as [Hka Hkeys].
    constructor; [|now apply IH].
    apply transcript_of_returns. eapply Forall_impl; [exact Hka|].
    intros k. now apply only_labels_keeps. }
  assert (Hauth' : Forall (fun a =>
                     hashable (dict_get a "attributedTo" (VStr "unknown")) = true)
                     atoms').
  { clear Hlen' Htp Htplen Hkeys Hlen Hf Hattr.
    induction Hl as [|a a' l l' Ha _ IH]; [constructor|].
    apply Forall_cons in Hauth as [Hh Hauth].
    constructor; [now rewrite (only_labels_author _ _ Ha) | now apply IH]. }
  destruct (summarize_loop_hashable atoms' [] Hauth') as [stats Hs].
  destruct (summarize_loop_returns (fun _ => True) atoms' [] stats Hs)
    as [Hsum _]; [apply Forall_forall; auto | constructor |].
  destruct (save_and_store_succeeds worker_ok self message_id returned atoms'
              tp stats Htp Hs w0)
    as (b & w' & evs & Hrun & Hb & [r1 H1] & [r2 H2]).
  exists b, w', evs. split; [exact Hrun|]. split; [exact Hb|]. split.
  - exists tp, r1. split; [exact H1 | congruence].
  - exists stats, r2. split; [exact H2|]. rewrite Hsum, Hlen'. cbn. lia.
Qed.

End SuccessClaim.

(** X19. The path to success.  With a segmenter and a parser that
    return, a JSON codec that reads back the style dicts it writes, and a
    Worker that answers the creation of the record, the transcript batch
    and the analysis summary without an error that [_request] raises,
    every run of [process_message] returns the success status with the
    number of atoms the atomizer returned on the content; it has sent one
    transcript per atom and an analysis summary whose counts add up to
    that number, whatever the classifier did.  The body of the answers
    is not looked at: a Worker that refuses every request with 401, which
    [_request] answers with an empty dict, passes for one that stored
    everything. *)
Theorem process_message_succeeds
    {hashing : Hashing} {segmenter : Segmenter} {parser : HtmlParser}
    {codec : JsonCodec} {outside : Outside}
    (reads_back :
       forall d, json_parse (json_dumps (style_doc d)) = Some (style_doc d))
    (empty_dict_text : json_parse "{}" = Some (VDict []))
    (segmenter_total : forall text, exists l, sent_tokenize text = Return l)
    (parser_total : forall markup, exists n, BeautifulSoup markup = Return n)
    (worker_ok : forall w req, is_persistence req = true ->
                                raised (_request (worker w req).1) = None)
    (self : ACREPipeline) (message_payload : payload) (w : World) :
  let run := process_message self message_payload w in
  exists c returned,
    atomize (messageId message_payload) (body_html c) (body_plain c)
      (c_headers c !! "From") = Return returned
    /\ run.1.1 = Return (success_status (length returned))
    /\ (exists transcripts reply,
          Requested (POST_transcripts_batch transcripts) reply ∈ run.2
          /\ length transcripts = length returned)
    /\ (exists stats reply,
          Requested (POST_update_analysis (messageId message_payload) stats 0
                       (session_id self)) reply ∈ run.2
          /\ foldr Z.add 0%Z stats.*2 = Z.of_nat (length returned))
    /\ (needs_fetch self message_payload = false ->
        c = payload_content message_payload).
Proof.
  cbv zeta. unfold process_message.
  destruct (extract_content_run self message_payload w)
    as (c & w1 & evs1 & Hext & _ & Hnf & _).
  rewrite (pbind_ret_run _ _ w c w1 evs1 Hext).
  rewrite (pbind_ret_run _ _ w1 tt _ _ (log_event_run "INFO" "process_message" w1)).
  set (w2 := (worker w1 (POST_log "INFO" "process_message")).2).
  rewrite (pbind_ret_run _ _ w2 _ _ _ (attempt_create_run _ w2)).
  pose proof (worker_ok w2 (POST_message_create
                              (make_db_message self message_payload c)) eq_refl)
    as Hcreate.
  destruct (_request _) as [e|v]; [discriminate Hcreate|].
  destruct (analyse_succeeds reads_back empty_dict_text segmenter_total
              parser_total worker_ok self (messageId message_payload) c)
    as (returned & Hat & Hrun).
  destruct (Hrun (worker w2 (POST_message_create
                               (make_db_message self message_payload c))).2)
    as (b & w' & evs & -> & -> & (tp & r1 & H1 & Hl1) & (st & r2 & H2 & Hs2)).
  exists c, returned. cbn [fst snd]. split; [exact Hat|]. split; [reflexivity|].
  split; [|split].
  - exists tp, r1. split; [|exact Hl1].
    repeat (apply elem_of_app; right). exact H1.
  - exists st, r2. split; [|exact Hs2].
    repeat (apply elem_of_app; right). exact H2.
  - intros H. now apply Hnf.
Qed.

Lemma process_message_succeeds_witness :
  (@process_message plain_digest one_sentence (parses_to (NavigableString "Pay me."))
     tagged_codec (scripted_outside unauthorized)
     (Pipeline "default" "INITIAL_PROCESSING" None false)
     (Payload (Some "m1") None ∅ None (Some "<p>Pay me.</p>")) tt).1.1
  = Return (success_status 1).
Proof.
  destruct (@process_message_succeeds plain_digest one_sentence
              (parses_to (NavigableString "Pay me.")) tagged_codec
              (scripted_outside unauthorized)
              tagged_codec_reads_back eq_refl
              (fun text => ex_intro _ [text] eq_refl)
              (fun markup => ex_intro _ (NavigableString "Pay me.") eq_refl)
              (fun w req _ => eq_refl)
              (Pipeline "default" "INITIAL_PROCESSING" None false)
              (Payload (Some "m1") None ∅ None (Some "<p>Pay me.</p>")) tt)
    as (c & returned & Hat & Hrun & _ & _ & Hc).
  rewrite (Hc eq_refl) in Hat. injection Hat as <-. exact Hrun.
Defined.

(** ** The console capture *)

Lemma contains_char_cons (c d : ascii) (s : string) :
  Str.contains (String c "") (String d s)
  = Ascii.eqb d c || Str.contains (String c "") s.
Proof.
  cbn [Str.contains String.prefix].
  destruct (ascii_dec c d) as [->|Hne].
  - rewrite Ascii.eqb_refl. now destruct s.
  - assert (Ascii.eqb d c = false) as -> by (apply Ascii.eqb_neq; congruence).
    reflexivity.
Qed.

Lemma contains_char_nil (c : ascii) : Str.contains (String c "") "" = false.
Proof. reflexivity. Qed.

Lemma contains_char_app (c : ascii) (s t : string) :
  Str.contains (String c "") (String.append s t)
  = Str.contains (String c "") s || Str.contains (String c "") t.
Proof.
  induction s as [|d s IH]; [reflexivity|].
  rewrite str_append_cons, !contains_char_cons, IH. now rewrite orb_assoc.
Qed.

Lemma split_on_not_nil (sep : ascii) (s : string) : split_on sep s <> [].
Proof.
  destruct s as [|c s]; [discriminate|]. cbn [split_on].
  destruct (Ascii.eqb c sep); [discriminate|].
  destruct (split_on sep s); discriminate.
Qed.

Lemma split_on_whole (sep : ascii) (s : string) :
  Str.contains (String sep "") s = false -> split_on sep s = [s].
Proof.
  induction s as [|c s IH]; [reflexivity|].
  rewrite contains_char_cons. intros H. apply orb_false_iff in H as [Hc Hs].
  cbn [split_on]. now rewrite Hc, (IH Hs).
Qed.

Lemma split_on_pieces (sep : ascii) (s : string) :
  Forall (fun piece => Str.contains (String sep "") piece = false)
    (split_on sep s).
Proof.
  induction s as [|c s IH]; [now repeat constructor|].
  cbn [split_on]. destruct (Ascii.eqb c sep) eqn:Hc.
  - constructor; [reflexivity | exact IH].
  - destruct (split_on sep s) as [|piece pieces].
    { constructor; [|constructor]. now rewrite contains_char_cons, Hc. }
    apply Forall_cons in IH as [Hp Hps]. constructor; [|exact Hps].
    rewrite contains_char_cons, Hc, Hp. reflexivity.
Qed.

Lemma last_cons_cons {A : Type} (x y : A) (l : list A) (d : A) :
  List.last (x :: y :: l) d = List.last (y :: l) d.
Proof. reflexivity. Qed.

Lemma split_on_app (sep : ascii) (s t : string) :
  split_on sep (String.append s t)
  = removelast (split_on sep s)
    ++ split_on sep (String.append (List.last (split_on sep s) "") t).
Proof.
  induction s as [|c s IH]; [reflexivity|].
  rewrite str_append_cons. cbn [split_on].
  destruct (Ascii.eqb c sep) eqn:Hc.
  - rewrite IH. pose proof (split_on_not_nil sep s) as Hne.
    destruct (split_on sep s) as [|p ps]; [contradiction|]. reflexivity.
  - rewrite IH. pose proof (split_on_not_nil sep s) as Hne.
    destruct (split_on sep s) as [|p [|q ps]]; [contradiction| |].
    + cbn [removelast List.last app]. rewrite str_append_cons.
      cbn [split_on]. rewrite Hc. reflexivity.
    + cbn [removelast app]. rewrite !last_cons_cons. reflexivity.
Qed.

Lemma removelast_app_nonempty {A : Type} (l k : list A) :
  k <> [] -> removelast (l ++ k) = l ++ removelast k.
Proof. intros Hk. now apply removelast_app. Qed.

Lemma last_app_nonempty {A : Type} (l k : list A) (d : A) :
  k <> [] -> List.last (l ++ k) d = List.last k d.
Proof.
  intros Hk. induction l as [|x l IH]; [reflexivity|].
  cbn [app]. destruct (l ++ k) eqn:E; [|exact IH].
  apply app_eq_nil in E as [_ ->]. contradiction.
Qed.

Lemma last_one_line (s : string) :
  one_line (List.last (split_on newline s) "").
Proof.
  pose proof (split_on_pieces newline s) as Hp.
  pose proof (split_on_not_nil newline s) as Hne.
  induction (split_on newline s) as [|p [|q ps] IH]; [contradiction| |].
  - now apply Forall_cons in Hp as [Hp _].
  - rewrite last_cons_cons. apply Forall_cons in Hp as [_ Hp].
    apply IH; [exact Hp | discriminate].
Qed.

(** X20. [OutputDup.write] hands the message to the original stream and
    logs whole lines only: each line it hands to the logger has no line
    break and is not blank, and what it keeps in its buffer has no line
    break. *)
Theorem write_logs_whole_lines (self : OutputDup) (message : string) :
  original_stream (write self message) = original_stream self ++ [message]
  /\ one_line (buffer (write self message))
  /\ exists lines,
       logged (write self message) = logged self ++ lines
       /\ Forall (fun line => one_line line /\ Str.strip line <> "") lines.
Proof.
  unfold write. cbv zeta.
  destruct (Str.contains _ (String.append (buffer self) message)) eqn:Hn;
    cbn [original_stream buffer logged].
  - split; [reflexivity|]. split; [apply last_one_line|].
    eexists. split; [reflexivity|].
    apply Forall_forall. intros line Hin.
    apply list_elem_of_In, List.filter_In in Hin as [Hin Hblank].
    split.
    + pose proof (split_on_pieces newline
                    (String.append (buffer self) message)) as Hp.
      rewrite Forall_forall in Hp. apply Hp, list_elem_of_In.
      pose proof (split_on_not_nil newline
                    (String.append (buffer self) message)) as Hne.
      rewrite (app_removelast_last "" Hne). apply in_or_app. now left.
    + intros E. rewrite E in Hblank. discriminate.
  - split; [reflexivity|]. split; [exact Hn|].
    exists []. split; [now rewrite app_nil_r | constructor].
Qed.

(** X21. What [OutputDup] logs and keeps does not depend on how the
    output is cut into writes: writing [a] and then [b] logs the same
    lines and leaves the same buffer as writing [a ++ b] at once. *)
Theorem write_in_pieces (self : OutputDup) (a b : string) :
  logged (write (write self a) b) = logged (write self (String.append a b))
  /\ buffer (write (write self a) b) = buffer (write self (String.append a b)).
Proof.
  unfold write at 1 3 4 6. cbv zeta.
  rewrite <- (str_append_assoc (buffer self) a b).
  rewrite (contains_char_app _ (String.append (buffer self) a) b).
  rewrite (split_on_app newline (String.append (buffer self) a) b).
  unfold write. cbv zeta.
  destruct (Str.contains _ (String.append (buffer self) a)) eqn:Ha;
    cbn [logged buffer orb].
  - set (rest := String.append
                   (List.last (split_on newline (String.append (buffer self) a)) "") b).
    pose proof (split_on_not_nil newline rest) as Hne.
    rewrite (removelast_app_nonempty _ _ Hne), (last_app_nonempty _ _ _ Hne).
    rewrite List.filter_app, app_assoc.
    destruct (Str.contains _ rest) eqn:Hb; cbn [logged buffer].
    + split; reflexivity.
    + rewrite (split_on_whole _ _ Hb). cbn [removelast List.filter List.last].
      now rewrite app_nil_r.
  - rewrite (split_on_whole _ _ Ha). cbn [removelast List.last app].
    destruct (Str.contains _ b) eqn:Hb.
    + assert (Hc : Str.contains (String newline "")
                     (String.append (String.append (buffer self) a) b) = true)
        by (now rewrite contains_char_app, Ha, Hb).
      rewrite Hc. cbn [logged buffer]. split; reflexivity.
    + assert (Hc : Str.contains (String newline "")
                     (String.append (String.append (buffer self) a) b) = false)
        by (now rewrite contains_char_app, Ha, Hb).
      rewrite Hc. cbn [logged buffer]. split; reflexivity.
Qed.

Lemma write_spec (self : OutputDup) (message : string) :
  logged (write self message)
  = logged self
    ++ List.filter (fun line => Str.nonempty (Str.strip line))
         (removelast (split_on newline (String.append (buffer self) message)))
  /\ buffer (write self message)
     = List.last (split_on newline (String.append (buffer self) message)) "".
Proof.
  unfold write. cbv zeta.
  destruct (Str.contains _ (String.append (buffer self) message)) eqn:Hn;
    cbn [logged buffer]; [split; reflexivity|].
  rewrite (split_on_whole _ _ Hn). cbn [removelast List.filter List.last].
  now rewrite app_nil_r.
Qed.

Lemma flush_after_writes (chunks : list string) :
  forall self,
    one_line (buffer self) ->
    logged (flush (foldl write self chunks))
    = logged self
      ++ List.filter (fun line => Str.nonempty (Str.strip line))
           (split_on newline
              (String.append (buffer self) (String.concat "" chunks)))
    /\ Str.strip (buffer (flush (foldl write self chunks))) = "".
Proof.
  induction chunks as [|chunk chunks IH]; intros self Hone.
  - cbn [foldl String.concat]. rewrite str_append_nil_r.
    rewrite (split_on_whole _ _ Hone). unfold flush. cbn [List.filter].
    destruct (Str.strip (buffer self)) eqn:Hs; cbn [Str.nonempty logged buffer].
    + split; [now rewrite app_nil_r | exact Hs].
    + split; reflexivity.
  - cbn [foldl].
    destruct (write_spec self chunk) as [Hl Hb].
    destruct (IH (write self chunk)) as [IHl IHb].
    { rewrite Hb. apply last_one_line. }
    split; [|exact IHb].
    rewrite IHl, Hl, Hb, <- app_assoc, <- List.filter_app. do 2 f_equal.
    rewrite <- split_on_app, str_append_assoc. f_equal. f_equal.
    destruct chunks as [|c cs]; [|reflexivity].
    cbn [String.concat]. now rewrite str_append_nil_r.
Qed.

(** X22. What the console capture logs in the end: after any writes and a
    flush, the lines handed to the logger are the lines of the whole
    output that are not blank, in their order, however the output was cut
    into writes; and what is left in the buffer is blank. *)
Theorem capture_logs_every_line (chunks : list string) :
  let start := {| original_stream := []; logged := []; buffer := "" |} in
  logged (flush (foldl write start chunks))
  = List.filter (fun line => Str.nonempty (Str.strip line))
      (split_on newline (String.concat "" chunks))
  /\ Str.strip (buffer (flush (foldl write start chunks))) = "".
Proof.
  cbv zeta.
  exact (flush_after_writes chunks
           {| original_stream := []; logged := []; buffer := "" |} eq_refl).
Qed.

(** ** The ingestion loop *)

Section Ingestion.

Context {hashing : Hashing} {segmenter : Segmenter} {parser : HtmlParser}
        {codec : JsonCodec} {outside : Outside} {gmail_collector : GmailCollector}.

Lemma ingest_run self (d : email_data) (counts : nat * nat) (w : World) :
  exists w' evs,
    ingest self d counts w
    = (Return match (process_message self (payload_of d) w).1.1 with
              | Raise _ => counts
              | Return res =>
                  if eq_str (dict_get res "status" VNone) "skipped"
                  then (counts.1, S counts.2)
                  else (S counts.1, counts.2)
              end, w', evs).
Proof.
  unfold ingest. destruct counts as [p s]. rewrite pbind_run. unfold attempt.
  rewrite (pbind_ret_run _ _ w tt _ _ (emit_run self "ingest_progress" w)).
  rewrite pbind_run.
  destruct (process_message self (payload_of d) w) as [[[e|res] w1] evs1];
    cbn [fst snd].
  - rewrite (pbind_ret_run _ _ w1 tt _ _ (log_event_run "ERROR" "run_pipeline" w1)).
    unfold ret. eauto.
  - destruct (eq_str (dict_get res "status" VNone) "skipped").
    + rewrite (pbind_ret_run _ _ w1 tt _ _ (emit_run self "ingest_skip" w1)).
      unfold ret. eauto.
    + unfold ret. eauto.
Qed.

Lemma fetch_messages_run self (c : collector) (message_ids : list string) :
  forall counts w,
    exists counts' w' evs,
      fetch_messages self c message_ids counts w = (Return counts', w', evs)
      /\ counts.1 <= counts'.1 /\ counts.2 <= counts'.2
      /\ counts'.1 + counts'.2 <= counts.1 + counts.2 + length message_ids.
Proof.
  induction message_ids as [|msg_id rest IH]; intros counts w.
  - exists counts, w, []. cbn. repeat split; lia.
  - cbn [fetch_messages]. rewrite pbind_run. unfold attempt.
    destruct (_fetch_single_message_sync c msg_id w) as [[[e|[d|]] w1] evs1].
    + rewrite (pbind_ret_run _ _ w1 tt _ _ (log_event_run "ERROR" "GmailCollector" w1)).
      destruct (IH counts (worker w1 (POST_log "ERROR" "GmailCollector")).2)
        as (counts' & w' & evs & -> & H1 & H2 & H3).
      do 3 eexists. split; [reflexivity|]. cbn [length]. repeat split; lia.
    + destruct (ingest_run self d counts w1) as (w2 & evs2 & Hi).
      rewrite (pbind_ret_run _ _ w1 _ _ _ Hi).
      match type of Hi with
      | _ = (Return ?next, _, _) => set (counts1 := next) in *
      end.
      assert (Hnext : counts.1 <= counts1.1 /\ counts.2 <= counts1.2
                      /\ counts1.1 + counts1.2 <= counts.1 + counts.2 + 1).
      { unfold counts1. destruct (process_message _ _ _).1.1 as [e|res];
          [lia|]. destruct (eq_str _ _); cbn [fst snd]; lia. }
      destruct (IH counts1 w2) as (counts' & w' & evs & -> & H1 & H2 & H3).
      do 3 eexists. split; [reflexivity|]. cbn [length]. repeat split; lia.
    + destruct (IH counts w1) as (counts' & w' & evs & -> & H1 & H2 & H3).
      do 3 eexists. split; [reflexivity|]. cbn [length]. repeat split; lia.
Qed.

End Ingestion.

Section IngestionClaims.

Context {hashing : Hashing} {segmenter : Segmenter} {parser : HtmlParser}
        {codec : JsonCodec} {outside : Outside} {gmail_collector : GmailCollector}.

(** X23. The body of the ingestion loop never raises, and counts the
    message once at most: as skipped when [process_message] returned the
    skipped status, as processed when it returned success, and not at all
    when it raised. *)
Theorem ingest_counts_one_message (self : ACREPipeline) (d : email_data)
    (counts : nat * nat) (w : World) :
  let run := process_message self (payload_of d) w in
  exists counts',
    (ingest self d counts w).1.1 = Return counts'
    /\ (forall e, run.1.1 = Raise e -> counts' = counts)
    /\ (run.1.1 = Return skipped_duplicate -> counts' = (counts.1, S counts.2))
    /\ (forall res,
          run.1.1 = Return res -> has_str res "status" "success" ->
          counts' = (S counts.1, counts.2))
    /\ (counts' = counts \/ counts' = (counts.1, S counts.2)
        \/ counts' = (S counts.1, counts.2)).
Proof.
  cbv zeta. destruct (ingest_run self d counts w) as (w' & evs & ->).
  eexists. split; [reflexivity|].
  destruct (process_message self (payload_of d) w).1.1 as [e|res].
  - split; [reflexivity|]. split; [discriminate|]. split; [discriminate|]. now left.
  - split; [discriminate|]. split; [|split].
    + intros [= ->]. reflexivity.
    + intros res' [= <-] Hs. unfold dict_get. unfold has_str in Hs.
      now rewrite Hs.
    + destruct (eq_str _ _); auto.
Qed.

(** X24. [run_pipeline] returns an empty list when the collector cannot
    be built; otherwise it raises only what the listing of the message
    ids raises, and returns the two counters, which add up to the number
    of listed ids at most: no message stops the run. *)
Theorem run_pipeline_returns (self : ACREPipeline) (gmail_domain : option string)
    (w : World) :
  let run := run_pipeline self gmail_domain w in
  let w1 := (worker w (POST_log "INFO" "run_pipeline")).2 in
  let built := new_collector (gcp_service_account self) w1 in
  (forall e, built.1.1 = Raise e -> run.1.1 = Return (VList []))
  /\ (forall c,
        built.1.1 = Return c ->
        match (list_message_ids c (query_of gmail_domain)
                 (worker built.1.2 (POST_log "INFO" "run_pipeline")).2).1.1 with
        | Raise e => run.1.1 = Raise e
        | Return message_ids =>
            exists processed_count skipped_count,
              run.1.1 = Return (VDict [ ("processed", VInt (Z.of_nat processed_count));
                                        ("skipped", VInt (Z.of_nat skipped_count)) ])
              /\ processed_count + skipped_count <= length message_ids
        end).
Proof.
  cbv zeta. unfold run_pipeline. cbv zeta.
  rewrite (pbind_ret_run _ _ w tt _ _ (log_event_run "INFO" "run_pipeline" w)).
  set (w1 := (worker w (POST_log "INFO" "run_pipeline")).2).
  rewrite pbind_run. unfold attempt.
  destruct (new_collector (gcp_service_account self) w1) as [[[e|c] w2] evs2];
    cbn [fst snd].
  - split; [|discriminate]. intros _ _.
    rewrite (pbind_ret_run _ _ w2 tt _ _ (log_event_run "ERROR" "run_pipeline" w2)).
    rewrite (pbind_ret_run _ _ _ tt _ _ (emit_run self "error" _)).
    reflexivity.
  - split; [discriminate|]. intros c' [= <-].
    rewrite (pbind_ret_run _ _ w2 tt _ _ (log_event_run "INFO" "run_pipeline" w2)).
    set (w3 := (worker w2 (POST_log "INFO" "run_pipeline")).2).
    rewrite pbind_run.
    destruct (list_message_ids c (query_of gmail_domain) w3)
      as [[[e|message_ids] w4] evs4]; cbn [fst snd]; [reflexivity|].
    rewrite (pbind_ret_run _ _ w4 tt _ _ (emit_run self "pipeline_start" w4)).
    destruct (fetch_messages_run self c message_ids (0, 0) w4)
      as ([p s] & w5 & evs5 & Hf & _ & _ & Hle).
    rewrite (pbind_ret_run _ _ w4 _ _ _ Hf).
    rewrite (pbind_ret_run _ _ w5 tt _ _ (emit_run self "pipeline_complete" w5)).
    exists p, s. cbn [fst snd] in *. split; [reflexivity | lia].
Qed.

End IngestionClaims.

Lemma ingest_counts_one_message_witness :
  exists counts',
    (@ingest plain_digest one_sentence (parses_to (NavigableString "hello"))
       empty_dict_codec (scripted_outside create_unreachable)
       (Pipeline "default" "INITIAL_PROCESSING" None false)
       (EmailData (Some "m1") None ∅ None None None None "hello" "")
       (0, 0) tt).1.1
    = Return counts'
    /\ counts' = (0, 1).
Proof.
  destruct (@ingest_counts_one_message plain_digest one_sentence
              (parses_to (NavigableString "hello")) empty_dict_codec
              (scripted_outside create_unreachable)
              (Pipeline "default" "INITIAL_PROCESSING" None false)
              (EmailData (Some "m1") None ∅ None None None None "hello" "")
              (0, 0) tt)
    as (counts' & Hr & _ & Hskip & _).
  exists counts'. split; [exact Hr | apply Hskip; reflexivity].
Defined.

Lemma run_pipeline_returns_witness :
  exists processed_count skipped_count,
    (@run_pipeline plain_digest one_sentence (parses_to (NavigableString "hello"))
       empty_dict_codec (scripted_outside create_unreachable)
       (fixed_mailbox
          [("g1", EmailData (Some "m1") None ∅ None None None None "hello" "")])
       (Pipeline "default" "INITIAL_PROCESSING" None false)
       (Some "mrroofing.net") tt).1.1
    = Return (VDict [ ("processed", VInt (Z.of_nat processed_count));
                      ("skipped", VInt (Z.of_nat skipped_count)) ])
    /\ processed_count + skipped_count <= 1.
Proof.
  destruct (@run_pipeline_returns plain_digest one_sentence
              (parses_to (NavigableString "hello")) empty_dict_codec
              (scripted_outside create_unreachable)
              (fixed_mailbox
                 [("g1", EmailData (Some "m1") None ∅ None None None None "hello" "")])
              (Pipeline "default" "INITIAL_PROCESSING" None false)
              (Some "mrroofing.net") tt)
    as (_ & Hbuilt).
  exact (Hbuilt tt eq_refl).
Defined.

(** ** The monitor *)

Section MonitorFacts.

Context {builtins : Builtins}.

Lemma count_message_logs (stats stats' : monitor_stats) (message : pydict) :
  count_message stats message = Some stats' ->
  recent_logs stats' = recent_logs stats
  /\ (completed stats <= completed stats' <= completed stats + 1)%Z
  /\ (threats stats <= threats stats' <= threats stats + 1)%Z
  /\ (in_process stats' = in_process stats \/ in_process stats' = 0%Z
      \/ in_process stats' = 1%Z).
Proof.
  unfold count_message. cbv zeta.
  repeat match goal with
    | |- context [if ?b then _ else _] => destruct b
    | |- context [match ?x with _ => _ end] => destruct x
    end;
    intros [= <-]; cbn; repeat split; auto; lia.
Qed.

(** X25. The stats of the monitor after a broadcast: the recent logs are
    as they were, or the log of the message in front of them, cut at
    fifty, so that they never grow beyond fifty; the counters of
    completed runs and of threats never go down and move by one at most;
    the in_process flag is as it was, 0 or 1. *)
Theorem monitor_stats_bounded (stats : monitor_stats) (message : pydict) :
  let stats' := update_stats stats message in
  (recent_logs stats' = recent_logs stats
   \/ exists log,
        message !! "log" = Some log
        /\ recent_logs stats' = take 50 (py_str log :: recent_logs stats))
  /\ (length (recent_logs stats) <= 50 -> length (recent_logs stats') <= 50)
  /\ (completed stats <= completed stats' <= completed stats + 1)%Z
  /\ (threats stats <= threats stats' <= threats stats + 1)%Z
  /\ (in_process stats' = in_process stats \/ in_process stats' = 0%Z
      \/ in_process stats' = 1%Z).
Proof.
  cbv zeta. unfold update_stats.
  destruct (count_message stats message) as [stats1|] eqn:Hc.
  - apply count_message_logs in Hc as (Hl & Hcomp & Hthr & Hin).
    unfold log_message. destruct (message !! "log") as [log|];
      cbn [recent_logs completed threats in_process].
    + rewrite Hl. split; [right; eauto|].
      split; [intros _; rewrite length_take; lia|]. auto.
    + rewrite Hl. split; [now left|]. auto.
  - split; [now left|]. repeat split; auto; lia.
Qed.

(** X26. A decision message whose label is a list (in [process_message]
    it is the labels of the first atom, or the empty list) makes the
    stats block of [broadcast] raise on the label, so that the stats stay
    as they were: its log line is not recorded. *)
Theorem decision_message_is_dropped (stats : monitor_stats) (data : pydict)
    (labels : list value) :
  data !! "type" = None ->
  data !! "label" = Some (VList labels) ->
  update_stats stats (emit_payload "decision_made" data) = stats.
Proof.
  intros Htype Hlabel. unfold update_stats, count_message, emit_payload, dict_get.
  assert (Ht : (data ∪ <["timestamp" := VStr "now"]> {["type" := VStr "decision_made"]})
               !! "type" = Some (VStr "decision_made")).
  { rewrite lookup_union_r by exact Htype.
    rewrite lookup_insert_ne by done. apply lookup_singleton_eq. }
  assert (Hl : (data ∪ <["timestamp" := VStr "now"]> {["type" := VStr "decision_made"]})
               !! "label" = Some (VList labels)).
  { now apply lookup_union_Some_l. }
  cbv zeta. rewrite Ht, Hl. reflexivity.
Qed.

Lemma disconnect_first (send : nat -> send_outcome) (c : nat) (pre rest : list nat) :
  Forall (fun x => send x <> SendRuntimeError) pre ->
  send c = SendRuntimeError ->
  disconnect c (pre ++ c :: rest) = pre ++ rest.
Proof.
  intros Hpre Hc. induction Hpre as [|x pre Hx _ IH]; cbn [app disconnect].
  - now rewrite Nat.eqb_refl.
  - destruct (Nat.eqb_spec x c) as [->|_]; [contradiction|]. now rewrite IH.
Qed.

Lemma send_to_all_keeps (send : nat -> send_outcome) (snapshot : list nat) :
  forall pre,
    Forall (fun x => send x <> SendRuntimeError) pre ->
    send_to_all send snapshot (pre ++ snapshot)
    = pre ++ List.filter
               (fun x => match send x with SendRuntimeError => false | _ => true end)
               snapshot.
Proof.
  induction snapshot as [|c rest IH]; intros pre Hpre; [reflexivity|].
  cbn [send_to_all List.filter].
  destruct (send c) eqn:Hc.
  - change (pre ++ c :: rest) with (pre ++ [c] ++ rest). rewrite app_assoc.
    rewrite IH; [now rewrite <- app_assoc|].
    apply Forall_app. split; [exact Hpre|]. constructor; [congruence | constructor].
  - rewrite (disconnect_first send c pre rest Hpre Hc). now apply IH.
  - change (pre ++ c :: rest) with (pre ++ [c] ++ rest). rewrite app_assoc.
    rewrite IH; [now rewrite <- app_assoc|].
    apply Forall_app. split; [exact Hpre|]. constructor; [congruence | constructor].
Qed.

(** X27. After a broadcast the active connections are those whose send
    did not raise a RuntimeError, in their order: these are dropped,
    every occurrence of them, and no other. *)
Theorem broadcast_drops_closed_connections (send : nat -> send_outcome)
    (stats : monitor_stats) (active_connections : list nat) (message : pydict) :
  (broadcast send (stats, active_connections) message).2
  = List.filter
      (fun c => match send c with SendRuntimeError => false | _ => true end)
      active_connections.
Proof.
  unfold broadcast. cbn [fst snd].
  apply (send_to_all_keeps send active_connections []). constructor.
Qed.

End MonitorFacts.

Lemma monitor_stats_bounded_witness :
  length (recent_logs
            (@update_stats no_numbers
               (MonitorStats 0 0 0 0 ["older"])
               (list_to_map [("type", VStr "step_start");
                             ("log", VStr "Processing m1...")])))
  <= 50.
Proof.
  apply (@monitor_stats_bounded
           no_numbers
           (MonitorStats 0 0 0 0 ["older"])
           (list_to_map [("type", VStr "step_start");
                         ("log", VStr "Processing m1...")])).
  cbn. lia.
Defined.

Lemma decision_message_is_dropped_witness :
  @update_stats no_numbers
    (MonitorStats 0 1 0 0 [])
    (@emit_payload "decision_made"
       (list_to_map [("label", VList [VStr "Financial"]);
                     ("log", VStr "AI Classification complete.")]))
  = MonitorStats 0 1 0 0 [].
Proof.
  apply (@decision_message_is_dropped
           no_numbers
           (MonitorStats 0 1 0 0 [])
           (list_to_map [("label", VList [VStr "Financial"]);
                         ("log", VStr "AI Classification complete.")])
           [VStr "Financial"]); reflexivity.
Defined.

(** ** The regulatory checks *)

Lemma license_search_lic (s g : string) :
  ReLicense.search s = Some g -> Str.contains "lic" s = true.
Proof.
  induction s as [|c s IH].
  - cbn. discriminate.
  - cbn [ReLicense.search Str.contains]. unfold ReLicense.match_at.
    destruct (String.prefix "lic" (String c s)); [reflexivity|].
    intros H. rewrite (IH H). apply orb_true_r.
Qed.

Section RegulatoryFacts.

Context {outside : Outside} {agents : RegulatoryAgents}.

Lemma guarded_run (call : Pipe value) (entry : value -> value) (w : World) :
  exists v w' evs, guarded call entry w = (Return v, w', evs) /\ True.
Proof.
  unfold guarded. rewrite pbind_run. unfold attempt.
  destruct (call w) as [[[e|v] w1] evs1]; unfold ret; eauto 6.
Qed.

Lemma guarded_raises (call : Pipe value) (entry : value -> value) (w : World)
    (e : exn) :
  (call w).1.1 = Raise e ->
  (guarded call entry w).1.1
  = Return (VDict [("error", VStr (str_of_exception e))]).
Proof.
  unfold guarded. rewrite pbind_run. unfold attempt.
  destruct (call w) as [[r w1] evs1]. cbn [fst]. intros ->. reflexivity.
Qed.

(** X28. [run_regulatory_verification] never raises, whatever the agents
    do, and its result has no key but those of its four checks; a
    message whose text, in lowercase, has none of the words the checks
    look for gives the empty result without a log line or a call of an
    agent; and an agent that raises leaves an entry with the key error
    for its check. *)
Theorem regulatory_checks_are_guarded (body subject : option string) (w : World) :
  let run := run_regulatory_verification body subject w in
  let content_lower :=
    Str.lower (String.append (or_else body "")
                 (String.append " " (or_else subject ""))) in
  (exists results,
      run.1.1 = Return results
      /\ forall k, is_Some (results !! k) ->
           k ∈ ["sf_dbi_contractor"; "sf_dbi_permit_check"; "ca_regs_search";
                "sf_regs_search"])
  /\ (Str.contains "lic" content_lower = false ->
      Str.contains "permit" content_lower = false ->
      Str.contains "title 24" content_lower = false ->
      Str.contains "california building code" content_lower = false ->
      Str.contains "sf code" content_lower = false ->
      Str.contains "san francisco building code" content_lower = false ->
      run = (Return ∅, w, []))
  /\ (forall call entry w0 e,
        (call w0).1.1 = Raise e ->
        (guarded call entry w0).1.1
        = Return (VDict [("error", VStr (str_of_exception e))])).
Proof.
  cbv zeta. split; [|split].
  - set (P := fun (b : pydict) (_ : list event) =>
                forall k, is_Some (b !! k) ->
                  k ∈ ["sf_dbi_contractor"; "sf_dbi_permit_check";
                       "ca_regs_search"; "sf_regs_search"]).
    assert (Hclosed : forall b evs pre, P b evs -> P b (pre ++ evs)) by auto.
    assert (Hins : forall (k : string) v (results : pydict),
               k ∈ ["sf_dbi_contractor"; "sf_dbi_permit_check";
                    "ca_regs_search"; "sf_regs_search"] ->
               P results [] -> P (<[k := v]> results) []).
    { intros k v results Hk Hr k' Hs.
      destruct (decide (k' = k)) as [->|Hne]; [exact Hk|].
      rewrite lookup_insert_ne in Hs by done. now apply Hr. }
    assert (Hrun : exists b w' evs,
               run_regulatory_verification body subject w = (Return b, w', evs)
               /\ P b evs).
    { revert w. unfold run_regulatory_verification. cbv zeta.
      apply (returns_pbind _ _ (fun b => P b []) P Hclosed).
      { intros w. destruct (ReLicense.search _) as [license_number|].
        - apply (returns_pbind _ _ (fun _ => True) (fun b _ => P b []));
            [auto | intros w0; apply returns_log | intros _ _].
          apply (returns_pbind _ _ (fun _ => True) (fun b _ => P b []));
            [auto | intros w0; apply guarded_run | intros entry _ w0].
          unfold ret. do 3 eexists. split; [reflexivity|].
          apply Hins; [set_solver|]. intros k [? Hk]. now rewrite lookup_empty in Hk.
        - unfold ret. do 3 eexists. split; [reflexivity|].
          intros k [? Hk]. now rewrite lookup_empty in Hk. }
      intros results1 H1.
      apply (returns_pbind _ _ (fun b => P b []) P Hclosed).
      { intros w. destruct (_ && _).
        - apply (returns_pbind _ _ (fun _ => True) (fun b _ => P b []));
            [auto | intros w0; apply returns_log | intros _ _ w0].
          unfold ret. do 3 eexists. split; [reflexivity|].
          apply Hins; [set_solver | exact H1].
        - unfold ret. do 3 eexists. split; [reflexivity | exact H1]. }
      intros results2 H2.
      apply (returns_pbind _ _ (fun b => P b []) P Hclosed).
      { intros w. destruct (_ || _).
        - apply (returns_pbind _ _ (fun _ => True) (fun b _ => P b []));
            [auto | intros w0; apply returns_log | intros _ _].
          apply (returns_pbind _ _ (fun _ => True) (fun b _ => P b []));
            [auto | intros w0; apply guarded_run | intros entry _ w0].
          unfold ret. do 3 eexists. split; [reflexivity|].
          apply Hins; [set_solver | exact H2].
        - unfold ret. do 3 eexists. split; [reflexivity | exact H2]. }
      intros results3 H3 w. destruct (_ || _).
      - revert w.
        apply (returns_pbind _ _ (fun _ => True) P Hclosed);
          [intros w0; apply returns_log | intros _ _].
        apply (returns_pbind _ _ (fun _ => True) P Hclosed);
          [intros w0; apply guarded_run | intros entry _ w0].
        unfold ret. do 3 eexists. split; [reflexivity|].
        apply Hins; [set_solver | exact H3].
      - unfold ret. do 3 eexists. split; [reflexivity | exact H3]. }
    destruct Hrun as (b & w' & evs & -> & Hb). exists b. split; [reflexivity | exact Hb].
  - intros Hlic Hpermit H24 Hca Hsf Hsfb.
    unfold run_regulatory_verification. cbv zeta.
    destruct (ReLicense.search _) as [g|] eqn:Hs.
    { apply license_search_lic in Hs. congruence. }
    rewrite Hpermit, H24, Hca, Hsf, Hsfb. reflexivity.
  - intros call entry w0 e. apply guarded_raises.
Qed.

End RegulatoryFacts.

Lemma regulatory_checks_are_guarded_witness :
  @run_regulatory_verification (scripted_outside create_unreachable) agents_down
    (Some "See you on Friday.") (Some "Roof") tt
  = (Return ∅, tt, []).
Proof.
  destruct (@regulatory_checks_are_guarded (scripted_outside create_unreachable)
              agents_down (Some "See you on Friday.") (Some "Roof") tt)
    as (_ & Hquiet & _).
  apply Hquiet; reflexivity.
Defined.

(** A message that names a licence: the number is looked up, and the
    agent that cannot be reached leaves an error entry. *)
Example license_is_looked_up :
  ReLicense.search (Str.lower "Our Lic. No. 1034567 is valid") = Some "1034567"
  /\ ReLicense.search (Str.lower "License #12345") = None
  /\ ((@run_regulatory_verification (scripted_outside create_unreachable)
         agents_down (Some "Our license # 1034567") None tt).1.1
      = Return {["sf_dbi_contractor" := VDict [("error", VStr "unreachable")]]}).
Proof. repeat split; reflexivity. Qed.

(** ** The sequence index, where it is contiguous *)

Section SequenceMore.

Context {hashing : Hashing} {segmenter : Segmenter} {parser : HtmlParser}
        {codec : JsonCodec}.

(** X29. On the HTML path the atom at position [j] of the list returned
    carries the sequence index [j]; on the plain-text path it does
    whenever no sentence of the segmenter's answer is blank. *)
Theorem sequence_index_is_position message_id html_content plain_content0
    sender_email (returned : list Atom) :
  atomize message_id html_content plain_content0 sender_email = Return returned ->
  (negb (truthy_opt html_content) && truthy_opt plain_content0 = false ->
   forall j a, returned !! j = Some a ->
               has_int a "sequenceIndex" (Z.of_nat j))
  /\ (forall sentences,
        negb (truthy_opt html_content) && truthy_opt plain_content0 = true ->
        sent_tokenize (default "" plain_content0) = Return sentences ->
        Forall (fun s => Str.strip s <> "") sentences ->
        forall j a, returned !! j = Some a ->
                    has_int a "sequenceIndex" (Z.of_nat j)).
Proof.
  intros Hret. split.
  - intros Hpath j a Hj.
    exact (html_path_indexed _ _ _ _ _ Hpath Hret j a Hj).
  - intros sentences Hpath Hs Hall j a Hj.
    assert (Hplain : _atomize_plain message_id (default "" plain_content0)
                       sender_email = Return returned).
    { revert Hret. unfold atomize. now rewrite Hpath. }
    refine (plain_path_indexed _ _ _ _ _ Hs _ Hplain j a Hj).
    eapply Forall_impl; [exact Hall|]. intros s Hne.
    now apply nonempty_not_empty.
Qed.

End SequenceMore.

Lemma sequence_index_is_position_witness :
  @atomize plain_digest one_sentence (parses_to (NavigableString "Pay me."))
    empty_dict_codec (Some "m1") (Some "<p>") None None
  = Return [ @html_atom plain_digest empty_dict_codec (Some "m1") "Pay me." 0 0 ∅ ]
  /\ has_int (@html_atom plain_digest empty_dict_codec (Some "m1") "Pay me." 0 0 ∅)
       "sequenceIndex" 0.
Proof.
  split; [reflexivity|].
  destruct (@sequence_index_is_position plain_digest one_sentence
              (parses_to (NavigableString "Pay me.")) empty_dict_codec
              (Some "m1") (Some "<p>") None None _ eq_refl)
    as [Hhtml _].
  exact (Hhtml eq_refl 0%nat _ eq_refl).
Defined.

(** ** The colour declaration of a style attribute *)

Lemma take_while_group (v rest : string) :
  Forall (fun c => Re.in_group c = true) (list_ascii_of_string v) ->
  begins_with Re.in_group rest = false ->
  Re.take_while Re.in_group (String.append v rest) = v.
Proof.
  intros Hv Hrest. induction v as [|c v IH].
  - destruct rest as [|d rest]; [reflexivity|].
    change (Re.take_while Re.in_group (String d rest) = "").
    cbn in Hrest. cbn [Re.take_while]. now rewrite Hrest.
  - cbn [list_ascii_of_string] in Hv. apply Forall_cons in Hv as [Hc Hv].
    rewrite str_append_cons. cbn [Re.take_while]. now rewrite Hc, (IH Hv).
Qed.

Lemma match_color_declaration (v rest : string) :
  v <> "" ->
  Forall (fun c => Re.in_group c = true) (list_ascii_of_string v) ->
  begins_with Str.isspace v = false ->
  begins_with Re.in_group rest = false ->
  Re.match_color_at (String.append "color: " (String.append v rest)) = Some v.
Proof.
  intros Hne Hv Hsp Hrest. unfold Re.match_color_at.
  change (String.prefix "color" (String.append "color: " (String.append v rest)))
    with true.
  change (Re.drop 5 (String.append "color: " (String.append v rest)))
    with (String ":" (String " " (String.append v rest))).
  cbn [Str.lstrip_by].
  change (Str.isspace ":") with false. cbn iota.
  change (Str.isspace " ") with true. cbn iota.
  assert (Hl : Str.lstrip_by Str.isspace (String.append v rest)
               = String.append v rest).
  { apply lstrip_fixed. destruct v as [|c v]; [congruence|exact Hsp]. }
  change (Str.lstrip_by Str.isspace (String " " (String.append v rest)))
    with (Str.lstrip_by Str.isspace (String.append v rest)).
  rewrite Hl, (take_while_group v rest Hv Hrest).
  destruct v; [congruence | reflexivity].
Qed.

Lemma search_color_unfold (s : string) :
  Re.search_color s
  = match Re.match_color_at s with
    | Some g => Some g
    | None =>
        match s with
        | EmptyString => None
        | String _ s' => Re.search_color s'
        end
    end.
Proof. destruct s; reflexivity. Qed.

Lemma search_color_background (s : string) :
  Re.search_color (String.append "background-" s) = Re.search_color s.
Proof. reflexivity. Qed.

Section ColourDeclaration.

Context {parser : HtmlParser}.

(** X30. The colour of a tag whose style attribute begins, in lowercase,
    with a declaration [color: v] is [v], trimmed; and so it is when the
    attribute begins with [background-color: v], since the expression
    looks for the letters color anywhere.  Here [v] is not empty, has no
    semicolon and no double quote, does not begin with whitespace, and is
    followed by a semicolon, a double quote or nothing; the tag is not a
    [font] tag. *)
Theorem colour_declaration (name : string) (attrs : gmap string attr_value)
    (current_style_stack : style) (style_text v rest : string) :
  attrs !! "style" = Some (AttrStr style_text) ->
  Str.lower style_text = String.append "color: " (String.append v rest)
  \/ Str.lower style_text
     = String.append "background-color: " (String.append v rest) ->
  v <> "" ->
  Forall (fun c => Re.in_group c = true) (list_ascii_of_string v) ->
  begins_with Str.isspace v = false ->
  begins_with Re.in_group rest = false ->
  name <> "font" ->
  tag_style name attrs current_style_stack !! "color" = Some (Str.strip v).
Proof.
  intros Hs Hshape Hne Hv Hsp Hrest Hfont.
  assert (Hattr : style_attr_of attrs = Str.lower style_text)
    by (unfold style_attr_of; now rewrite Hs).
  assert (Hfacts : Str.nonempty (Str.lower style_text) = true
                   /\ Str.contains "color" (Str.lower style_text) = true
                   /\ Re.search_color (Str.lower style_text) = Some v).
  { destruct Hshape as [-> | ->].
    - split; [reflexivity|]. split; [reflexivity|].
      rewrite search_color_unfold.
      now rewrite (match_color_declaration v rest Hne Hv Hsp Hrest).
    - split; [reflexivity|]. split; [reflexivity|].
      change (String.append "background-color: " (String.append v rest))
        with (String.append "background-"
                (String.append "color: " (String.append v rest))).
      rewrite search_color_background, search_color_unfold.
      now rewrite (match_color_declaration v rest Hne Hv Hsp Hrest). }
  destruct Hfacts as (Hn & Hc & Hsearch).
  assert (Hf : String.eqb name "font" = false) by now apply String.eqb_neq.
  unfold tag_style. cbv zeta. rewrite Hattr, Hn, Hc, Hsearch, Hf.
  repeat match goal with
    | |- context [if ?b then _ else _] => destruct b
    end;
    rewrite ?lookup_insert_ne by done; apply lookup_insert_eq.
Qed.

End ColourDeclaration.

Lemma colour_declaration_witness :
  @tag_style (parses_to (NavigableString "")) "span"
    {["style" := AttrStr "Background-Color: Red ; font-size: 12px"]} ∅
  !! "color" = Some "red".
Proof.
  apply (@colour_declaration (parses_to (NavigableString "")) "span"
           {["style" := AttrStr "Background-Color: Red ; font-size: 12px"]} ∅
           "Background-Color: Red ; font-size: 12px" "red " "; font-size: 12px");
    try reflexivity.
  - right. reflexivity.
  - discriminate.
  - repeat constructor.
  - discriminate.
Defined.
